(** * Drive spreadsheet search and combination: a model of [app.py]

    The script authenticates to a Drive account, walks a folder tree for
    spreadsheets whose title matches a keyword, downloads them, concatenates
    them into one table and shows the result.

    The program is orchestration over external services, so the model is a
    computation that reads the history of its interactions and emits new
    ones: every call into PyDrive, requests, pandas and Streamlit is an
    [Event], the answers of the outside world come from an [Env] of
    oracles, and Python exceptions are results that [try_except] can catch.

    Modelling choices, next to the definitions they concern:
    - a [str] is the sequence of the bytes of its UTF-8 encoding, on which
      concatenation, equality, [in] and [endswith] are those of the
      sequence of characters; [str.lower], which covers all of Unicode, is
      not rewritten here: it is the function [str_lower] of the world, and
      what is proved holds of every such function;
    - the interpreter's stack is bounded: [recursive_search] is given the
      number of nested calls of itself the stack still has room for, and
      the call that does not fit raises [RecursionError];
    - cell values of a spreadsheet are opaque;
    - the calls of the three tabs into pandas, seaborn, matplotlib and
      Streamlit that work on the data may raise, as the world decides;
    - the two Streamlit calls at module level (the title and the line of
      introduction) belong to no function and are left out. *)

From Stdlib Require Import String Ascii List Bool Arith ZArith Lia.
From Stdlib Require Import DecimalString.
Import ListNotations.
Open Scope string_scope.
Open Scope list_scope.
Open Scope nat_scope.

(** Concatenation of strings, as [+] and f-strings do in the script. *)
Infix "+++" := String.append (at level 60, right associativity).

(* ------------------------------------------------------------------ *)
(** * Python strings *)
(* ------------------------------------------------------------------ *)

Module PyStr.

(** [hay.startswith(needle)] *)
Fixpoint startswith (hay needle : string) {struct needle} : bool :=
  match needle, hay with
  | EmptyString, _ => true
  | String _ _, EmptyString => false
  | String a needle', String b hay' => Ascii.eqb a b && startswith hay' needle'
  end.

(** [needle in hay]: some position of [hay] starts with [needle]. *)
Fixpoint contains (needle hay : string) : bool :=
  startswith hay needle ||
  match hay with
  | EmptyString => false
  | String _ hay' => contains needle hay'
  end.

(** [s.endswith(suffix)]: some tail of [s] is [suffix]. *)
Fixpoint endswith (s suffix : string) : bool :=
  String.eqb s suffix ||
  match s with
  | EmptyString => false
  | String _ s' => endswith s' suffix
  end.

(** [str(n)] for a non-negative integer. *)
Definition of_nat (n : nat) : string :=
  NilEmpty.string_of_uint (Nat.to_uint n).

(** [not s] for an optional string: [None] and [''] are falsy. *)
Definition falsy (o : option string) : bool :=
  match o with
  | None => true
  | Some s => String.eqb s ""
  end.

(** [s.isascii()]: every character is below 128. *)
Fixpoint is_ascii (s : string) : bool :=
  match s with
  | EmptyString => true
  | String c s' => (nat_of_ascii c <? 128) && is_ascii s'
  end.

(** What [s.lower()] gives on ASCII text: the capitals [A] to [Z] move by
    32 and every other character stays. *)
Definition ascii_lower_char (c : ascii) : ascii :=
  let n := nat_of_ascii c in
  if (65 <=? n) && (n <=? 90) then ascii_of_nat (n + 32) else c.

Fixpoint ascii_lower (s : string) : string :=
  match s with
  | EmptyString => EmptyString
  | String c s' => String (ascii_lower_char c) (ascii_lower s')
  end.

End PyStr.

(* ------------------------------------------------------------------ *)
(** * Values exchanged with the outside world *)
(* ------------------------------------------------------------------ *)

(** A Python exception: its class and the text [str(e)] gives. *)
Record Exn := mkExn { exn_class : string; exn_msg : string }.

(** What an external call answers: a value, or it raises. *)
Inductive Reply (A : Type) : Type :=
| Ok (a : A)
| Fails (e : Exn).
Arguments Ok {A} a.
Arguments Fails {A} e.

(** A file resource as PyDrive lists it; [downloadUrl] may be absent. *)
Record DriveFile := mkDriveFile {
  title : string;
  id : string;
  mimeType : string;
  downloadUrl : option string
}.

(** The dictionaries [find_files] appends to [found_files]. *)
Record FoundFile := mkFoundFile {
  name : string;
  path : string;
  file_id : string;
  download_url : option string
}.

(** OAuth credentials as far as the script reads them. *)
Record Credentials := mkCredentials {
  access_token : string;
  access_token_expired : bool
}.

(** [GoogleDrive(gauth)]: the session keeps the credentials of [gauth]. *)
Record Drive := mkDrive { auth_credentials : Credentials }.

(** Body of an HTTP response, [response.content]. *)
Record Response := mkResponse { content : string }.

(** ** Data frames

    A column has a label and a kind of dtype; a cell is missing ([NaN]) or
    holds a value, kept as text since only pandas looks inside. Rows are
    aligned with [df_columns].

    The kinds are those the analysis tab tells apart: [Numeric] for the
    integer, floating and complex dtypes, [Timedelta] for [timedelta64],
    [Boolean] for [bool], and [Other] for the rest (text, dates,
    categories, [object]). *)
Inductive dtype := Numeric | Timedelta | Boolean | Other.

Record Column := mkColumn { col_label : string; col_dtype : dtype }.

Definition cell := option string.

Record DataFrame := mkDataFrame {
  df_columns : list Column;
  df_index : list Z;
  df_rows : list (list cell)
}.

(** [len(df)] *)
Definition len (df : DataFrame) : nat := length (df_rows df).

(** [df.empty]: an axis of length 0. *)
Definition empty (df : DataFrame) : bool :=
  (length (df_columns df) =? 0) || (len df =? 0).

Definition labels (df : DataFrame) : list string := map col_label (df_columns df).

(* ------------------------------------------------------------------ *)
(** * Events *)
(* ------------------------------------------------------------------ *)

Inductive Place := Page | Sidebar.

Inductive Element :=
| Header | Subheader | Markdown | Error | Warning | Info | Success.

Inductive AuthStep :=
| LoadCredentialsFile | LoadClientConfigFile | LocalWebserverAuth
| SaveCredentialsFile | Refresh | Authorize.

Inductive Event :=
(* os, PyDrive *)
| OsPathExists (file : string)
| GAuth (step : AuthStep)
| NewGoogleDrive
| DriveListFile (q : string)
(* requests, pandas *)
| HttpGet (url : string) (headers : list (string * string))
| PdReadExcel (bytes : string)
| PdConcat (frames : nat)
(* Streamlit *)
| St (where_ : Place) (what : Element) (text : string)
| StSpinner (text : string)
| StSpinnerDone
| StButton (where_ : Place) (label : string)
| StSelectbox (where_ : Place) (label : string) (options : list string)
| StTextInput (where_ : Place) (label : string) (default : string)
| StRadio (label : string) (options : list string)
| StTabs (tabs : list string)
| StDataframeHead (df : DataFrame) (rows : nat)
| StWriteDescribe (df : DataFrame)
| PltSubplots
| SnsHistplot (column : string)
| SnsBoxplot (column : string)
| StPyplot (column : string)
| DfToCsv (df : DataFrame)
| DfToExcel (df : DataFrame)
| StDownloadButton (label file_name mime : string).

Definition Trace := list Event.

(* ------------------------------------------------------------------ *)
(** * The outside world *)
(* ------------------------------------------------------------------ *)

(** Answers of the services and of the libraries the script calls. Those
    that can change while the script runs are given the history of events
    so far; the listing of the Drive account is taken as fixed during one
    run, as are the widget values, which Streamlit fixes when it starts a
    run. *)
Record Env := mkEnv {
  os_path_exists : Trace -> string -> bool;
  gauth_LoadCredentialsFile : Trace -> Reply (option Credentials);
  gauth_LoadClientConfigFile : Trace -> Reply unit;
  gauth_LocalWebserverAuth : Trace -> Reply Credentials;
  gauth_SaveCredentialsFile : Trace -> Reply unit;
  gauth_Refresh : Trace -> Credentials -> Reply Credentials;
  gauth_Authorize : Trace -> Credentials -> Reply unit;
  (** [drive.ListFile({'q': q}).GetList()] *)
  drive_GetList : string -> Reply (list DriveFile);
  (** [requests.get(url, headers=headers)] *)
  requests_get : Trace -> string -> list (string * string) -> Reply Response;
  (** [pd.read_excel(BytesIO(bytes))] *)
  pd_read_excel : string -> Reply DataFrame;
  (** dtype pandas gives a column concatenated from parts of these
      dtypes, [None] where a frame lacks the column *)
  pd_common_dtype : list (option dtype) -> dtype;
  (** [s.lower()] *)
  str_lower : string -> string;
  (** what a call of the tabs that works on the data does, the event
      naming the call: [st.dataframe], [describe] with [st.write],
      [plt.subplots], [sns.histplot], [sns.boxplot], [st.pyplot],
      [to_csv], [to_excel] *)
  tab_call : Trace -> Event -> Reply unit;
  button_pressed : Place -> string -> bool;
  selectbox_choice : Place -> string -> nat;
  text_input_value : Place -> string -> option string;
  radio_choice : string -> nat;
  (** [getattr(st.session_state, 'run_search', False)] *)
  session_run_search : bool
}.

(* ------------------------------------------------------------------ *)
(** * Computations *)
(* ------------------------------------------------------------------ *)

(** Why a computation stops without a value: a Python exception, or
    Streamlit's [st.rerun()]. *)
Inductive Stop :=
| Raised (e : Exn)
| Rerun.

Inductive Res (A : Type) : Type :=
| Val (a : A)
| Halt (s : Stop).
Arguments Val {A} a.
Arguments Halt {A} s.

(** A computation reads the history and gives a result with the events it
    added. *)
Definition M (A : Type) : Type := Trace -> Res A * Trace.

Definition ret {A} (a : A) : M A := fun _ => (Val a, []).

Definition bind {A B} (m : M A) (k : A -> M B) : M B :=
  fun h =>
    match m h with
    | (Val a, es) =>
        let (r, es') := k a (h ++ es) in (r, es ++ es')
    | (Halt s, es) => (Halt s, es)
    end.

Definition halt {A} (s : Stop) : M A := fun _ => (Halt s, []).

Definition raise {A} (e : Exn) : M A := halt (Raised e).

Definition emit (e : Event) : M unit := fun _ => (Val tt, [e]).

(** An external call: one event, answered from the history before it. *)
Definition call {A} (e : Event) (answer : Trace -> Reply A) : M A :=
  fun h =>
    match answer h with
    | Ok a => (Val a, [e])
    | Fails x => (Halt (Raised x), [e])
    end.

(** [try: m except Exception as e: handler(e)] *)
Definition try_except {A} (m : M A) (handler : Exn -> M A) : M A :=
  fun h =>
    match m h with
    | (Halt (Raised e), es) =>
        let (r, es') := handler e (h ++ es) in (r, es ++ es')
    | other => other
    end.

(** [with st.spinner(text): m] *)
Definition with_spinner {A} (text : string) (m : M A) : M A :=
  fun h =>
    let (r, es) := m (h ++ [StSpinner text]) in
    (r, StSpinner text :: es ++ [StSpinnerDone]).

(** [for x in l: s = body(x, s)] *)
Fixpoint for_each {A S} (l : list A) (body : A -> S -> M S) (s : S) : M S :=
  match l with
  | [] => ret s
  | x :: l' => bind (body x s) (for_each l' body)
  end.

Declare Scope py_scope.
Delimit Scope py_scope with py.
Notation "x <- m ;; k" := (bind m (fun x => k))
  (at level 61, m at next level, right associativity) : py_scope.
Notation "m ;; k" := (bind m (fun _ => k))
  (at level 61, right associativity) : py_scope.
Open Scope py_scope.

(** Result and events of running a computation after history [h]. *)
Definition result {A} (m : M A) (h : Trace) : Res A := fst (m h).
Definition events {A} (m : M A) (h : Trace) : Trace := snd (m h).

(* ------------------------------------------------------------------ *)
(** * Python dictionaries with string keys *)
(* ------------------------------------------------------------------ *)

(** A [dict] keeps its keys in insertion order, and that order is the order
    of the options of the folder select box, so a dictionary is the list of
    its items; [d[k] = v] overwrites the value of a key in place. *)
Module Dict.

Definition t := list (string * string).

Fixpoint set (k v : string) (d : t) : t :=
  match d with
  | [] => [(k, v)]
  | (k', v') :: d' =>
      if String.eqb k' k then (k, v) :: d' else (k', v') :: set k v d'
  end.

Fixpoint get (k : string) (d : t) : option string :=
  match d with
  | [] => None
  | (k', v') :: d' => if String.eqb k' k then Some v' else get k d'
  end.

Definition keys (d : t) : list string := map fst d.

End Dict.

(* ------------------------------------------------------------------ *)
(** * The script *)
(* ------------------------------------------------------------------ *)

Definition st_button (env : Env) (p : Place) (label : string) : M bool :=
  emit (StButton p label);; ret (button_pressed env p label).

(** [st.selectbox] returns one of its options, the first by default. *)
Definition st_selectbox (env : Env) (p : Place) (label : string)
    (options : list string) : M string :=
  emit (StSelectbox p label options);;
  ret (nth (selectbox_choice env p label) options (hd "" options)).

Definition st_text_input (env : Env) (p : Place) (label default : string)
    : M string :=
  emit (StTextInput p label default);;
  ret (match text_input_value env p label with Some s => s | None => default end).

Definition st_radio (env : Env) (label : string) (options : list string)
    : M string :=
  emit (StRadio label options);;
  ret (nth (radio_choice env label) options (hd "" options)).

(** ** [authenticate_drive] *)

Definition authenticate_drive (env : Env) : M (option Drive) :=
  (* gauth = GoogleAuth(): no credentials yet *)
  saved <- call (OsPathExists "credentials.json")
             (fun h => Ok (os_path_exists env h "credentials.json"));;
  credentials <-
    (if saved
     then call (GAuth LoadCredentialsFile) (gauth_LoadCredentialsFile env)
     else ret None);;
  authorized <-
    match credentials with
    | None =>
        secrets <- call (OsPathExists "client_secrets.json")
                     (fun h => Ok (os_path_exists env h "client_secrets.json"));;
        if secrets then
          try_except
            (call (GAuth LoadClientConfigFile) (gauth_LoadClientConfigFile env);;
             c <- call (GAuth LocalWebserverAuth) (gauth_LocalWebserverAuth env);;
             call (GAuth SaveCredentialsFile) (gauth_SaveCredentialsFile env);;
             ret (Some c))
            (fun e =>
               emit (St Page Error
                       ("❌ Erreur lors de l'authentification : " +++ exn_msg e));;
               ret None)
        else
          emit (St Sidebar Error "❌ client_secrets.json manquant.");;
          ret None
    | Some c =>
        if access_token_expired c then
          c' <- call (GAuth Refresh) (fun h => gauth_Refresh env h c);;
          ret (Some c')
        else
          call (GAuth Authorize) (fun h => gauth_Authorize env h c);;
          ret (Some c)
    end;;
  match authorized with
  | None => ret None                      (* the two [return None] *)
  | Some c => emit NewGoogleDrive;; ret (Some (mkDrive c))
  end.

(** ** [get_root_folders] *)

Definition ListFile_GetList (env : Env) (drive : Drive) (q : string)
    : M (list DriveFile) :=
  call (DriveListFile q) (fun _ => drive_GetList env q).

Definition folders_query : string :=
  "mimeType = 'application/vnd.google-apps.folder' and trashed = false".

(** [{f['title']: f['id'] for f in file_list}] *)
Definition title_to_id (file_list : list DriveFile) : Dict.t :=
  fold_left (fun d f => Dict.set (title f) (id f) d) file_list [].

Definition get_root_folders (env : Env) (drive : Drive) : M Dict.t :=
  file_list <- ListFile_GetList env drive folders_query;;
  ret (title_to_id file_list).

(** ** [find_files] *)

Definition folder_mime : string := "application/vnd.google-apps.folder".

Definition is_folder (file : DriveFile) : bool :=
  String.eqb (mimeType file) folder_mime.

(** The query of [recursive_search]: the entries that have the folder among
    their parents and are not in the bin. What the account answers to it is
    the content of the folder as far as the search is concerned. *)
Definition children_query (folder_id : string) : string :=
  "'" +++ folder_id +++ "' in parents and trashed = false".

(** The test of line 65 on a title. *)
Definition title_matches (env : Env) (keyword extension title_ : string) : bool :=
  PyStr.contains (str_lower env keyword) (str_lower env title_)
  && PyStr.endswith title_ extension.

Definition found_entry (file : DriveFile) (file_path : string) : FoundFile :=
  {| name := title file;
     path := file_path;
     file_id := id file;
     download_url := downloadUrl file |}.

(** What the interpreter raises when a call finds no room on the stack.
    The text varies with the call that meets the limit; nothing in the
    script reads it. *)
Definition recursion_error : Exn :=
  mkExn "RecursionError" "maximum recursion depth exceeded".

(** The inner function; [found_files], which the closure appends to, is
    passed in and handed back. [limit] is the number of nested calls of
    [recursive_search] the stack has room for, each with the calls it
    makes into PyDrive: what [sys.getrecursionlimit()] leaves once the
    frames of Streamlit, [main], [load_data] and [find_files] are counted.
    A call that does not fit raises [RecursionError] before it lists
    anything. *)
Fixpoint recursive_search (limit : nat) (env : Env) (drive : Drive)
    (keyword extension : string)
    (current_folder_id current_path : string)
    (found_files : list FoundFile) {struct limit} : M (list FoundFile) :=
  match limit with
  | O => raise recursion_error
  | S limit' =>
      file_list <- ListFile_GetList env drive (children_query current_folder_id);;
      for_each file_list
        (fun file found_files =>
           let file_path := current_path +++ "/" +++ title file in
           if is_folder file then
             recursive_search limit' env drive keyword extension
               (id file) file_path found_files
           else if title_matches env keyword extension (title file) then
             ret (found_files ++ [found_entry file file_path])
           else
             ret found_files)
        found_files
  end.

Definition find_files (limit : nat) (env : Env) (drive : Drive)
    (folder_id keyword extension : string) : M (list FoundFile) :=
  recursive_search limit env drive keyword extension folder_id "" [].

(** ** [load_excel_files] *)

Definition load_excel_files (env : Env) (drive : Drive)
    (files_info : list FoundFile) : M (list DataFrame) :=
  let headers :=
    [("Authorization", "Bearer " +++ access_token (auth_credentials drive))] in
  for_each files_info
    (fun file_info dfs =>
       if PyStr.falsy (download_url file_info) then
         emit (St Page Warning
                 ("⚠️ Impossible de télécharger " +++ name file_info));;
         ret dfs                                            (* continue *)
       else
         let url := match download_url file_info with Some u => u | None => "" end in
         try_except
           (response <- call (HttpGet url headers)
                          (fun h => requests_get env h url headers);;
            df <- call (PdReadExcel (content response))
                    (fun _ => pd_read_excel env (content response));;
            ret (dfs ++ [df]))
           (fun e =>
              emit (St Page Warning
                      ("⚠️ Échec du chargement de " +++ name file_info
                       +++ " : " +++ exn_msg e));;
              ret dfs))
    [].

(** ** [pd.concat(dfs, ignore_index=True)]

    As documented by pandas: an empty list of frames is refused with a
    [ValueError]; otherwise the columns are the union of the frames'
    columns in order of first appearance, every row is re-expressed over
    them with [NaN] where its frame lacks the column, the rows follow one
    another frame by frame, and the index is the range [0..n-1]. *)
Module Pd.

Definition add_label (acc : list string) (l : string) : list string :=
  if existsb (String.eqb l) acc then acc else acc ++ [l].

Definition union_labels (dfs : list DataFrame) : list string :=
  fold_left (fun acc d => fold_left add_label (labels d) acc) dfs [].

(** The cell of [row] under label [l], [NaN] when [l] is not a column. *)
Definition lookup_cell (from : list string) (row : list cell) (l : string)
    : cell :=
  match find (fun p => String.eqb (fst p) l) (combine from row) with
  | Some (_, c) => c
  | None => None
  end.

Definition reindex_row (from to : list string) (row : list cell) : list cell :=
  map (lookup_cell from row) to.

Definition dtype_in (d : DataFrame) (l : string) : option dtype :=
  option_map col_dtype
    (find (fun c => String.eqb (col_label c) l) (df_columns d)).

(** [RangeIndex(n)] *)
Definition range (n : nat) : list Z := map Z.of_nat (seq 0 n).

Definition concat (common : list (option dtype) -> dtype)
    (dfs : list DataFrame) : Reply DataFrame :=
  match dfs with
  | [] => Fails (mkExn "ValueError" "No objects to concatenate")
  | _ :: _ =>
      let ls := union_labels dfs in
      let rows :=
        flat_map (fun d => map (reindex_row (labels d) ls) (df_rows d)) dfs in
      Ok {| df_columns :=
              map (fun l => mkColumn l (common (map (fun d => dtype_in d l) dfs))) ls;
            df_index := range (length rows);
            df_rows := rows |}
  end.

(** The dtypes ['number'] stands for in [select_dtypes]: the subclasses
    of [numpy.number], among them [timedelta64]; [bool] is not of them. *)
Definition selected_as_number (d : dtype) : bool :=
  match d with
  | Numeric | Timedelta => true
  | Boolean | Other => false
  end.

(** [pd.api.types.is_numeric_dtype] on a dtype: numbers and booleans,
    not the date-like dtypes. *)
Definition is_numeric_dtype (d : dtype) : bool :=
  match d with
  | Numeric | Boolean => true
  | Timedelta | Other => false
  end.

(** [df.select_dtypes(include=['number']).columns] *)
Definition numeric_columns (df : DataFrame) : list string :=
  map col_label
    (filter (fun c => selected_as_number (col_dtype c)) (df_columns df)).

(** [pd.api.types.is_numeric_dtype(df[col])]: [df[col]] is a series when
    one column bears the label; for a repeated label it is a frame, which
    has no numeric dtype. *)
Definition is_numeric_dtype_at (df : DataFrame) (col : string) : bool :=
  match filter (fun c => String.eqb (col_label c) col) (df_columns df) with
  | [c] => is_numeric_dtype (col_dtype c)
  | _ => false
  end.

End Pd.

Definition pd_concat (env : Env) (dfs : list DataFrame) : M DataFrame :=
  call (PdConcat (length dfs)) (fun _ => Pd.concat (pd_common_dtype env) dfs).

(** ** [load_data] *)

Definition load_data (limit : nat) (env : Env) (drive : Drive)
    (folder_id keyword extension : string)
    : M (option DataFrame * option (list FoundFile)) :=
  files_found <-
    with_spinner "🔎 Recherche des fichiers..."
      (find_files limit env drive folder_id keyword extension);;
  match files_found with
  | [] => ret (None, None)
  | _ :: _ =>
      dfs <-
        with_spinner "📥 Téléchargement des fichiers..."
          (load_excel_files env drive files_found);;
      final_df <- pd_concat env dfs;;
      ret (Some final_df, Some files_found)
  end.

(** ** [main] *)

(** A call of a tab that works on the data: it answers or raises. *)
Definition tab_step (env : Env) (e : Event) : M unit :=
  call e (fun h => tab_call env h e).

(** First tab: the combined dataset. The guard of the three tabs is
    [final_df is not None and not final_df.empty]. *)
Definition dataset_tab (env : Env) (final_df : option DataFrame) : M unit :=
  match final_df with
  | Some df =>
      if negb (empty df) then
        emit (St Page Markdown "### 🧾 Dimensions du dataset");;
        emit (St Page Markdown
                ("**Nombre de lignes :** " +++ PyStr.of_nat (len df)
                 +++ " | **Colonnes :** "
                 +++ PyStr.of_nat (length (df_columns df))));;
        emit (St Page Markdown "### 📋 Aperçu des données");;
        tab_step env (StDataframeHead df 10)
      else emit (St Page Warning "⚠️ Aucune donnée à afficher.")
  | None => emit (St Page Warning "⚠️ Aucune donnée à afficher.")
  end.

Definition not_numeric_warning (col : string) : string :=
  "⚠️ La colonne `" +++ col
  +++ "` n’est pas numérique. Elle sera ignorée pour le boxplot.".

(** The body of the loop over [numeric_cols]. *)
Definition plot_column (env : Env) (df : DataFrame) (col : string) : M unit :=
  if Pd.is_numeric_dtype_at df col then
    tab_step env PltSubplots;;
    tab_step env (SnsHistplot col);;
    tab_step env (SnsBoxplot col);;
    tab_step env (StPyplot col)
  else
    emit (St Page Warning (not_numeric_warning col)).

(** Second tab: descriptive analysis. *)
Definition analysis_tab (env : Env) (final_df : option DataFrame) : M unit :=
  match final_df with
  | Some df =>
      if negb (empty df) then
        emit (St Page Markdown "### 📈 Statistiques descriptives");;
        tab_step env (StWriteDescribe df);;
        let numeric_cols := Pd.numeric_columns df in
        if 0 <? length numeric_cols then
          emit (St Page Markdown "### 📊 Distribution des variables numériques");;
          for_each numeric_cols (fun col _ => plot_column env df col) tt
        else
          emit (St Page Info "ℹ️ Aucune variable numérique à visualiser.")
      else emit (St Page Warning "⚠️ Aucune donnée à analyser.")
  | None => emit (St Page Warning "⚠️ Aucune donnée à analyser.")
  end.

(** Third tab: export. *)
Definition export_tab (env : Env) (final_df : option DataFrame) : M unit :=
  match final_df with
  | Some df =>
      if negb (empty df) then
        emit (St Page Markdown "### 💾 Exporter le dataset combiné");;
        export_format <-
          st_radio env "Choisissez le format d'export" ["CSV"; "Excel"];;
        if String.eqb export_format "CSV" then
          tab_step env (DfToCsv df);;
          emit (StDownloadButton "📥 Télécharger en CSV"
                  "dataset_combine.csv" "text/csv")
        else
          tab_step env (DfToExcel df);;
          emit (StDownloadButton "📥 Télécharger en Excel"
                  "dataset_combine.xlsx"
                  "application/vnd.openxmlformats-officedocument.spreadsheetml.sheet")
      else emit (St Page Warning "⚠️ Aucune donnée à exporter.")
  | None => emit (St Page Warning "⚠️ Aucune donnée à exporter.")
  end.

(** The three [with tab:] blocks, one after the other. *)
Definition show_tabs (env : Env) (final_df : option DataFrame) : M unit :=
  dataset_tab env final_df;;
  analysis_tab env final_df;;
  export_tab env final_df.

(** [if files_found:] — [None] and the empty list are falsy. *)
Definition truthy_files (files_found : option (list FoundFile)) : list FoundFile :=
  match files_found with
  | Some files => files
  | None => []
  end.

(** The part of [main] under [if getattr(st.session_state, 'run_search', False)]. *)
Definition run_search (limit : nat) (env : Env) (drive : Drive)
    (selected_folder folder_id keyword extension : string) : M unit :=
  loaded <- load_data limit env drive folder_id keyword extension;;
  let (final_df, files_found) := loaded in
  match truthy_files files_found with
  | [] =>
      emit (St Sidebar Error "❌ Aucun fichier trouvé.");;
      emit (St Page Subheader
              ("🔍 Résultats pour le dossier : `" +++ selected_folder +++ "`"));;
      emit (St Page Error "❌ Aucun fichier trouvé avec ce mot-clé.")
  | files =>
      emit (St Sidebar Info
              ("📚 Fichiers trouvés : " +++ PyStr.of_nat (length files)));;
      emit (St Sidebar Markdown "**📜 Liste des fichiers :**");;
      for_each files
        (fun file _ => emit (St Sidebar Markdown ("- " +++ name file))) tt;;
      emit (St Page Subheader
              ("🔍 Résultats pour le dossier : `" +++ selected_folder +++ "`"));;
      emit (St Page Success
              ("✅ " +++ PyStr.of_nat (length files) +++ " fichiers trouvés !"));;
      emit (StTabs ["📄 Dataset Combiné"; "📊 Analyse descriptive"; "💾 Export"]);;
      show_tabs env final_df
  end.

Definition main (limit : nat) (env : Env) : M unit :=
  emit (St Sidebar Header "🔐 Authentification");;
  drive <- authenticate_drive env;;
  match drive with
  | None =>
      pressed <- st_button env Sidebar "🔑 Se connecter à Google Drive";;
      if pressed then
        drive <- authenticate_drive env;;
        match drive with
        | Some _ => halt Rerun
        | None => ret tt
        end
      else ret tt
  | Some drive =>
      emit (St Sidebar Success "✅ Connecté à Google Drive");;
      root_folders <-
        with_spinner "📂 Chargement des dossiers principaux..."
          (get_root_folders env drive);;
      match root_folders with
      | [] => emit (St Page Warning "⚠️ Aucun dossier trouvé dans votre Google Drive.")
      | _ :: _ =>
          selected_folder <-
            st_selectbox env Sidebar "📁 Sélectionnez le dossier racine"
              (Dict.keys root_folders);;
          folder_id <-
            match Dict.get selected_folder root_folders with
            | Some i => ret i
            | None => raise (mkExn "KeyError" selected_folder)
            end;;
          keyword <- st_text_input env Sidebar "🔍 Mot-clé à chercher" "tx_curr";;
          extension <-
            st_selectbox env Sidebar "📄 Extension des fichiers" [".xlsx"];;
          pressed <- st_button env Sidebar "🔎 Lancer la recherche";;
          if pressed then
            (* the choices go to [st.session_state], then the script restarts *)
            halt Rerun
          else if session_run_search env then
            run_search limit env drive selected_folder folder_id keyword extension
          else ret tt
      end
  end.


(* ------------------------------------------------------------------ *)
(** * The folder tree and its traversal, as relations *)
(* ------------------------------------------------------------------ *)

(** The folder under [folder_id] is a finite tree of nesting depth at most
    [depth]: its listing answers, and every folder listed is such a tree of
    smaller depth. A folder that reaches itself has no depth. *)
Inductive FolderTree (env : Env) : string -> nat -> Prop :=
| FolderTree_intro folder_id file_list depth :
    drive_GetList env (children_query folder_id) = Ok file_list ->
    (forall f, In f file_list -> is_folder f = true ->
               FolderTree env (id f) depth) ->
    FolderTree env folder_id (S depth).

(** [InSubtree env folder p f fp]: the entry [f] is listed in the folder
    with id [folder] and path [p], or in a folder below it; [fp] is the
    path of [f]. *)
Inductive InSubtree (env : Env)
    : string -> string -> DriveFile -> string -> Prop :=
| InSubtree_child folder p file_list f :
    drive_GetList env (children_query folder) = Ok file_list ->
    In f file_list ->
    InSubtree env folder p f (p +++ "/" +++ title f)
| InSubtree_deeper folder p file_list g f fp :
    drive_GetList env (children_query folder) = Ok file_list ->
    In g file_list -> is_folder g = true ->
    InSubtree env (id g) (p +++ "/" +++ title g) f fp ->
    InSubtree env folder p f fp.

(** [f] with path [fp] is an entry of the listing [l] of a folder with
    path [p], or lies below a folder of [l]. *)
Definition Below (env : Env) (l : list DriveFile) (p : string) (f : DriveFile) (fp : string)
    : Prop :=
  (In f l /\ fp = p +++ "/" +++ title f) \/
  (exists g, In g l /\ is_folder g = true /\
             InSubtree env (id g) (p +++ "/" +++ title g) f fp).

(** What one file adds to [found_files]. *)
Definition selected (env : Env) (keyword extension : string)
    (file : DriveFile) (current_path : string) : list FoundFile :=
  if title_matches env keyword extension (title file)
  then [found_entry file (current_path +++ "/" +++ title file)]
  else [].

(** Depth-first traversal in pre-order, as a relation: the entries of a
    listing are taken in order, a folder is entered at once and left only
    when all that is below it is done. [DepthFirst env k e l p out ord]
    gives the entries [out] found and the folders [ord] listed, in order,
    for the listing [l] of a folder with path [p]. *)
Inductive DepthFirst (env : Env) (keyword extension : string)
    : list DriveFile -> string -> list FoundFile -> list string -> Prop :=
| DepthFirst_done p : DepthFirst env keyword extension [] p [] []
| DepthFirst_folder g rest p l out1 ord1 out2 ord2 :
    is_folder g = true ->
    drive_GetList env (children_query (id g)) = Ok l ->
    DepthFirst env keyword extension l (p +++ "/" +++ title g) out1 ord1 ->
    DepthFirst env keyword extension rest p out2 ord2 ->
    DepthFirst env keyword extension (g :: rest) p
      (out1 ++ out2) (id g :: ord1 ++ ord2)
| DepthFirst_file f rest p out ord :
    is_folder f = false ->
    DepthFirst env keyword extension rest p out ord ->
    DepthFirst env keyword extension (f :: rest) p
      (selected env keyword extension f p ++ out) ord.

(** The events of listing the folders [ord] one after the other. *)
Definition listings (ord : list string) : Trace :=
  map (fun folder => DriveListFile (children_query folder)) ord.

(** The body of the [for] loop of [recursive_search] at a given limit. *)
Definition search_entry (limit : nat) (env : Env) (drive : Drive)
    (keyword extension : string) (current_path : string)
    (file : DriveFile) (found_files : list FoundFile) : M (list FoundFile) :=
  let file_path := current_path +++ "/" +++ title file in
  if is_folder file then
    recursive_search limit env drive keyword extension (id file) file_path found_files
  else if title_matches env keyword extension (title file) then
    ret (found_files ++ [found_entry file file_path])
  else
    ret found_files.

(* ------------------------------------------------------------------ *)
(** * Reading traces *)
(* ------------------------------------------------------------------ *)

(** The URLs requested, in order. *)
Definition http_requests (t : Trace) : list string :=
  flat_map (fun e => match e with HttpGet url _ => [url] | _ => [] end) t.

(** The texts of the warnings shown on the page, in order. *)
Definition warnings (t : Trace) : list string :=
  flat_map (fun e => match e with St Page Warning text => [text] | _ => [] end) t.

(** Events that fetch or build data: a download, a parse, a concatenation. *)
Definition is_data_event (e : Event) : bool :=
  match e with
  | HttpGet _ _ | PdReadExcel _ | PdConcat _ => true
  | _ => false
  end.

(** Events that reach the Drive account or construct a session on it. *)
Definition is_drive_event (e : Event) : bool :=
  match e with
  | NewGoogleDrive | DriveListFile _ => true
  | _ => false
  end.

(** The URLs [load_excel_files] has to request for a list of files. *)
Definition wanted_urls (files_info : list FoundFile) : list string :=
  flat_map
    (fun file_info =>
       match download_url file_info with
       | Some url => if String.eqb url "" then [] else [url]
       | None => []
       end)
    files_info.

(* ------------------------------------------------------------------ *)
(** * Example worlds *)
(* ------------------------------------------------------------------ *)

(** A world with the given Drive listing, network and spreadsheet parser,
    no credential files, untouched widgets and tabs whose calls all
    answer. Titles and keywords of the examples are ASCII text, which
    [str.lower] lowers as [PyStr.ascii_lower] does. *)
Definition world (listing : string -> Reply (list DriveFile))
    (get : Trace -> string -> Reply Response)
    (read_excel : string -> Reply DataFrame) : Env :=
  {| os_path_exists := fun _ _ => false;
     gauth_LoadCredentialsFile := fun _ => Ok None;
     gauth_LoadClientConfigFile := fun _ => Ok tt;
     gauth_LocalWebserverAuth :=
       fun _ => Fails (mkExn "AuthenticationError" "no browser");
     gauth_SaveCredentialsFile := fun _ => Ok tt;
     gauth_Refresh := fun _ c => Ok c;
     gauth_Authorize := fun _ _ => Ok tt;
     drive_GetList := listing;
     requests_get := fun h url _ => get h url;
     pd_read_excel := read_excel;
     pd_common_dtype :=
       fun ds => if existsb (fun d => match d with Some Numeric => false | _ => true end) ds
                 then Other else Numeric;
     str_lower := PyStr.ascii_lower;
     tab_call := fun _ _ => Ok tt;
     button_pressed := fun _ _ => false;
     selectbox_choice := fun _ _ => 0;
     text_input_value := fun _ _ => None;
     radio_choice := fun _ => 0;
     session_run_search := true |}.

Definition xlsx_mime : string :=
  "application/vnd.openxmlformats-officedocument.spreadsheetml.sheet".

Definition a_session : Drive := mkDrive (mkCredentials "token" false).

(** A folder [R] holding two files and a folder [S], which holds three. *)
Definition tree_listing (q : string) : Reply (list DriveFile) :=
  if String.eqb q folders_query then
    Ok [ mkDriveFile "Rapports" "R" folder_mime None;
         mkDriveFile "Sub" "S" folder_mime None ]
  else if String.eqb q (children_query "R") then
    Ok [ mkDriveFile "tx_curr_2020.xlsx" "f1" xlsx_mime (Some "https://dl/f1");
         mkDriveFile "Sub" "S" folder_mime None;
         mkDriveFile "notes.txt" "f2" "text/plain" (Some "https://dl/f2") ]
  else if String.eqb q (children_query "S") then
    Ok [ mkDriveFile "TX_CURR_2021.xlsx" "f3" xlsx_mime (Some "https://dl/f3");
         mkDriveFile "DATA.XLSX" "f4" xlsx_mime (Some "https://dl/f4");
         mkDriveFile "tx_curr.xlsx" "f5" xlsx_mime None ]
  else Ok [].

(** A folder [L] that lists itself. *)
Definition loop_listing (q : string) : Reply (list DriveFile) :=
  if String.eqb q (children_query "L") then
    Ok [ mkDriveFile "again" "L" folder_mime None ]
  else Ok [].

(** A folder [E] without any matching file. *)
Definition bare_listing (q : string) : Reply (list DriveFile) :=
  if String.eqb q (children_query "E") then
    Ok [ mkDriveFile "readme.md" "r" "text/markdown" (Some "https://dl/r") ]
  else Ok [].

(** A network that answers every request with one sheet of bytes, and one
    that is down. *)
Definition net_up (_ : Trace) (url : string) : Reply Response :=
  Ok (mkResponse ("sheet:" +++ url)).

Definition net_down (_ : Trace) (_ : string) : Reply Response :=
  Fails (mkExn "ConnectionError" "unreachable").

(** A parser that reads every body as a one-row sheet with a numeric
    column [n] and a text column [who]. *)
Definition one_row (bytes : string) : Reply DataFrame :=
  Ok {| df_columns := [mkColumn "n" Numeric; mkColumn "who" Other];
        df_index := [0%Z];
        df_rows := [[Some "1"; Some bytes]] |}.

(** The same world once credentials have been saved and are still valid. *)
Definition signed_in (env : Env) : Env :=
  {| os_path_exists := fun _ file => String.eqb file "credentials.json";
     gauth_LoadCredentialsFile := fun _ => Ok (Some (mkCredentials "token" false));
     gauth_LoadClientConfigFile := gauth_LoadClientConfigFile env;
     gauth_LocalWebserverAuth := gauth_LocalWebserverAuth env;
     gauth_SaveCredentialsFile := gauth_SaveCredentialsFile env;
     gauth_Refresh := gauth_Refresh env;
     gauth_Authorize := gauth_Authorize env;
     drive_GetList := drive_GetList env;
     requests_get := requests_get env;
     pd_read_excel := pd_read_excel env;
     pd_common_dtype := pd_common_dtype env;
     str_lower := str_lower env;
     tab_call := tab_call env;
     button_pressed := button_pressed env;
     selectbox_choice := selectbox_choice env;
     text_input_value := text_input_value env;
     radio_choice := radio_choice env;
     session_run_search := session_run_search env |}.

(** A network on which the first file of the tree cannot be reached. *)
Definition net_flaky (_ : Trace) (url : string) : Reply Response :=
  if String.eqb url "https://dl/f1"
  then Fails (mkExn "ConnectionError" "unreachable")
  else Ok (mkResponse ("sheet:" +++ url)).

Definition tree_world : Env := world tree_listing net_up one_row.
Definition flaky_world : Env := world tree_listing net_flaky one_row.
Definition loop_world : Env := world loop_listing net_up one_row.
Definition bare_world : Env := world bare_listing net_up one_row.
Definition offline_world : Env := world tree_listing net_down one_row.

(* ------------------------------------------------------------------ *)
(** * The download loop, step by step *)
(* ------------------------------------------------------------------ *)

(** The headers [load_excel_files] sends with every request. *)
Definition bearer (drive : Drive) : list (string * string) :=
  [("Authorization", "Bearer " +++ access_token (auth_credentials drive))].

(** The body of the [for] loop of [load_excel_files]. *)
Definition load_excel_step (env : Env) (drive : Drive)
    (file_info : FoundFile) (dfs : list DataFrame) : M (list DataFrame) :=
  if PyStr.falsy (download_url file_info) then
    emit (St Page Warning
            ("⚠️ Impossible de télécharger " +++ name file_info));;
    ret dfs
  else
    let url := match download_url file_info with Some u => u | None => "" end in
    try_except
      (response <- call (HttpGet url (bearer drive))
                     (fun h => requests_get env h url (bearer drive));;
       df <- call (PdReadExcel (content response))
               (fun _ => pd_read_excel env (content response));;
       ret (dfs ++ [df]))
      (fun e =>
         emit (St Page Warning
                 ("⚠️ Échec du chargement de " +++ name file_info
                  +++ " : " +++ exn_msg e));;
         ret dfs).

(** The two warnings of the loop. *)
Definition cannot_download (file_info : FoundFile) : Event :=
  St Page Warning ("⚠️ Impossible de télécharger " +++ name file_info).

Definition loading_failed (file_info : FoundFile) (e : Exn) : Event :=
  St Page Warning
    ("⚠️ Échec du chargement de " +++ name file_info +++ " : " +++ exn_msg e).

(** The download as the specification words it, file after file.
    [Sequential env drive h files dfs es]: started after the history [h],
    the files [files] give the frames [dfs] and the events [es]. A file
    without URL is not requested and gets a warning; a file with a URL is
    requested once; when the request or the parse raises, the file gets a
    warning with the text of the exception and gives no frame; else it
    gives the frame parsed from the content of the response. In every
    case the files that follow are taken next. *)
Inductive Sequential (env : Env) (drive : Drive)
    : Trace -> list FoundFile -> list DataFrame -> Trace -> Prop :=
| Sequential_done h :
    Sequential env drive h [] [] []
| Sequential_no_url h file_info files dfs es :
    PyStr.falsy (download_url file_info) = true ->
    Sequential env drive (h ++ [cannot_download file_info]) files dfs es ->
    Sequential env drive h (file_info :: files) dfs
      (cannot_download file_info :: es)
| Sequential_request_fails h file_info url e files dfs es :
    download_url file_info = Some url -> url <> "" ->
    requests_get env h url (bearer drive) = Fails e ->
    Sequential env drive
      (h ++ [HttpGet url (bearer drive); loading_failed file_info e])
      files dfs es ->
    Sequential env drive h (file_info :: files) dfs
      (HttpGet url (bearer drive) :: loading_failed file_info e :: es)
| Sequential_parse_fails h file_info url response e files dfs es :
    download_url file_info = Some url -> url <> "" ->
    requests_get env h url (bearer drive) = Ok response ->
    pd_read_excel env (content response) = Fails e ->
    Sequential env drive
      (h ++ [HttpGet url (bearer drive); PdReadExcel (content response);
             loading_failed file_info e])
      files dfs es ->
    Sequential env drive h (file_info :: files) dfs
      (HttpGet url (bearer drive) :: PdReadExcel (content response)
       :: loading_failed file_info e :: es)
| Sequential_loaded h file_info url response df files dfs es :
    download_url file_info = Some url -> url <> "" ->
    requests_get env h url (bearer drive) = Ok response ->
    pd_read_excel env (content response) = Ok df ->
    Sequential env drive
      (h ++ [HttpGet url (bearer drive); PdReadExcel (content response)])
      files dfs es ->
    Sequential env drive h (file_info :: files) (df :: dfs)
      (HttpGet url (bearer drive) :: PdReadExcel (content response) :: es).

(* ------------------------------------------------------------------ *)
(** * [load_data], step by step *)
(* ------------------------------------------------------------------ *)

Definition search_spinner : string := "🔎 Recherche des fichiers...".
Definition download_spinner : string := "📥 Téléchargement des fichiers...".

(** The history when [load_data], started after [h], reaches the call of
    [load_excel_files]: the search has run inside its spinner and the
    second spinner is shown. *)
Definition download_history (limit : nat) (env : Env) (drive : Drive)
    (folder_id keyword extension : string) (h : Trace) : Trace :=
  h ++ events (with_spinner search_spinner
                 (find_files limit env drive folder_id keyword extension)) h
    ++ [StSpinner download_spinner].

(** The exception [pd.concat] raises on an empty list. *)
Definition no_objects : Exn := mkExn "ValueError" "No objects to concatenate".


(** What the search for [tx_curr] finds in [tree_world], and the frames
    the download gives. *)
Definition tree_found : list FoundFile :=
  [ mkFoundFile "tx_curr_2020.xlsx" "/tx_curr_2020.xlsx" "f1" (Some "https://dl/f1");
    mkFoundFile "TX_CURR_2021.xlsx" "/Sub/TX_CURR_2021.xlsx" "f3" (Some "https://dl/f3");
    mkFoundFile "tx_curr.xlsx" "/Sub/tx_curr.xlsx" "f5" None ].

Definition tree_frames : list DataFrame :=
  [ mkDataFrame [mkColumn "n" Numeric; mkColumn "who" Other] [0%Z]
      [[Some "1"; Some "sheet:https://dl/f1"]];
    mkDataFrame [mkColumn "n" Numeric; mkColumn "who" Other] [0%Z]
      [[Some "1"; Some "sheet:https://dl/f3"]] ].

Definition tree_dataset : DataFrame :=
  mkDataFrame [mkColumn "n" Numeric; mkColumn "who" Other] [0%Z; 1%Z]
    [ [Some "1"; Some "sheet:https://dl/f1"];
      [Some "1"; Some "sheet:https://dl/f3"] ].


(** Three folders of an account, two of them titled [Data]. *)
Definition twin_folders : list DriveFile :=
  [ mkDriveFile "Data" "id-old" folder_mime None;
    mkDriveFile "Archive" "id-arch" folder_mime None;
    mkDriveFile "Data" "id-new" folder_mime None ].

Definition twin_world : Env :=
  world (fun q => if String.eqb q folders_query then Ok twin_folders else Ok [])
    net_up one_row.

(** The last entry of a listing that bears a title. *)
Definition last_titled (k : string) (file_list : list DriveFile)
    : option DriveFile :=
  find (fun x => String.eqb (title x) k) (rev file_list).


(** What a failed [authenticate_drive] emits when no file is there. *)
Definition nothing_saved_events : Trace :=
  [ OsPathExists "credentials.json";
    OsPathExists "client_secrets.json";
    St Sidebar Error "❌ client_secrets.json manquant." ].


(* ------------------------------------------------------------------ *)
(** * The plotting loop, column by column *)
(* ------------------------------------------------------------------ *)

(** What the loop of the analysis tab emits for a column it visits, when
    the calls that plot answer. *)
Definition plot_or_warn (df : DataFrame) (col : string) : Trace :=
  if Pd.is_numeric_dtype_at df col
  then [PltSubplots; SnsHistplot col; SnsBoxplot col; StPyplot col]
  else [St Page Warning (not_numeric_warning col)].

(** The sentence of the specification on columns that are not numeric,
    read on the analysis tab: each of them gets the warning. A column is
    not numeric when its dtype is not, as [is_numeric_dtype] has it. *)
Definition warns_every_non_numeric (env : Env) (df : DataFrame) (h : Trace)
    : Prop :=
  forall c,
    In c (df_columns df) -> Pd.is_numeric_dtype (col_dtype c) = false ->
    In (St Page Warning (not_numeric_warning (col_label c)))
       (events (analysis_tab env (Some df)) h).

(** An event of the loop over the columns [cols]: a call that plots one
    of them that passes the dtype check, or the warning for one of them
    that fails it. *)
Definition column_event (df : DataFrame) (cols : list string) (e : Event)
    : Prop :=
  exists col,
    In col cols /\
    ((Pd.is_numeric_dtype_at df col = true /\
      (e = PltSubplots \/ e = SnsHistplot col \/ e = SnsBoxplot col
       \/ e = StPyplot col)) \/
     (Pd.is_numeric_dtype_at df col = false /\
      e = St Page Warning (not_numeric_warning col))).

(** What the analysis tab emits on a dataset that is not empty, when its
    calls answer. *)
Definition analysis_events (df : DataFrame) : Trace :=
  St Page Markdown "### 📈 Statistiques descriptives"
  :: StWriteDescribe df
  :: match Pd.numeric_columns df with
     | [] => [St Page Info "ℹ️ Aucune variable numérique à visualiser."]
     | cols =>
         St Page Markdown "### 📊 Distribution des variables numériques"
         :: flat_map (plot_or_warn df) cols
     end.

(** A dataset with a count, a duration and a name. *)
Definition timed_dataset : DataFrame :=
  mkDataFrame
    [mkColumn "n" Numeric; mkColumn "wait" Timedelta; mkColumn "who" Other]
    [0%Z]
    [[Some "1"; Some "0 days 00:05:00"; Some "a"]].


(* ------------------------------------------------------------------ *)
(** * Variations of a world *)
(* ------------------------------------------------------------------ *)

(** The world [env] with which files exist replaced. *)
Definition with_files (x : Trace -> string -> bool) (env : Env) : Env :=
  {| os_path_exists := x;
     gauth_LoadCredentialsFile := gauth_LoadCredentialsFile env;
     gauth_LoadClientConfigFile := gauth_LoadClientConfigFile env;
     gauth_LocalWebserverAuth := gauth_LocalWebserverAuth env;
     gauth_SaveCredentialsFile := gauth_SaveCredentialsFile env;
     gauth_Refresh := gauth_Refresh env;
     gauth_Authorize := gauth_Authorize env;
     drive_GetList := drive_GetList env;
     requests_get := requests_get env;
     pd_read_excel := pd_read_excel env;
     pd_common_dtype := pd_common_dtype env;
     str_lower := str_lower env;
     tab_call := tab_call env;
     button_pressed := button_pressed env;
     selectbox_choice := selectbox_choice env;
     text_input_value := text_input_value env;
     radio_choice := radio_choice env;
     session_run_search := session_run_search env |}.

(** The world [env] with what loading the saved credentials gives replaced. *)
Definition with_saved_credentials (x : Trace -> Reply (option Credentials)) (env : Env) : Env :=
  {| os_path_exists := os_path_exists env;
     gauth_LoadCredentialsFile := x;
     gauth_LoadClientConfigFile := gauth_LoadClientConfigFile env;
     gauth_LocalWebserverAuth := gauth_LocalWebserverAuth env;
     gauth_SaveCredentialsFile := gauth_SaveCredentialsFile env;
     gauth_Refresh := gauth_Refresh env;
     gauth_Authorize := gauth_Authorize env;
     drive_GetList := drive_GetList env;
     requests_get := requests_get env;
     pd_read_excel := pd_read_excel env;
     pd_common_dtype := pd_common_dtype env;
     str_lower := str_lower env;
     tab_call := tab_call env;
     button_pressed := button_pressed env;
     selectbox_choice := selectbox_choice env;
     text_input_value := text_input_value env;
     radio_choice := radio_choice env;
     session_run_search := session_run_search env |}.

(** The world [env] with the outcome of the browser flow replaced. *)
Definition with_browser_flow (x : Trace -> Reply Credentials) (env : Env) : Env :=
  {| os_path_exists := os_path_exists env;
     gauth_LoadCredentialsFile := gauth_LoadCredentialsFile env;
     gauth_LoadClientConfigFile := gauth_LoadClientConfigFile env;
     gauth_LocalWebserverAuth := x;
     gauth_SaveCredentialsFile := gauth_SaveCredentialsFile env;
     gauth_Refresh := gauth_Refresh env;
     gauth_Authorize := gauth_Authorize env;
     drive_GetList := drive_GetList env;
     requests_get := requests_get env;
     pd_read_excel := pd_read_excel env;
     pd_common_dtype := pd_common_dtype env;
     str_lower := str_lower env;
     tab_call := tab_call env;
     button_pressed := button_pressed env;
     selectbox_choice := selectbox_choice env;
     text_input_value := text_input_value env;
     radio_choice := radio_choice env;
     session_run_search := session_run_search env |}.

(** The world [env] with the outcome of a token refresh replaced. *)
Definition with_refresh (x : Trace -> Credentials -> Reply Credentials) (env : Env) : Env :=
  {| os_path_exists := os_path_exists env;
     gauth_LoadCredentialsFile := gauth_LoadCredentialsFile env;
     gauth_LoadClientConfigFile := gauth_LoadClientConfigFile env;
     gauth_LocalWebserverAuth := gauth_LocalWebserverAuth env;
     gauth_SaveCredentialsFile := gauth_SaveCredentialsFile env;
     gauth_Refresh := x;
     gauth_Authorize := gauth_Authorize env;
     drive_GetList := drive_GetList env;
     requests_get := requests_get env;
     pd_read_excel := pd_read_excel env;
     pd_common_dtype := pd_common_dtype env;
     str_lower := str_lower env;
     tab_call := tab_call env;
     button_pressed := button_pressed env;
     selectbox_choice := selectbox_choice env;
     text_input_value := text_input_value env;
     radio_choice := radio_choice env;
     session_run_search := session_run_search env |}.

(** The world [env] with the outcome of the authorization replaced. *)
Definition with_authorize (x : Trace -> Credentials -> Reply unit) (env : Env) : Env :=
  {| os_path_exists := os_path_exists env;
     gauth_LoadCredentialsFile := gauth_LoadCredentialsFile env;
     gauth_LoadClientConfigFile := gauth_LoadClientConfigFile env;
     gauth_LocalWebserverAuth := gauth_LocalWebserverAuth env;
     gauth_SaveCredentialsFile := gauth_SaveCredentialsFile env;
     gauth_Refresh := gauth_Refresh env;
     gauth_Authorize := x;
     drive_GetList := drive_GetList env;
     requests_get := requests_get env;
     pd_read_excel := pd_read_excel env;
     pd_common_dtype := pd_common_dtype env;
     str_lower := str_lower env;
     tab_call := tab_call env;
     button_pressed := button_pressed env;
     selectbox_choice := selectbox_choice env;
     text_input_value := text_input_value env;
     radio_choice := radio_choice env;
     session_run_search := session_run_search env |}.

(** The world [env] with the listings of the account replaced. *)
Definition with_listing (x : string -> Reply (list DriveFile)) (env : Env) : Env :=
  {| os_path_exists := os_path_exists env;
     gauth_LoadCredentialsFile := gauth_LoadCredentialsFile env;
     gauth_LoadClientConfigFile := gauth_LoadClientConfigFile env;
     gauth_LocalWebserverAuth := gauth_LocalWebserverAuth env;
     gauth_SaveCredentialsFile := gauth_SaveCredentialsFile env;
     gauth_Refresh := gauth_Refresh env;
     gauth_Authorize := gauth_Authorize env;
     drive_GetList := x;
     requests_get := requests_get env;
     pd_read_excel := pd_read_excel env;
     pd_common_dtype := pd_common_dtype env;
     str_lower := str_lower env;
     tab_call := tab_call env;
     button_pressed := button_pressed env;
     selectbox_choice := selectbox_choice env;
     text_input_value := text_input_value env;
     radio_choice := radio_choice env;
     session_run_search := session_run_search env |}.

(** The world [env] with the buttons pressed replaced. *)
Definition with_buttons (x : Place -> string -> bool) (env : Env) : Env :=
  {| os_path_exists := os_path_exists env;
     gauth_LoadCredentialsFile := gauth_LoadCredentialsFile env;
     gauth_LoadClientConfigFile := gauth_LoadClientConfigFile env;
     gauth_LocalWebserverAuth := gauth_LocalWebserverAuth env;
     gauth_SaveCredentialsFile := gauth_SaveCredentialsFile env;
     gauth_Refresh := gauth_Refresh env;
     gauth_Authorize := gauth_Authorize env;
     drive_GetList := drive_GetList env;
     requests_get := requests_get env;
     pd_read_excel := pd_read_excel env;
     pd_common_dtype := pd_common_dtype env;
     str_lower := str_lower env;
     tab_call := tab_call env;
     button_pressed := x;
     selectbox_choice := selectbox_choice env;
     text_input_value := text_input_value env;
     radio_choice := radio_choice env;
     session_run_search := session_run_search env |}.

(** The world [env] with the flag kept in the session state replaced. *)
Definition with_run_search (x : bool) (env : Env) : Env :=
  {| os_path_exists := os_path_exists env;
     gauth_LoadCredentialsFile := gauth_LoadCredentialsFile env;
     gauth_LoadClientConfigFile := gauth_LoadClientConfigFile env;
     gauth_LocalWebserverAuth := gauth_LocalWebserverAuth env;
     gauth_SaveCredentialsFile := gauth_SaveCredentialsFile env;
     gauth_Refresh := gauth_Refresh env;
     gauth_Authorize := gauth_Authorize env;
     drive_GetList := drive_GetList env;
     requests_get := requests_get env;
     pd_read_excel := pd_read_excel env;
     pd_common_dtype := pd_common_dtype env;
     str_lower := str_lower env;
     tab_call := tab_call env;
     button_pressed := button_pressed env;
     selectbox_choice := selectbox_choice env;
     text_input_value := text_input_value env;
     radio_choice := radio_choice env;
     session_run_search := x |}.
(** Credentials whose token is out of date, and the ones a refresh gives. *)
Definition stale : Credentials := mkCredentials "old-token" true.
Definition fresh : Credentials := mkCredentials "new-token" false.

(** Saved credentials that are out of date and can be refreshed. *)
Definition expired_world : Env :=
  with_files (fun _ file => String.eqb file "credentials.json")
    (with_saved_credentials (fun _ => Ok (Some stale))
       (with_refresh (fun _ _ => Ok fresh) tree_world)).

(** A credentials file that cannot be read. *)
Definition unreadable_world : Env :=
  with_files (fun _ file => String.eqb file "credentials.json")
    (with_saved_credentials
       (fun _ => Fails (mkExn "InvalidCredentialsError" "bad file")) tree_world).

(** No saved credentials, a client-secrets file, and a browser flow that
    succeeds. *)
Definition first_time_world : Env :=
  with_files (fun _ file => String.eqb file "client_secrets.json")
    (with_browser_flow (fun _ => Ok fresh) tree_world).

(** The same with a browser flow that fails, as in [tree_world]. *)
Definition refused_world : Env :=
  with_files (fun _ file => String.eqb file "client_secrets.json") tree_world.


(* ------------------------------------------------------------------ *)
(** * Outcomes of the search *)
(* ------------------------------------------------------------------ *)

(** [str.lower] on ASCII text, a fact of Python the worlds may be asked
    for: there it lowers the capitals [A] to [Z] and nothing else. *)
Definition lowers_ascii (env : Env) : Prop :=
  forall s, PyStr.is_ascii s = true -> str_lower env s = PyStr.ascii_lower s.

(** The event is the listing of the content of some folder. *)
Definition is_children_listing (e : Event) : Prop :=
  exists folder, e = DriveListFile (children_query folder).

(** The search stopped as it may: it only listed folders, it did not ask
    for a rerun, and an exception it raises is [RecursionError] or the
    answer of the listing it asked for last. *)
Definition listed_only (env : Env) (r : Res (list FoundFile)) (es : Trace)
    : Prop :=
  Forall is_children_listing es /\
  r <> Halt Rerun /\
  forall e, r = Halt (Raised e) ->
    e = recursion_error \/
    exists es' folder,
      es = es' ++ [DriveListFile (children_query folder)] /\
      drive_GetList env (children_query folder) = Fails e.

(** An entry of [found_files] as the search builds them: made from a file
    that some folder lists, that is no folder and passes the title test,
    with a path that begins with a slash and ends with the file's title. *)
Definition from_a_listing (env : Env) (keyword extension : string)
    (ff : FoundFile) : Prop :=
  title_matches env keyword extension (name ff) = true /\
  (exists rest, path ff = "/" +++ rest) /\
  exists folder file_list f parent,
    drive_GetList env (children_query folder) = Ok file_list /\
    In f file_list /\ is_folder f = false /\
    ff = found_entry f (parent +++ "/" +++ title f).

(** The path of a folder on the way: empty at the root, else it begins
    with a slash. *)
Definition rooted (current_path : string) : Prop :=
  current_path = "" \/ exists rest, current_path = "/" +++ rest.



(* ------------------------------------------------------------------ *)
(** * Outcomes of the download *)
(* ------------------------------------------------------------------ *)

(** The contents handed to [pd.read_excel], in order. *)
Definition parses (t : Trace) : list string :=
  flat_map (fun e => match e with PdReadExcel bytes => [bytes] | _ => [] end) t.

(** An event [load_excel_files] may emit for [files_info] in the session
    [drive]: a request to the URL of one of the files, with the
    authorization header of the session and no other, a parse, or a
    warning on the page. *)
Definition download_event (drive : Drive) (files_info : list FoundFile)
    (e : Event) : Prop :=
  match e with
  | HttpGet url headers =>
      headers = [("Authorization", "Bearer " +++ access_token (auth_credentials drive))]
      /\ In url (wanted_urls files_info)
  | PdReadExcel _ => True
  | St Page Warning _ => True
  | _ => False
  end.

(** The warning of a file that could not be loaded when every request
    fails with [e]. *)
Definition failure_warning (e : Exn) (file_info : FoundFile) : string :=
  if PyStr.falsy (download_url file_info)
  then "⚠️ Impossible de télécharger " +++ name file_info
  else "⚠️ Échec du chargement de " +++ name file_info +++ " : " +++ exn_msg e.

(** The files of a list that have no usable download URL. *)
Definition without_url (files_info : list FoundFile) : list FoundFile :=
  filter (fun file_info => PyStr.falsy (download_url file_info)) files_info.


(* ------------------------------------------------------------------ *)
(** * The run of [main], part by part *)
(* ------------------------------------------------------------------ *)

(** A listing of the Drive account. *)
Definition is_listing_event (e : Event) : bool :=
  match e with
  | DriveListFile _ => true
  | _ => false
  end.

(** An event that neither lists the account nor fetches or builds data. *)
Definition is_quiet (e : Event) : Prop :=
  is_listing_event e = false /\ is_data_event e = false.

Definition search_button : string := "🔎 Lancer la recherche".
Definition folder_box : string := "📁 Sélectionnez le dossier racine".
Definition keyword_box : string := "🔍 Mot-clé à chercher".

(** The title the folder select box returns over a dictionary. *)
Definition selected_folder_of (env : Env) (root_folders : Dict.t) : string :=
  nth (selectbox_choice env Sidebar folder_box) (Dict.keys root_folders)
    (hd "" (Dict.keys root_folders)).

(** The keyword the text input returns: what was typed, [tx_curr] when
    nothing was. *)
Definition keyword_of (env : Env) : string :=
  match text_input_value env Sidebar keyword_box with
  | Some s => s
  | None => "tx_curr"
  end.

(** What [main] emits down to the search button, once a session exists
    ([es_auth] are the events of [authenticate_drive]) and the account has
    folders. *)
Definition main_prelude (es_auth : Trace) (root_folders : Dict.t) : Trace :=
  St Sidebar Header "🔐 Authentification"
  :: es_auth
  ++ [ St Sidebar Success "✅ Connecté à Google Drive";
       StSpinner "📂 Chargement des dossiers principaux...";
       DriveListFile folders_query;
       StSpinnerDone;
       StSelectbox Sidebar folder_box (Dict.keys root_folders);
       StTextInput Sidebar keyword_box "tx_curr";
       StSelectbox Sidebar "📄 Extension des fichiers" [".xlsx"];
       StButton Sidebar search_button ].


(** An account without any folder, and one that fails to list them. *)
Definition empty_world : Env := signed_in (with_listing (fun _ => Ok []) tree_world).

Definition failing_world : Env :=
  signed_in
    (with_listing (fun _ => Fails (mkExn "ApiRequestError" "backend error"))
       tree_world).

(** [tree_world] signed in, with the search button pressed. *)
Definition pressed_world : Env :=
  with_buttons (fun _ label => String.eqb label search_button)
    (signed_in tree_world).


(* ------------------------------------------------------------------ *)
(** * The trace of [authenticate_drive] *)
(* ------------------------------------------------------------------ *)

(** The events before the browser flow, and those after the credentials
    are saved. *)
Fixpoint until_flow (t : Trace) : Trace :=
  match t with
  | [] => []
  | GAuth LocalWebserverAuth :: _ => []
  | e :: t' => e :: until_flow t'
  end.

Fixpoint after_save (t : Trace) : Trace :=
  match t with
  | [] => []
  | GAuth SaveCredentialsFile :: t' => t'
  | _ :: t' => after_save t'
  end.

(** The error shown when the first connection fails. *)
Definition auth_error (e : Exn) : Event :=
  St Page Error ("❌ Erreur lors de l'authentification : " +++ exn_msg e).

(** What [authenticate_drive] emits before the first connection: it has
    looked for the two files. *)
Definition looked_for_files : Trace :=
  [OsPathExists "credentials.json"; OsPathExists "client_secrets.json"].




(** A world whose tabs cannot describe the data. *)
Definition with_tab_call (x : Trace -> Event -> Reply unit) (env : Env) : Env :=
  {| os_path_exists := os_path_exists env;
     gauth_LoadCredentialsFile := gauth_LoadCredentialsFile env;
     gauth_LoadClientConfigFile := gauth_LoadClientConfigFile env;
     gauth_LocalWebserverAuth := gauth_LocalWebserverAuth env;
     gauth_SaveCredentialsFile := gauth_SaveCredentialsFile env;
     gauth_Refresh := gauth_Refresh env;
     gauth_Authorize := gauth_Authorize env;
     drive_GetList := drive_GetList env;
     requests_get := requests_get env;
     pd_read_excel := pd_read_excel env;
     pd_common_dtype := pd_common_dtype env;
     str_lower := str_lower env;
     tab_call := x;
     button_pressed := button_pressed env;
     selectbox_choice := selectbox_choice env;
     text_input_value := text_input_value env;
     radio_choice := radio_choice env;
     session_run_search := session_run_search env |}.

Definition describe_fails (_ : Trace) (e : Event) : Reply unit :=
  match e with
  | StWriteDescribe _ => Fails (mkExn "ValueError" "cannot describe")
  | _ => Ok tt
  end.

Definition undescribed_world : Env := with_tab_call describe_fails tree_world.

(* ================================================================== *)
(** * Properties *)
(* ================================================================== *)

(** ** Strings *)

Lemma startswith_iff hay needle :
  PyStr.startswith hay needle = true <-> exists rest, hay = needle +++ rest.
Proof.
  revert hay; induction needle as [|a needle IH]; intros hay; simpl.
  - split; [intros _; now exists hay | reflexivity].
  - destruct hay as [|b hay].
    + split; [discriminate | intros [rest H]; discriminate].
    + rewrite andb_true_iff, Ascii.eqb_eq, IH. split.
      * intros [-> [rest ->]]. now exists rest.
      * intros [rest H]. injection H as -> ->. split; [reflexivity | now exists rest].
Qed.

Lemma contains_iff needle hay :
  PyStr.contains needle hay = true <->
  exists before after, hay = before +++ needle +++ after.
Proof.
  induction hay as [|b hay IH]; simpl.
  - rewrite orb_false_r, startswith_iff. split.
    + intros [rest H]. now exists "", rest.
    + intros [before [after H]]. destruct before; simpl in H.
      * now exists after.
      * discriminate.
  - rewrite orb_true_iff, IH, (startswith_iff (String b hay)). split.
    + intros [[rest H] | [before [after H]]].
      * now exists "", rest.
      * exists (String b before), after. simpl. now rewrite H.
    + intros [before [after H]]. destruct before as [|c before]; simpl in H.
      * left. now exists after.
      * right. injection H as _ H. now exists before, after.
Qed.

Lemma endswith_iff s suffix :
  PyStr.endswith s suffix = true <-> exists before, s = before +++ suffix.
Proof.
  induction s as [|b s IH]; cbn [PyStr.endswith].
  - rewrite orb_false_r, String.eqb_eq. split.
    + intros <-. now exists "".
    + intros [before H]. destruct before; simpl in H; [now symmetry | discriminate].
  - rewrite orb_true_iff, IH, String.eqb_eq. split.
    + intros [H | [before H]].
      * now exists "".
      * exists (String b before). simpl. now rewrite H.
    + intros [before H]. destruct before as [|c before]; simpl in H.
      * now left.
      * right. injection H as _ H. now exists before.
Qed.

Lemma contains_self s : PyStr.contains s s = true.
Proof.
  apply contains_iff. exists "", "". simpl.
  induction s as [|c s IH]; simpl; [reflexivity | now rewrite <- IH].
Qed.

Lemma contains_empty t : PyStr.contains "" t = true.
Proof. destruct t; reflexivity. Qed.

Lemma endswith_empty t : PyStr.endswith t "" = true.
Proof.
  apply endswith_iff. exists t. induction t as [|c t IH]; simpl; [reflexivity|].
  now rewrite <- IH.
Qed.

Lemma append_inv_head p a b : p +++ a = p +++ b -> a = b.
Proof.
  induction p as [|c p IH]; simpl; intros H; [exact H|].
  injection H as H. now apply IH.
Qed.

Lemma length_append a b :
  String.length (a +++ b) = String.length a + String.length b.
Proof.
  induction a as [|c a IH]; simpl; [reflexivity | now rewrite IH].
Qed.

Lemma append_inv_tail q : forall a b, a +++ q = b +++ q -> a = b.
Proof.
  induction a as [|c a IH]; intros b H.
  - destruct b as [|d b]; [reflexivity|]. exfalso.
    apply (f_equal String.length) in H. simpl in H.
    rewrite length_append in H. lia.
  - destruct b as [|d b].
    + exfalso. apply (f_equal String.length) in H. simpl in H.
      rewrite length_append in H. lia.
    + simpl in H. injection H as -> H. f_equal. now apply IH.
Qed.

(** ** Running computations *)

Lemma bind_val {A B} (m : M A) (k : A -> M B) h {a es r es'} :
  m h = (Val a, es) -> k a (h ++ es) = (r, es') ->
  bind m k h = (r, es ++ es').
Proof.
  intros Hm Hk. unfold bind. now rewrite Hm, Hk.
Qed.

Lemma bind_halt {A B} (m : M A) (k : A -> M B) h s es :
  m h = (Halt s, es) -> bind m k h = (Halt s, es).
Proof.
  intros Hm. unfold bind. now rewrite Hm.
Qed.

Lemma bind_run {A B} (m : M A) (k : A -> M B) h :
  bind m k h
  = match m h with
    | (Val a, es) => (fst (k a (h ++ es)), es ++ snd (k a (h ++ es)))
    | (Halt s, es) => (Halt s, es)
    end.
Proof.
  unfold bind. destruct (m h) as [[a|s] es]; [|reflexivity].
  now destruct (k a (h ++ es)).
Qed.

Lemma bind_events_forall {A B} (P : Event -> Prop) (m : M A) (k : A -> M B) h :
  Forall P (snd (m h)) ->
  (forall a es, m h = (Val a, es) -> Forall P (snd (k a (h ++ es)))) ->
  Forall P (snd (bind m k h)).
Proof.
  intros Hm Hk. rewrite bind_run. destruct (m h) as [[a|s] es] eqn:E; simpl in *.
  - apply Forall_app. split; [assumption | now apply Hk].
  - assumption.
Qed.

Lemma for_each_app {A S} (l1 l2 : list A) (body : A -> S -> M S) s h s1 es1 :
  for_each l1 body s h = (Val s1, es1) ->
  for_each (l1 ++ l2) body s h =
    (let (r, es2) := for_each l2 body s1 (h ++ es1) in (r, es1 ++ es2)).
Proof.
  revert s h s1 es1. induction l1 as [|x l1 IH]; intros s h s1 es1 H; simpl in *.
  - unfold ret in H. injection H as <- <-. rewrite app_nil_r.
    now destruct (for_each l2 body s h).
  - unfold bind in *. destruct (body x s h) as [[a|st] es] eqn:Hb.
    + destruct (for_each l1 body a (h ++ es)) as [r1 e1] eqn:Hl.
      injection H as -> <-. rewrite (IH _ _ _ _ Hl).
      rewrite <- !app_assoc.
      destruct (for_each l2 body s1 ((h ++ es) ++ e1)) as [r2 e2] eqn:H2.
      rewrite <- app_assoc in H2. rewrite H2. now rewrite app_assoc.
    + discriminate.
Qed.

(** ** The search follows the depth-first relation *)

Section SearchFacts.

Variable env : Env.
Variable drive : Drive.
Variables keyword extension : string.

Lemma recursive_search_S limit folder p found :
  recursive_search (S limit) env drive keyword extension folder p found =
  bind (ListFile_GetList env drive (children_query folder))
       (fun file_list =>
          for_each file_list (search_entry limit env drive keyword extension p) found).
Proof. reflexivity. Qed.

Lemma FolderTree_mono folder n m :
  FolderTree env folder n -> n <= m -> FolderTree env folder m.
Proof.
  intros H. revert m. induction H as [folder l d Hl _ IH]; intros m Hm.
  destruct m as [|m]; [lia|].
  apply FolderTree_intro with l; [assumption|].
  intros f Hf Hd. apply IH; [assumption | assumption | lia].
Qed.

(** The loop over a listing follows [DepthFirst], given that the recursive
    call does so for trees of depth [n]. *)
Lemma search_listing n :
  (forall folder p, FolderTree env folder n ->
     exists out ord l,
       drive_GetList env (children_query folder) = Ok l /\
       DepthFirst env keyword extension l p out ord /\
       forall limit, n <= limit -> forall found h,
         recursive_search limit env drive keyword extension folder p found h
         = (Val (found ++ out), listings (folder :: ord))) ->
  forall l p,
    (forall f, In f l -> is_folder f = true -> FolderTree env (id f) n) ->
    exists out ord,
      DepthFirst env keyword extension l p out ord /\
      forall limit, n <= limit -> forall found h,
        for_each l (search_entry limit env drive keyword extension p) found h
        = (Val (found ++ out), listings ord).
Proof.
  intros Hrec l p. induction l as [|f rest IH]; intros Hsub.
  - exists [], []. split; [constructor|].
    intros limit _ found h. simpl. unfold ret. now rewrite app_nil_r.
  - destruct IH as (out2 & ord2 & Hdf2 & Hrun2).
    { intros g Hg. apply Hsub. now right. }
    destruct (is_folder f) eqn:Hf.
    + destruct (Hrec (id f) (p +++ "/" +++ title f))
        as (out1 & ord1 & lf & Hlf & Hdf1 & Hrun1).
      { apply Hsub; [now left | assumption]. }
      exists (out1 ++ out2), (id f :: ord1 ++ ord2). split.
      * now apply DepthFirst_folder with lf.
      * intros limit Hlimit found h. simpl for_each.
        rewrite (bind_val _ _ _ (es' := listings ord2)
                   (r := Val ((found ++ out1) ++ out2))
                   (a := found ++ out1) (es := listings (id f :: ord1))).
        -- unfold listings. simpl. now rewrite map_app, app_assoc.
        -- unfold search_entry. rewrite Hf. now apply Hrun1.
        -- now apply Hrun2.
    + exists (selected env keyword extension f p ++ out2), ord2. split.
      * now apply DepthFirst_file.
      * intros limit Hlimit found h. simpl for_each.
        rewrite (bind_val _ _ _ (es' := listings ord2)
                   (r := Val ((found ++ selected env keyword extension f p) ++ out2))
                   (a := found ++ selected env keyword extension f p) (es := [])).
        -- now rewrite app_assoc.
        -- unfold search_entry, selected. rewrite Hf.
           destruct (title_matches env keyword extension (title f)); unfold ret;
             [reflexivity | now rewrite app_nil_r].
        -- now apply Hrun2.
Qed.

(** On a tree of depth [n] the search returns whenever the limit is at
    least [n], with the result and the listings of [DepthFirst]. *)
Lemma search_folder n :
  forall folder p, FolderTree env folder n ->
    exists out ord l,
      drive_GetList env (children_query folder) = Ok l /\
      DepthFirst env keyword extension l p out ord /\
      forall limit, n <= limit -> forall found h,
        recursive_search limit env drive keyword extension folder p found h
        = (Val (found ++ out), listings (folder :: ord)).
Proof.
  induction n as [|n IH]; intros folder p Htree.
  - inversion Htree.
  - inversion Htree as [x l d Hl Hsub Hx Hd]; subst.
    destruct (search_listing n IH l p Hsub) as (out & ord & Hdf & Hrun).
    exists out, ord, l. split; [assumption|]. split; [assumption|].
    intros limit Hlimit found h. destruct limit as [|limit]; [lia|].
    rewrite recursive_search_S.
    rewrite (bind_val _ _ _ (es' := listings ord) (r := Val (found ++ out))
               (a := l) (es := [DriveListFile (children_query folder)])).
    + reflexivity.
    + unfold ListFile_GetList, call. now rewrite Hl.
    + apply Hrun. lia.
Qed.

Lemma InSubtree_Below folder p l f fp :
  drive_GetList env (children_query folder) = Ok l ->
  (InSubtree env folder p f fp <-> Below env l p f fp).
Proof.
  intros Hl. split.
  - intros H. inversion H as [x q l' f' Hl' Hin | x q l' g f' fp' Hl' Hin Hg Hsub]; subst;
      rewrite Hl in Hl'; injection Hl' as <-.
    + left. now split.
    + right. now exists g.
  - intros [[Hin ->] | (g & Hin & Hg & Hsub)].
    + now apply InSubtree_child with l.
    + now apply InSubtree_deeper with l g.
Qed.

Lemma Below_cons g rest p f fp :
  Below env (g :: rest) p f fp <->
  (f = g /\ fp = p +++ "/" +++ title f) \/
  (is_folder g = true /\ InSubtree env (id g) (p +++ "/" +++ title g) f fp) \/
  Below env rest p f fp.
Proof.
  unfold Below. simpl. split.
  - intros [[[<- | Hin] ->] | (g' & [<- | Hin] & Hg & Hsub)].
    + now left.
    + right; right; left. now split.
    + right; left. now split.
    + right; right; right. now exists g'.
  - intros [[-> ->] | [[Hg Hsub] | [[Hin ->] | (g' & Hin & Hg & Hsub)]]].
    + left. split; [now left | reflexivity].
    + right. exists g. split; [now left | now split].
    + left. split; [now right | reflexivity].
    + right. exists g'. split; [now right | now split].
Qed.

(** The entries found are those of the non-folder files below the listing
    whose title passes the test, each with its path. *)
Lemma DepthFirst_found l p out ord :
  DepthFirst env keyword extension l p out ord ->
  forall ff,
    In ff out <->
    exists f fp, Below env l p f fp /\ is_folder f = false /\
                 title_matches env keyword extension (title f) = true /\
                 ff = found_entry f fp.
Proof.
  induction 1 as [p | g rest p l out1 ord1 out2 ord2 Hg Hl Hdf1 IH1 Hdf2 IH2
                    | f rest p out ord Hf Hdf IH]; intros ff.
  - split; [intros [] | intros (f & fp & [[[] _] | (g & [] & _)] & _)].
  - rewrite in_app_iff, IH1, IH2. split.
    + intros [(f & fp & Hb & Hrest) | (f & fp & Hb & Hrest)];
        exists f, fp; (split; [|exact Hrest]); apply Below_cons.
      * right; left. split; [assumption|]. now apply (InSubtree_Below _ _ _ _ _ Hl).
      * now right; right.
    + intros (f & fp & Hb & Hnf & Hrest). apply Below_cons in Hb.
      destruct Hb as [[-> _] | [[_ Hsub] | Hb]].
      * congruence.
      * left. exists f, fp. split; [|now split].
        now apply (InSubtree_Below _ _ _ _ _ Hl).
      * right. exists f, fp. now split.
  - rewrite in_app_iff, IH. split.
    + intros [Hsel | (f' & fp & Hb & Hrest)].
      * unfold selected in Hsel.
        destruct (title_matches env keyword extension (title f)) eqn:Hm; [|destruct Hsel].
        destruct Hsel as [<- | []].
        exists f, (p +++ "/" +++ title f). split; [|now repeat split].
        apply Below_cons. now left.
      * exists f', fp. split; [|exact Hrest]. apply Below_cons. now right; right.
    + intros (f' & fp & Hb & Hnf & Hm & ->). apply Below_cons in Hb.
      destruct Hb as [[-> ->] | [[Hg _] | Hb]].
      * left. unfold selected. rewrite Hm. now left.
      * congruence.
      * right. exists f', fp. now repeat split.
Qed.

(** The folders listed are the folders below the listing. *)
Lemma DepthFirst_listed l p out ord :
  DepthFirst env keyword extension l p out ord ->
  forall g gp, Below env l p g gp -> is_folder g = true -> In (id g) ord.
Proof.
  induction 1 as [p | g0 rest p l out1 ord1 out2 ord2 Hg Hl Hdf1 IH1 Hdf2 IH2
                    | f rest p out ord Hf Hdf IH]; intros g gp Hb Hfolder.
  - destruct Hb as [[[] _] | (g' & [] & _)].
  - apply Below_cons in Hb. destruct Hb as [[-> _] | [[_ Hsub] | Hb]].
    + now left.
    + right. apply in_or_app. left.
      apply (IH1 g gp); [|assumption]. now apply (InSubtree_Below _ _ _ _ _ Hl).
    + right. apply in_or_app. right. now apply (IH2 g gp).
  - apply Below_cons in Hb. destruct Hb as [[-> _] | [[Hg _] | Hb]].
    + congruence.
    + congruence.
    + now apply (IH g gp).
Qed.

End SearchFacts.

(** ** The title test *)

Lemma title_matches_iff env keyword extension t :
  title_matches env keyword extension t = true <->
  (exists a b, str_lower env t = a +++ str_lower env keyword +++ b) /\
  (exists a, t = a +++ extension).
Proof.
  unfold title_matches.
  now rewrite andb_true_iff, contains_iff, endswith_iff.
Qed.

(** ** What the search may do, whatever the account *)

Lemma listed_only_after env r es0 es :
  Forall is_children_listing es0 -> listed_only env r es ->
  listed_only env r (es0 ++ es).
Proof.
  intros H0 (Hall & Hrerun & Hraise). split; [|split].
  - apply Forall_app. now split.
  - exact Hrerun.
  - intros e He. destruct (Hraise e He) as [Hrec | (es' & folder & -> & Hfails)].
    + now left.
    + right. exists (es0 ++ es'), folder.
      split; [now rewrite app_assoc | exact Hfails].
Qed.

Lemma listed_only_value env (out : list FoundFile) :
  listed_only env (Val out) [].
Proof.
  split; [constructor|]. split; [discriminate|]. intros e He. discriminate He.
Qed.

Lemma for_each_listed_only env (body : DriveFile -> list FoundFile -> M (list FoundFile)) :
  (forall f s h, listed_only env (fst (body f s h)) (snd (body f s h))) ->
  forall l s h,
    listed_only env (fst (for_each l body s h)) (snd (for_each l body s h)).
Proof.
  intros Hbody l. induction l as [|f l IH]; intros s h; simpl.
  - apply listed_only_value.
  - rewrite bind_run. specialize (Hbody f s h).
    destruct (body f s h) as [[a|st] es]; simpl in *; [|exact Hbody].
    apply listed_only_after; [apply Hbody | apply IH].
Qed.

Lemma recursive_search_listed_only limit env drive keyword extension :
  forall folder p found h,
    listed_only env
      (fst (recursive_search limit env drive keyword extension folder p found h))
      (snd (recursive_search limit env drive keyword extension folder p found h)).
Proof.
  induction limit as [|limit IH]; intros folder p found h.
  - simpl. split; [constructor|]. split; [discriminate|].
    intros e He. injection He as <-. now left.
  - rewrite recursive_search_S, bind_run. unfold ListFile_GetList, call.
    destruct (drive_GetList env (children_query folder)) as [l|e] eqn:Hl; simpl.
    + apply (listed_only_after env _ [DriveListFile (children_query folder)]).
      * constructor; [now exists folder | constructor].
      * apply for_each_listed_only. intros f s h'. unfold search_entry.
        destruct (is_folder f); [apply IH|].
        destruct (title_matches env keyword extension (title f));
          apply listed_only_value.
    + split; [|split].
      * constructor; [now exists folder | constructor].
      * discriminate.
      * intros e' He'. injection He' as <-. right. now exists [], folder.
Qed.

(** ** The search returns exactly on the trees the stack has room for *)

Lemma for_each_value_steps {A S} (body : A -> S -> M S) l :
  forall s h s' es,
    for_each l body s h = (Val s', es) ->
    forall x, In x l -> exists s1 h1 s2 es2, body x s1 h1 = (Val s2, es2).
Proof.
  induction l as [|y l IH]; intros s h s' es Hrun x Hx; [destruct Hx|].
  simpl in Hrun. rewrite bind_run in Hrun.
  destruct (body y s h) as [[a|st] es1] eqn:Hb; [|discriminate Hrun].
  destruct Hx as [<- | Hx].
  - now exists s, h, a, es1.
  - destruct (for_each l body a (h ++ es1)) as [r es2] eqn:Hl.
    simpl in Hrun. injection Hrun as -> _.
    apply (IH a (h ++ es1) s' es2 Hl x Hx).
Qed.

Lemma search_returns_tree limit env drive keyword extension :
  forall folder p found h out es,
    recursive_search limit env drive keyword extension folder p found h
    = (Val out, es) ->
    FolderTree env folder limit.
Proof.
  induction limit as [|limit IH]; intros folder p found h out es Hrun.
  - discriminate Hrun.
  - rewrite recursive_search_S, bind_run in Hrun.
    unfold ListFile_GetList, call in Hrun.
    destruct (drive_GetList env (children_query folder)) as [l|e] eqn:Hl;
      [|discriminate Hrun].
    simpl in Hrun.
    destruct (for_each l (search_entry limit env drive keyword extension p) found
                (h ++ [DriveListFile (children_query folder)])) as [r es1] eqn:Hloop.
    simpl in Hrun. injection Hrun as -> _.
    apply FolderTree_intro with l; [exact Hl|].
    intros f Hf Hfolder.
    destruct (for_each_value_steps _ l _ _ _ _ Hloop f Hf)
      as (s1 & h1 & s2 & es2 & Hstep).
    unfold search_entry in Hstep. rewrite Hfolder in Hstep.
    apply (IH _ _ _ _ _ _ Hstep).
Qed.

(** Where every listing answers, the search that does not return has met
    the limit of the stack. *)
Lemma search_meets_the_limit limit env drive keyword extension folder p found h :
  (forall x, exists l, drive_GetList env (children_query x) = Ok l) ->
  ~ FolderTree env folder limit ->
  fst (recursive_search limit env drive keyword extension folder p found h)
  = Halt (Raised recursion_error).
Proof.
  intros Hanswers Hdeep.
  destruct (recursive_search_listed_only limit env drive keyword extension
              folder p found h) as (_ & Hrerun & Hraise).
  destruct (recursive_search limit env drive keyword extension folder p found h)
    as [[out|[e|]] es] eqn:Hrun; simpl in *.
  - exfalso. apply Hdeep.
    apply (search_returns_tree limit env drive keyword extension
             folder p found h out es Hrun).
  - destruct (Hraise e eq_refl) as [-> | (es' & x & _ & Hfails)]; [reflexivity|].
    destruct (Hanswers x) as [l Hl]. congruence.
  - congruence.
Qed.

(** ** The example worlds *)

Lemma tree_world_is_tree : FolderTree tree_world "R" 2.
Proof.
  eapply FolderTree_intro; [reflexivity|].
  intros f [<- | [<- | [<- | []]]] Hf; try discriminate Hf.
  eapply FolderTree_intro; [reflexivity|].
  intros f [<- | [<- | [<- | []]]] Hf'; discriminate Hf'.
Qed.

Lemma bare_world_is_tree : FolderTree bare_world "E" 1.
Proof.
  eapply FolderTree_intro; [reflexivity|].
  intros f [<- | []] Hf; discriminate Hf.
Qed.

Lemma tree_world_is_deep : ~ FolderTree tree_world "R" 1.
Proof.
  intros H. inversion H as [x l d Hl Hsub]; subst.
  injection Hl as <-.
  assert (Hs : FolderTree tree_world "S" 0).
  { apply (Hsub (mkDriveFile "Sub" "S" folder_mime None));
      [right; now left | reflexivity]. }
  inversion Hs.
Qed.

Lemma loop_world_is_no_tree depth : ~ FolderTree loop_world "L" depth.
Proof.
  induction depth as [|depth IH]; intros H;
    inversion H as [x l d Hl Hsub]; subst.
  injection Hl as <-. apply IH.
  apply (Hsub (mkDriveFile "again" "L" folder_mime None));
    [now left | reflexivity].
Qed.

Lemma tree_world_answers folder :
  exists l, drive_GetList tree_world (children_query folder) = Ok l.
Proof.
  unfold tree_world, world, drive_GetList, tree_listing.
  destruct (String.eqb (children_query folder) folders_query); [eauto|].
  destruct (String.eqb (children_query folder) (children_query "R")); [eauto|].
  destruct (String.eqb (children_query folder) (children_query "S")); eauto.
Qed.

Lemma loop_world_answers folder :
  exists l, drive_GetList loop_world (children_query folder) = Ok l.
Proof.
  unfold loop_world, world, drive_GetList, loop_listing.
  destruct (String.eqb (children_query folder) (children_query "L")); eauto.
Qed.

Lemma ascii_worlds_lower listing get read_excel :
  lowers_ascii (world listing get read_excel).
Proof. intros s _. reflexivity. Qed.

(* ------------------------------------------------------------------ *)
(** * [find_files] *)
(* ------------------------------------------------------------------ *)

(** C1. On a finite acyclic folder tree rooted at [folder_id], of a depth
    the stack has room for, [find_files] returns, and the entries it
    returns are exactly those of the non-folder files of the subtree whose
    title contains the keyword (the test of the code: the lowercased title
    contains the lowercased keyword, whatever [str.lower] does) and ends
    with the extension; so nothing outside the subtree and no folder is
    returned. *)
Theorem find_files_exact env drive folder_id keyword extension depth :
  FolderTree env folder_id depth ->
  exists found_files,
    (forall limit h, depth <= limit ->
       result (find_files limit env drive folder_id keyword extension) h
       = Val found_files) /\
    forall ff,
      In ff found_files <->
      exists f fp,
        InSubtree env folder_id "" f fp /\
        is_folder f = false /\
        (exists a b, str_lower env (title f) = a +++ str_lower env keyword +++ b) /\
        (exists a, title f = a +++ extension) /\
        ff = found_entry f fp.
Proof.
  intros Htree.
  destruct (search_folder env drive keyword extension depth folder_id "" Htree)
    as (out & ord & l & Hl & Hdf & Hrun).
  exists out. split.
  - intros limit h Hlimit. unfold result, find_files. now rewrite (Hrun limit Hlimit).
  - intros ff. rewrite (DepthFirst_found env keyword extension l "" out ord Hdf).
    split; intros (f & fp & Hin & Hnf & Hrest); exists f, fp.
    + destruct Hrest as [Hm ->]. apply title_matches_iff in Hm.
      destruct Hm as [Hk He]. repeat split; try assumption.
      now apply (InSubtree_Below env folder_id "" l f fp Hl).
    + destruct Hrest as (Hk & He & ->). repeat split; try assumption.
      * now apply (InSubtree_Below env folder_id "" l f fp Hl).
      * apply title_matches_iff. now split.
Qed.

Lemma find_files_exact_witness :
  FolderTree tree_world "R" 2 /\
  exists found_files,
    (forall limit h, 2 <= limit ->
       result (find_files limit tree_world a_session "R" "tx_curr" ".xlsx") h
       = Val found_files) /\
    forall ff,
      In ff found_files <->
      exists f fp,
        InSubtree tree_world "R" "" f fp /\
        is_folder f = false /\
        (exists a b, str_lower tree_world (title f)
                     = a +++ str_lower tree_world "tx_curr" +++ b) /\
        (exists a, title f = a +++ ".xlsx") /\
        ff = found_entry f fp.
Proof.
  split.
  - exact tree_world_is_tree.
  - exact (find_files_exact tree_world a_session "R" "tx_curr" ".xlsx" 2
             tree_world_is_tree).
Defined.

(** A folder whose listing starts with a folder bearing its own id is
    entered again and again, until the stack is full: the search has no
    cycle detection. *)
Lemma recursive_search_cycle env drive keyword extension folder g rest :
  drive_GetList env (children_query folder) = Ok (g :: rest) ->
  is_folder g = true -> id g = folder ->
  forall limit p found h,
    result (recursive_search limit env drive keyword extension folder p found) h
    = Halt (Raised recursion_error).
Proof.
  intros Hl Hg Hid limit. induction limit as [|limit IH]; intros p found h.
  - reflexivity.
  - unfold result in *. rewrite recursive_search_S. unfold bind at 1.
    unfold ListFile_GetList, call. rewrite Hl. simpl for_each.
    unfold bind. unfold search_entry at 1. rewrite Hg, Hid.
    specialize (IH (p +++ "/" +++ title g) found
                   (h ++ [DriveListFile (children_query folder)])).
    destruct (recursive_search limit env drive keyword extension folder
                (p +++ "/" +++ title g) found
                (h ++ [DriveListFile (children_query folder)])) as [r es].
    simpl in IH. now rewrite IH.
Qed.

(** C4. [find_files] walks the tree depth first and has no depth limit of
    its own: on a finite acyclic tree of any depth it returns whenever the
    stack has room for that depth, its result and the folders it lists are
    those of the pre-order relation [DepthFirst], and every folder of the
    subtree, however deep, is listed. It returns a value on such trees
    only: where every listing answers and the folder is no tree the stack
    has room for, because it is too deep or because a folder is reached
    again from below itself, the search ends with [RecursionError];
    nothing detects a cycle. *)
Theorem find_files_depth_first env drive folder_id keyword extension :
  (forall depth,
     FolderTree env folder_id depth ->
     exists out ord l,
       drive_GetList env (children_query folder_id) = Ok l /\
       DepthFirst env keyword extension l "" out ord /\
       (forall limit h, depth <= limit ->
          find_files limit env drive folder_id keyword extension h
          = (Val out, listings (folder_id :: ord))) /\
       (forall g gp, InSubtree env folder_id "" g gp -> is_folder g = true ->
          In (DriveListFile (children_query (id g))) (listings ord))) /\
  (forall limit h out,
     result (find_files limit env drive folder_id keyword extension) h = Val out ->
     FolderTree env folder_id limit) /\
  (forall limit h,
     (forall folder, exists l, drive_GetList env (children_query folder) = Ok l) ->
     ~ FolderTree env folder_id limit ->
     result (find_files limit env drive folder_id keyword extension) h
     = Halt (Raised recursion_error)) /\
  (forall g rest limit h,
     drive_GetList env (children_query folder_id) = Ok (g :: rest) ->
     is_folder g = true -> id g = folder_id ->
     result (find_files limit env drive folder_id keyword extension) h
     = Halt (Raised recursion_error)).
Proof.
  split; [|split; [|split]].
  - intros depth Htree.
    destruct (search_folder env drive keyword extension depth folder_id "" Htree)
      as (out & ord & l & Hl & Hdf & Hrun).
    exists out, ord, l. repeat split; try assumption.
    + intros limit h Hlimit. unfold find_files. now rewrite (Hrun limit Hlimit).
    + intros g gp Hin Hg. unfold listings.
      apply (in_map (fun folder => DriveListFile (children_query folder))).
      apply (DepthFirst_listed env keyword extension l "" out ord Hdf g gp);
        [|assumption].
      now apply (InSubtree_Below env folder_id "" l g gp Hl).
  - unfold result, find_files. intros limit h out Hrun.
    destruct (recursive_search limit env drive keyword extension folder_id "" [] h)
      as [r es] eqn:E. simpl in Hrun. subst r.
    apply (search_returns_tree limit env drive keyword extension
             folder_id "" [] h out es E).
  - intros limit h Hanswers Hdeep. unfold result, find_files.
    now apply search_meets_the_limit.
  - intros g rest limit h Hl Hg Hid. unfold find_files.
    now apply recursive_search_cycle with g rest.
Qed.

Lemma find_files_depth_first_witness :
  FolderTree tree_world "R" 2 /\
  (forall limit h, 2 <= limit ->
     find_files limit tree_world a_session "R" "tx_curr" ".xlsx" h
     = (Val tree_found, listings ["R"; "S"])) /\
  ~ FolderTree tree_world "R" 1 /\
  find_files 1 tree_world a_session "R" "tx_curr" ".xlsx" []
  = (Halt (Raised recursion_error), listings ["R"]) /\
  (forall limit, ~ FolderTree loop_world "L" limit) /\
  (forall limit h,
     result (find_files limit loop_world a_session "L" "tx_curr" ".xlsx") h
     = Halt (Raised recursion_error)).
Proof.
  split; [exact tree_world_is_tree|].
  destruct (find_files_depth_first tree_world a_session "R" "tx_curr" ".xlsx")
    as (Hwalk & _ & Hover & _).
  destruct (Hwalk 2 tree_world_is_tree) as (out & ord & l & Hl & Hdf & Hrun & _).
  split.
  - intros limit h Hlimit. rewrite (Hrun limit h Hlimit).
    rewrite <- (Hrun 2 [] (le_n 2)). reflexivity.
  - split; [exact tree_world_is_deep|]. split.
    + pose proof (Hover 1 [] tree_world_answers tree_world_is_deep) as Hstop.
      unfold result in Hstop.
      destruct (find_files 1 tree_world a_session "R" "tx_curr" ".xlsx" [])
        as [r es] eqn:E. simpl in Hstop. subst r.
      assert (Hev : es = listings ["R"]).
      { apply (f_equal snd) in E. simpl in E. rewrite <- E. reflexivity. }
      now rewrite Hev.
    + split; [exact loop_world_is_no_tree|].
      destruct (find_files_depth_first loop_world a_session "L" "tx_curr" ".xlsx")
        as (_ & _ & Hloop & _).
      intros limit h.
      apply (Hloop limit h loop_world_answers (loop_world_is_no_tree limit)).
Defined.

(** C8. The keyword test is made on lowercased strings and so ignores
    case, whatever [str.lower] does: keyword and title count only through
    their lowercase forms. The extension test is a suffix test on the
    title as it is written: [DATA.XLSX] fails the extension [.xlsx] with
    every keyword, also with one that passes the keyword test, passes the
    extension [.XLSX], and a folder holding only [DATA.XLSX] yields no
    file. On ASCII text, which [str.lower] lowers letter by letter,
    [DATA.XLSX] passes the keyword test for [data], and [DATA.xlsx] passes
    both tests. *)
Theorem keyword_ignores_case_extension_does_not env :
  (forall keyword extension t,
     title_matches env keyword extension t = true <->
     (exists a b, str_lower env t = a +++ str_lower env keyword +++ b) /\
     (exists a, t = a +++ extension)) /\
  (forall keyword keyword' extension t,
     str_lower env keyword = str_lower env keyword' ->
     title_matches env keyword extension t
     = title_matches env keyword' extension t) /\
  (forall keyword extension t t',
     str_lower env t = str_lower env t' ->
     PyStr.endswith t extension = PyStr.endswith t' extension ->
     title_matches env keyword extension t
     = title_matches env keyword extension t') /\
  (forall keyword, title_matches env keyword ".xlsx" "DATA.XLSX" = false) /\
  PyStr.contains (str_lower env "DATA.XLSX") (str_lower env "DATA.XLSX") = true /\
  title_matches env "DATA.XLSX" ".XLSX" "DATA.XLSX" = true /\
  (forall drive folder keyword h f,
     drive_GetList env (children_query folder) = Ok [f] ->
     is_folder f = false -> title f = "DATA.XLSX" ->
     find_files 1 env drive folder keyword ".xlsx" h
     = (Val [], listings [folder])) /\
  (lowers_ascii env ->
   (forall keyword extension t,
      PyStr.is_ascii keyword = true -> PyStr.is_ascii t = true ->
      title_matches env keyword extension t
      = PyStr.contains (PyStr.ascii_lower keyword) (PyStr.ascii_lower t)
        && PyStr.endswith t extension) /\
   PyStr.contains (str_lower env "data") (str_lower env "DATA.XLSX") = true /\
   title_matches env "data" ".xlsx" "DATA.XLSX" = false /\
   title_matches env "data" ".xlsx" "DATA.xlsx" = true /\
   title_matches env "TX_CURR" ".xlsx" "tx_curr_2020.xlsx" = true).
Proof.
  split; [exact (title_matches_iff env)|].
  split.
  { intros keyword keyword' extension t H. unfold title_matches. now rewrite H. }
  split.
  { intros keyword extension t t' H H'. unfold title_matches. now rewrite H, H'. }
  assert (Hext : forall keyword,
            title_matches env keyword ".xlsx" "DATA.XLSX" = false).
  { intros keyword. unfold title_matches.
    replace (PyStr.endswith "DATA.XLSX" ".xlsx") with false by reflexivity.
    apply andb_false_r. }
  split; [exact Hext|].
  split; [apply contains_self|].
  split.
  { unfold title_matches. rewrite contains_self. reflexivity. }
  split.
  { intros drive folder keyword h f Hl Hf Ht. unfold find_files.
    rewrite recursive_search_S, bind_run. unfold ListFile_GetList, call.
    rewrite Hl. simpl. rewrite bind_run. unfold search_entry.
    rewrite Hf, Ht, Hext. reflexivity. }
  intros Hlower.
  assert (Hascii : forall keyword extension t,
            PyStr.is_ascii keyword = true -> PyStr.is_ascii t = true ->
            title_matches env keyword extension t
            = PyStr.contains (PyStr.ascii_lower keyword) (PyStr.ascii_lower t)
              && PyStr.endswith t extension).
  { intros keyword extension t Hk Ht. unfold title_matches.
    now rewrite (Hlower keyword Hk), (Hlower t Ht). }
  split; [exact Hascii|].
  split.
  { rewrite (Hlower "data" eq_refl), (Hlower "DATA.XLSX" eq_refl). reflexivity. }
  split; [apply Hext|].
  split; rewrite Hascii; reflexivity.
Qed.

Lemma keyword_ignores_case_extension_does_not_witness :
  lowers_ascii tree_world /\
  title_matches tree_world "data" ".xlsx" "DATA.XLSX" = false /\
  title_matches tree_world "data" ".xlsx" "DATA.xlsx" = true /\
  find_files 1
    (world (fun _ => Ok [mkDriveFile "DATA.XLSX" "d" xlsx_mime (Some "https://dl/d")])
       net_up one_row)
    a_session "R" "data" ".xlsx" []
  = (Val [], listings ["R"]).
Proof.
  split; [apply ascii_worlds_lower|].
  destruct (keyword_ignores_case_extension_does_not tree_world)
    as (_ & _ & _ & _ & _ & _ & _ & Hascii).
  destruct (Hascii (ascii_worlds_lower _ _ _)) as (_ & _ & Hno & Hyes & _).
  split; [exact Hno|]. split; [exact Hyes|].
  destruct (keyword_ignores_case_extension_does_not
              (world (fun _ => Ok [mkDriveFile "DATA.XLSX" "d" xlsx_mime
                                     (Some "https://dl/d")])
                 net_up one_row))
    as (_ & _ & _ & _ & _ & _ & Hfolder & _).
  apply (Hfolder a_session "R" "data" []
           (mkDriveFile "DATA.XLSX" "d" xlsx_mime (Some "https://dl/d")));
    reflexivity.
Defined.

(* ------------------------------------------------------------------ *)
(** * [load_excel_files] *)
(* ------------------------------------------------------------------ *)

Lemma load_excel_files_loop env drive files_info :
  load_excel_files env drive files_info
  = for_each files_info (load_excel_step env drive) [].
Proof. reflexivity. Qed.

Lemma http_requests_app t1 t2 :
  http_requests (t1 ++ t2) = http_requests t1 ++ http_requests t2.
Proof. apply flat_map_app. Qed.

Lemma warnings_app t1 t2 : warnings (t1 ++ t2) = warnings t1 ++ warnings t2.
Proof. apply flat_map_app. Qed.

(** Runs of the download follow one another. *)
Lemma Sequential_app env drive h l1 d1 e1 :
  Sequential env drive h l1 d1 e1 ->
  forall l2 d2 e2,
    Sequential env drive (h ++ e1) l2 d2 e2 ->
    Sequential env drive h (l1 ++ l2) (d1 ++ d2) (e1 ++ e2).
Proof.
  induction 1 as [h
                 | h file_info files dfs es Hurl _ IH
                 | h file_info url e files dfs es Hurl Hne Hget _ IH
                 | h file_info url response e files dfs es Hurl Hne Hget Hparse _ IH
                 | h file_info url response df files dfs es Hurl Hne Hget Hparse _ IH];
    intros l2 d2 e2 H2; simpl.
  - now rewrite app_nil_r in H2.
  - apply Sequential_no_url; [exact Hurl|].
    apply IH. now rewrite <- app_assoc.
  - apply Sequential_request_fails; [exact Hurl | exact Hne | exact Hget|].
    apply IH. now rewrite <- app_assoc.
  - apply Sequential_parse_fails with (1 := Hurl); [exact Hne | exact Hget | exact Hparse|].
    apply IH. now rewrite <- app_assoc.
  - apply Sequential_loaded with (1 := Hurl); [exact Hne | exact Hget | exact Hparse|].
    apply IH. now rewrite <- app_assoc.
Qed.

(** One file: whatever the network and the parser answer, the step returns;
    it is the step of [Sequential] for the file, it makes the one request
    the file calls for, and the file gives either a frame or a warning. *)
Lemma load_excel_step_outcome env drive file_info h :
  exists new es,
    (forall dfs,
       load_excel_step env drive file_info dfs h = (Val (dfs ++ new), es)) /\
    Sequential env drive h [file_info] new es /\
    http_requests es = wanted_urls [file_info] /\
    length new + length (warnings es) = 1.
Proof.
  unfold load_excel_step, wanted_urls. simpl flat_map.
  destruct (PyStr.falsy (download_url file_info)) eqn:Hfalsy.
  { exists [], [cannot_download file_info]. split; [|split; [|split]].
    - intros dfs. rewrite app_nil_r. reflexivity.
    - apply Sequential_no_url; [exact Hfalsy | constructor].
    - unfold PyStr.falsy in Hfalsy.
      destruct (download_url file_info) as [url|]; [|reflexivity].
      now rewrite Hfalsy.
    - reflexivity. }
  destruct (download_url file_info) as [url|] eqn:Hurl; [|discriminate Hfalsy].
  simpl in Hfalsy. rewrite Hfalsy.
  assert (Hne : url <> "") by now apply String.eqb_neq.
  unfold try_except, bind, call.
  destruct (requests_get env h url (bearer drive)) as [response | e] eqn:Hget.
  - destruct (pd_read_excel env (content response)) as [df | e] eqn:Hparse.
    + exists [df], [HttpGet url (bearer drive); PdReadExcel (content response)].
      split; [|split; [|split; reflexivity]].
      * intros dfs. reflexivity.
      * apply Sequential_loaded with (1 := Hurl); try assumption. constructor.
    + exists [], [HttpGet url (bearer drive); PdReadExcel (content response);
                  loading_failed file_info e].
      split; [|split; [|split; reflexivity]].
      * intros dfs. rewrite app_nil_r. reflexivity.
      * apply Sequential_parse_fails with (1 := Hurl); try assumption. constructor.
  - exists [], [HttpGet url (bearer drive); loading_failed file_info e].
    split; [|split; [|split; reflexivity]].
    + intros dfs. rewrite app_nil_r. reflexivity.
    + apply Sequential_request_fails; try assumption. constructor.
Qed.

Lemma load_excel_loop_outcome env drive files_info :
  forall h,
  exists new es,
    (forall dfs,
       for_each files_info (load_excel_step env drive) dfs h
       = (Val (dfs ++ new), es)) /\
    Sequential env drive h files_info new es /\
    http_requests es = wanted_urls files_info /\
    length new + length (warnings es) = length files_info.
Proof.
  induction files_info as [|file_info rest IH]; intros h.
  - exists [], []. split; [|split; [constructor | now split]].
    intros dfs. simpl. unfold ret. now rewrite app_nil_r.
  - destruct (load_excel_step_outcome env drive file_info h)
      as (new1 & es1 & Hstep & Hseq1 & Hreq1 & Hcount1).
    destruct (IH (h ++ es1)) as (new2 & es2 & Hloop & Hseq2 & Hreq2 & Hcount2).
    exists (new1 ++ new2), (es1 ++ es2). split; [|split; [|split]].
    + intros dfs. simpl for_each.
      rewrite (bind_val _ _ _ (Hstep dfs) (Hloop (dfs ++ new1))).
      now rewrite app_assoc.
    + apply (Sequential_app env drive h [file_info] new1 es1 Hseq1 rest new2 es2 Hseq2).
    + rewrite http_requests_app, Hreq1, Hreq2. unfold wanted_urls. simpl.
      now rewrite app_nil_r.
    + rewrite warnings_app, !length_app. simpl length. lia.
Qed.

Lemma wanted_urls_length files_info :
  length (wanted_urls files_info) <= length files_info.
Proof.
  unfold wanted_urls. induction files_info as [|f l IH]; simpl; [lia|].
  rewrite length_app.
  destruct (download_url f) as [url|]; [destruct (String.eqb url "")|]; simpl; lia.
Qed.

(** C5. [load_excel_files] takes the files one after the other in list
    order and always returns, and its run is the one [Sequential]
    describes: a file without URL is not requested and gets a warning; a
    file with a URL is requested once; when its request or its parse
    raises, it gets a warning with the text of the exception and gives no
    frame; else it gives its frame. So the requests are those of the files
    that have a URL, one each, in order, and each file gives a frame or a
    warning. Whatever happens to a file, the files after it are processed,
    and it is not taken again: with the files split around one of them,
    the run is the run over those before, then the step of that file,
    then the run over those after, whose requests are those of the files
    after it. *)
Theorem load_excel_files_sequential_no_retry env drive files_info h :
  exists dfs es,
    load_excel_files env drive files_info h = (Val dfs, es) /\
    Sequential env drive h files_info dfs es /\
    http_requests es = wanted_urls files_info /\
    length (http_requests es) <= length files_info /\
    length dfs + length (warnings es) = length files_info /\
    forall before file_info after,
      files_info = before ++ file_info :: after ->
      exists dfs1 es1 dfs2 es2 dfs3 es3,
        load_excel_files env drive before h = (Val dfs1, es1) /\
        Sequential env drive h before dfs1 es1 /\
        Sequential env drive (h ++ es1) [file_info] dfs2 es2 /\
        length (http_requests es2) <= 1 /\
        length dfs2 + length (warnings es2) = 1 /\
        Sequential env drive (h ++ es1 ++ es2) after dfs3 es3 /\
        http_requests es3 = wanted_urls after /\
        dfs = dfs1 ++ dfs2 ++ dfs3 /\
        es = es1 ++ es2 ++ es3.
Proof.
  rewrite load_excel_files_loop.
  destruct (load_excel_loop_outcome env drive files_info h)
    as (dfs & es & Hrun & Hseq & Hreq & Hcount).
  exists dfs, es. rewrite (Hrun []). simpl.
  split; [reflexivity|]. split; [exact Hseq|]. split; [exact Hreq|].
  split; [rewrite Hreq; apply wanted_urls_length|]. split; [exact Hcount|].
  intros before file_info after Hsplit.
  destruct (load_excel_loop_outcome env drive before h)
    as (dfs1 & es1 & Hrun1 & Hseq1 & _).
  destruct (load_excel_step_outcome env drive file_info (h ++ es1))
    as (dfs2 & es2 & Hrun2 & Hseq2 & Hreq2 & Hcount2).
  destruct (load_excel_loop_outcome env drive after ((h ++ es1) ++ es2))
    as (dfs3 & es3 & Hrun3 & Hseq3 & Hreq3 & _).
  exists dfs1, es1, dfs2, es2, dfs3, es3.
  rewrite load_excel_files_loop, (Hrun1 []). simpl.
  split; [reflexivity|]. split; [exact Hseq1|]. split; [exact Hseq2|].
  split.
  { rewrite Hreq2. apply (wanted_urls_length [file_info]). }
  split; [exact Hcount2|].
  split; [now rewrite app_assoc|].
  split; [exact Hreq3|].
  assert (Hwhole : for_each files_info (load_excel_step env drive) [] h
                   = (Val (dfs1 ++ dfs2 ++ dfs3), es1 ++ es2 ++ es3)).
  { rewrite Hsplit.
    pose proof (Hrun1 []) as Hbefore. simpl in Hbefore.
    rewrite (for_each_app before (file_info :: after) _ [] h _ _ Hbefore).
    simpl for_each.
    rewrite (bind_val _ _ _ (Hrun2 dfs1) (Hrun3 (dfs1 ++ dfs2))).
    now rewrite <- !app_assoc. }
  rewrite (Hrun []) in Hwhole. simpl in Hwhole.
  injection Hwhole as -> ->. now split.
Qed.

Lemma load_excel_files_sequential_no_retry_witness :
  load_excel_files flaky_world a_session tree_found []
  = (Val [ mkDataFrame [mkColumn "n" Numeric; mkColumn "who" Other] [0%Z]
             [[Some "1"; Some "sheet:https://dl/f3"]] ],
     [ HttpGet "https://dl/f1" (bearer a_session);
       St Page Warning "⚠️ Échec du chargement de tx_curr_2020.xlsx : unreachable";
       HttpGet "https://dl/f3" (bearer a_session);
       PdReadExcel "sheet:https://dl/f3";
       St Page Warning "⚠️ Impossible de télécharger tx_curr.xlsx" ]) /\
  exists dfs es,
    Sequential flaky_world a_session [] tree_found dfs es /\
    exists dfs1 es1 dfs2 es2 dfs3 es3,
      Sequential flaky_world a_session [] [] dfs1 es1 /\
      Sequential flaky_world a_session ([] ++ es1)
        [mkFoundFile "tx_curr_2020.xlsx" "/tx_curr_2020.xlsx" "f1"
           (Some "https://dl/f1")] dfs2 es2 /\
      length dfs2 + length (warnings es2) = 1 /\
      Sequential flaky_world a_session ([] ++ es1 ++ es2)
        [ mkFoundFile "TX_CURR_2021.xlsx" "/Sub/TX_CURR_2021.xlsx" "f3"
            (Some "https://dl/f3");
          mkFoundFile "tx_curr.xlsx" "/Sub/tx_curr.xlsx" "f5" None ] dfs3 es3 /\
      dfs = dfs1 ++ dfs2 ++ dfs3 /\
      es = es1 ++ es2 ++ es3.
Proof.
  split; [reflexivity|].
  destruct (load_excel_files_sequential_no_retry flaky_world a_session
              tree_found [])
    as (dfs & es & _ & Hseq & _ & _ & _ & Hsplit).
  exists dfs, es. split; [exact Hseq|].
  destruct (Hsplit []
              (mkFoundFile "tx_curr_2020.xlsx" "/tx_curr_2020.xlsx" "f1"
                 (Some "https://dl/f1"))
              [ mkFoundFile "TX_CURR_2021.xlsx" "/Sub/TX_CURR_2021.xlsx" "f3"
                  (Some "https://dl/f3");
                mkFoundFile "tx_curr.xlsx" "/Sub/tx_curr.xlsx" "f5" None ]
              eq_refl)
    as (dfs1 & es1 & dfs2 & es2 & dfs3 & es3
        & _ & H1 & H2 & _ & Hone & H3 & _ & Hd & He).
  exists dfs1, es1, dfs2, es2, dfs3, es3. repeat split; assumption.
Defined.

(* ------------------------------------------------------------------ *)
(** * [load_data] *)
(* ------------------------------------------------------------------ *)

(** ** The search does not read the history and only lists folders *)

Lemma for_each_history {A S} (body : A -> S -> M S) :
  (forall x s h h', body x s h = body x s h') ->
  forall l s h h', for_each l body s h = for_each l body s h'.
Proof.
  intros Hbody l. induction l as [|x l IH]; intros s h h'; simpl.
  - reflexivity.
  - unfold bind. rewrite (Hbody x s h h').
    destruct (body x s h') as [[a|st] es]; [|reflexivity].
    now rewrite (IH a (h ++ es) (h' ++ es)).
Qed.

Lemma recursive_search_history limit env drive keyword extension :
  forall folder p found h h',
    recursive_search limit env drive keyword extension folder p found h
    = recursive_search limit env drive keyword extension folder p found h'.
Proof.
  induction limit as [|limit IH]; intros folder p found h h'.
  - reflexivity.
  - rewrite !recursive_search_S. unfold bind, ListFile_GetList, call.
    destruct (drive_GetList env (children_query folder)) as [l|e]; [|reflexivity].
    rewrite (for_each_history (search_entry limit env drive keyword extension p))
      with (h' := h' ++ [DriveListFile (children_query folder)]); [reflexivity|].
    intros f s h1 h2. unfold search_entry.
    destruct (is_folder f); [apply IH|].
    destruct (title_matches env keyword extension (title f)); reflexivity.
Qed.

Lemma find_files_history limit env drive folder_id keyword extension h h' :
  find_files limit env drive folder_id keyword extension h
  = find_files limit env drive folder_id keyword extension h'.
Proof. apply recursive_search_history. Qed.

Lemma for_each_events {A S} (P : Event -> Prop) (body : A -> S -> M S) :
  (forall x s h, Forall P (snd (body x s h))) ->
  forall l s h, Forall P (snd (for_each l body s h)).
Proof.
  intros Hbody l. induction l as [|x l IH]; intros s h; simpl.
  - constructor.
  - unfold bind. specialize (Hbody x s h).
    destruct (body x s h) as [[a|st] es]; simpl in *; [|assumption].
    specialize (IH a (h ++ es)).
    destruct (for_each l body a (h ++ es)) as [r es']. simpl in *.
    apply Forall_app. now split.
Qed.

Lemma recursive_search_only_lists limit env drive keyword extension :
  forall folder p found h,
    Forall (fun e => is_data_event e = false)
      (snd (recursive_search limit env drive keyword extension folder p found h)).
Proof.
  induction limit as [|limit IH]; intros folder p found h.
  - constructor.
  - rewrite recursive_search_S. unfold bind, ListFile_GetList, call.
    destruct (drive_GetList env (children_query folder)) as [l|e].
    + assert (Hbody : forall f s h1,
                Forall (fun e => is_data_event e = false)
                  (snd (search_entry limit env drive keyword extension p f s h1))).
      { intros f s h1. unfold search_entry. destruct (is_folder f); [apply IH|].
        destruct (title_matches env keyword extension (title f)); constructor. }
      pose proof (for_each_events _ _ Hbody l found
                    (h ++ [DriveListFile (children_query folder)])) as H.
      destruct (for_each l (search_entry limit env drive keyword extension p) found
                  (h ++ [DriveListFile (children_query folder)])) as [r es].
      simpl in *. constructor; [reflexivity | exact H].
    + repeat constructor.
Qed.

(** ** [load_data] by cases *)

Lemma with_spinner_run {A} text (m : M A) h {r es} :
  m (h ++ [StSpinner text]) = (r, es) ->
  with_spinner text m h = (r, StSpinner text :: es ++ [StSpinnerDone]).
Proof. intros H. unfold with_spinner. now rewrite H. Qed.

Lemma load_data_nothing limit env drive folder_id keyword extension h es :
  find_files limit env drive folder_id keyword extension h = (Val [], es) ->
  load_data limit env drive folder_id keyword extension h
  = (Val (None, None), StSpinner search_spinner :: es ++ [StSpinnerDone]).
Proof.
  intros Hfind. unfold load_data.
  rewrite (find_files_history _ _ _ _ _ _ h (h ++ [StSpinner search_spinner])) in Hfind.
  rewrite (bind_val _ _ _ (with_spinner_run _ _ _ Hfind) eq_refl).
  now rewrite app_nil_r.
Qed.

Lemma load_data_found limit env drive folder_id keyword extension h
    files_found es dfs es' :
  find_files limit env drive folder_id keyword extension h = (Val files_found, es) ->
  files_found <> [] ->
  load_excel_files env drive files_found
    (download_history limit env drive folder_id keyword extension h)
  = (Val dfs, es') ->
  load_data limit env drive folder_id keyword extension h
  = (match Pd.concat (pd_common_dtype env) dfs with
     | Ok final_df => Val (Some final_df, Some files_found)
     | Fails e => Halt (Raised e)
     end,
     (StSpinner search_spinner :: es ++ [StSpinnerDone])
     ++ (StSpinner download_spinner :: es' ++ [StSpinnerDone])
     ++ [PdConcat (length dfs)]).
Proof.
  intros Hfind Hne Hload. unfold load_data.
  rewrite (find_files_history _ _ _ _ _ _ h (h ++ [StSpinner search_spinner])) in Hfind.
  pose proof (with_spinner_run search_spinner _ h Hfind) as Hspin.
  unfold download_history, events in Hload. rewrite Hspin in Hload.
  simpl snd in Hload. rewrite app_assoc in Hload.
  destruct files_found as [|f files]; [congruence|].
  apply (bind_val _ _ _ Hspin).
  unfold bind. unfold download_spinner in *.
  rewrite (with_spinner_run _ _ _ Hload).
  unfold pd_concat, call.
  destruct (Pd.concat (pd_common_dtype env) dfs) as [final_df|e]; reflexivity.
Qed.

(** ** Concatenation of frames *)

Lemma length_flat_map_sum {A B} (f : A -> list B) l :
  length (flat_map f l) = list_sum (map (fun x => length (f x)) l).
Proof.
  induction l as [|x l IH]; simpl; [reflexivity|].
  now rewrite length_app, IH.
Qed.

Lemma add_label_keeps acc l x : In x acc -> In x (Pd.add_label acc l).
Proof.
  intros H. unfold Pd.add_label.
  destruct (existsb (String.eqb l) acc); [assumption|].
  apply in_or_app. now left.
Qed.

Lemma add_label_adds acc l : In l (Pd.add_label acc l).
Proof.
  unfold Pd.add_label. destruct (existsb (String.eqb l) acc) eqn:E.
  - apply existsb_exists in E. destruct E as (x & Hx & Heq).
    apply String.eqb_eq in Heq. now subst.
  - apply in_or_app. right. now left.
Qed.

Lemma add_labels_in ls : forall acc x,
  In x acc \/ In x ls -> In x (fold_left Pd.add_label ls acc).
Proof.
  induction ls as [|l ls IH]; intros acc x H; simpl.
  - destruct H as [H | []]. exact H.
  - apply IH. destruct H as [H | [<- | H]].
    + left. now apply add_label_keeps.
    + left. apply add_label_adds.
    + now right.
Qed.

Lemma union_labels_in dfs : forall acc d l,
  In l acc \/ (In d dfs /\ In l (labels d)) ->
  In l (fold_left (fun acc d => fold_left Pd.add_label (labels d) acc) dfs acc).
Proof.
  induction dfs as [|d0 dfs IH]; intros acc d l H; simpl.
  - destruct H as [H | [[] _]]. exact H.
  - apply (IH _ d). destruct H as [H | [[<- | Hd] Hl]].
    + left. apply add_labels_in. now left.
    + left. apply add_labels_in. now right.
    + right. now split.
Qed.

(** Re-expressing a row over other columns keeps the cell under each label
    that is among them. *)
Lemma lookup_reindex from row to l :
  In l to ->
  Pd.lookup_cell to (Pd.reindex_row from to row) l = Pd.lookup_cell from row l.
Proof.
  unfold Pd.reindex_row. induction to as [|t to IH]; intros Hin.
  - destruct Hin.
  - unfold Pd.lookup_cell at 1. simpl.
    destruct (String.eqb t l) eqn:E.
    + apply String.eqb_eq in E. now subst.
    + destruct Hin as [-> | Hin]; [now rewrite String.eqb_refl in E|].
      apply (IH Hin).
Qed.

(** Over its own distinct labels a row of the right width is unchanged. *)
Lemma reindex_same ls : forall row,
  NoDup ls -> length row = length ls -> Pd.reindex_row ls ls row = row.
Proof.
  unfold Pd.reindex_row. induction ls as [|l ls IH]; intros row Hnd Hlen.
  - destruct row; [reflexivity | discriminate].
  - destruct row as [|c row]; [discriminate|].
    inversion Hnd as [|? ? Hnotin Hnd']; subst. simpl map. f_equal.
    + unfold Pd.lookup_cell. simpl. now rewrite String.eqb_refl.
    + rewrite <- (IH row Hnd') at 2 by (simpl in Hlen; lia).
      apply map_ext_in. intros l' Hl'. unfold Pd.lookup_cell. simpl.
      destruct (String.eqb l l') eqn:E; [|reflexivity].
      apply String.eqb_eq in E. now subst.
Qed.

Lemma add_label_known acc l : In l acc -> Pd.add_label acc l = acc.
Proof.
  intros H. unfold Pd.add_label.
  destruct (existsb (String.eqb l) acc) eqn:E; [reflexivity|].
  assert (existsb (String.eqb l) acc = true) as E'.
  { apply existsb_exists. exists l. split; [assumption | apply String.eqb_refl]. }
  congruence.
Qed.

Lemma add_label_new acc l : ~ In l acc -> Pd.add_label acc l = acc ++ [l].
Proof.
  intros H. unfold Pd.add_label.
  destruct (existsb (String.eqb l) acc) eqn:E; [|reflexivity].
  apply existsb_exists in E. destruct E as (x & Hx & Heq).
  apply String.eqb_eq in Heq. subst x. contradiction.
Qed.

Lemma add_labels_known ls : forall acc,
  (forall l, In l ls -> In l acc) -> fold_left Pd.add_label ls acc = acc.
Proof.
  induction ls as [|l ls IH]; intros acc H; simpl; [reflexivity|].
  rewrite add_label_known by (apply H; now left).
  apply IH. intros l' Hl'. apply H. now right.
Qed.

Lemma add_labels_new ls : forall acc,
  NoDup (acc ++ ls) -> fold_left Pd.add_label ls acc = acc ++ ls.
Proof.
  induction ls as [|l ls IH]; intros acc Hnd; simpl.
  - now rewrite app_nil_r.
  - rewrite add_label_new.
    + rewrite IH; rewrite <- app_assoc; [reflexivity | exact Hnd].
    + apply NoDup_remove_2 in Hnd. intros Hin. apply Hnd.
      apply in_or_app. now left.
Qed.

Lemma union_labels_same ls d dfs :
  NoDup ls -> (forall d', In d' (d :: dfs) -> labels d' = ls) ->
  Pd.union_labels (d :: dfs) = ls.
Proof.
  intros Hnd Hall. unfold Pd.union_labels. simpl.
  rewrite (Hall d (or_introl eq_refl)), (add_labels_new ls []) by exact Hnd.
  simpl. assert (H : forall d', In d' dfs -> labels d' = ls).
  { intros d' Hd'. apply Hall. now right. }
  clear Hall. induction dfs as [|d' dfs IH]; simpl; [reflexivity|].
  rewrite (H d' (or_introl eq_refl)), add_labels_known by (intros l Hl; exact Hl).
  apply IH. intros d'' Hd''. apply H. now right.
Qed.

Lemma concat_frames common d dfs :
  exists final_df,
    Pd.concat common (d :: dfs) = Ok final_df /\
    labels final_df = Pd.union_labels (d :: dfs) /\
    df_rows final_df
    = flat_map (fun d' => map (Pd.reindex_row (labels d') (labels final_df)) (df_rows d'))
        (d :: dfs) /\
    df_index final_df = Pd.range (len final_df).
Proof.
  eexists. split; [reflexivity|].
  assert (Hl : labels
                 {| df_columns :=
                      map (fun l => mkColumn l
                                      (common (map (fun d0 => Pd.dtype_in d0 l) (d :: dfs))))
                        (Pd.union_labels (d :: dfs));
                    df_index := Pd.range (length
                      (flat_map (fun d0 => map (Pd.reindex_row (labels d0)
                                                  (Pd.union_labels (d :: dfs))) (df_rows d0))
                         (d :: dfs)));
                    df_rows :=
                      flat_map (fun d0 => map (Pd.reindex_row (labels d0)
                                                 (Pd.union_labels (d :: dfs))) (df_rows d0))
                        (d :: dfs) |}
               = Pd.union_labels (d :: dfs)).
  { unfold labels. cbn [df_columns]. rewrite map_map. cbn [col_label]. apply map_id. }
  split; [exact Hl|]. rewrite Hl. split; reflexivity.
Qed.

(** C2. When the search returns files and [load_excel_files] produces at
    least one frame, [load_data] returns a dataset and the files; the
    dataset has as many rows as the frames together, its rows are the rows
    of the frames in the order of the frames, each re-expressed over the
    columns of the dataset with its cells kept under their labels (so they
    are the very rows of the frames, appended, when the frames have the
    same columns), and its index is [0..n-1]. *)
Theorem load_data_row_wise_union limit env drive folder_id keyword extension h
    files_found dfs :
  result (find_files limit env drive folder_id keyword extension) h
  = Val files_found ->
  files_found <> [] ->
  result (load_excel_files env drive files_found)
    (download_history limit env drive folder_id keyword extension h)
  = Val dfs ->
  dfs <> [] ->
  exists final_df,
    result (load_data limit env drive folder_id keyword extension) h
    = Val (Some final_df, Some files_found) /\
    len final_df = list_sum (map len dfs) /\
    df_rows final_df
    = flat_map (fun d => map (Pd.reindex_row (labels d) (labels final_df)) (df_rows d))
        dfs /\
    (forall d row l, In d dfs -> In row (df_rows d) -> In l (labels d) ->
       Pd.lookup_cell (labels final_df)
         (Pd.reindex_row (labels d) (labels final_df) row) l
       = Pd.lookup_cell (labels d) row l) /\
    (forall ls, NoDup ls ->
       (forall d, In d dfs ->
          labels d = ls /\
          forall row, In row (df_rows d) -> length row = length ls) ->
       df_rows final_df = concat (map df_rows dfs)) /\
    df_index final_df = Pd.range (len final_df).
Proof.
  unfold result. intros Hfind Hne Hload Hdfs.
  destruct (find_files limit env drive folder_id keyword extension h)
    as [r es] eqn:Efind. simpl in Hfind. subst r.
  destruct (load_excel_files env drive files_found
              (download_history limit env drive folder_id keyword extension h))
    as [r' es'] eqn:Eload. simpl in Hload. subst r'.
  rewrite (load_data_found _ _ _ _ _ _ _ _ _ _ _ Efind Hne Eload).
  destruct dfs as [|d dfs]; [congruence|].
  destruct (concat_frames (pd_common_dtype env) d dfs)
    as (final_df & Hconcat & Hlabels & Hrows & Hindex).
  exists final_df. rewrite Hconcat. simpl fst.
  split; [reflexivity|].
  split; [|split; [exact Hrows|split; [|split; [|exact Hindex]]]].
  - unfold len at 1. rewrite Hrows, length_flat_map_sum. f_equal.
    apply map_ext. intros d'. unfold len. apply length_map.
  - intros d' row l Hd _ Hl. apply lookup_reindex. rewrite Hlabels.
    apply (union_labels_in (d :: dfs) [] d' l). right. now split.
  - intros ls Hnd Hsame. rewrite Hrows, Hlabels.
    rewrite (union_labels_same ls d dfs Hnd (fun d' Hd' => proj1 (Hsame d' Hd'))).
    rewrite flat_map_concat_map. f_equal. apply map_ext_in. intros d' Hd'.
    destruct (Hsame d' Hd') as [-> Hwidth].
    rewrite <- (map_id (df_rows d')) at 2. apply map_ext_in. intros row Hrow.
    apply reindex_same; [exact Hnd | now apply Hwidth].
Qed.

Lemma load_data_row_wise_union_witness :
  result (find_files 2 tree_world a_session "R" "tx_curr" ".xlsx") []
  = Val tree_found /\
  tree_found <> [] /\
  result (load_excel_files tree_world a_session tree_found)
    (download_history 2 tree_world a_session "R" "tx_curr" ".xlsx" [])
  = Val tree_frames /\
  tree_frames <> [] /\
  exists final_df,
    result (load_data 2 tree_world a_session "R" "tx_curr" ".xlsx") []
    = Val (Some final_df, Some tree_found) /\
    len final_df = 2 /\
    df_rows final_df = df_rows tree_dataset /\
    df_index final_df = [0%Z; 1%Z].
Proof.
  assert (Hfind : result (find_files 2 tree_world a_session "R" "tx_curr" ".xlsx") []
                  = Val tree_found) by reflexivity.
  assert (Hne : tree_found <> []) by discriminate.
  assert (Hload : result (load_excel_files tree_world a_session tree_found)
                    (download_history 2 tree_world a_session "R" "tx_curr" ".xlsx" [])
                  = Val tree_frames) by reflexivity.
  assert (Hdfs : tree_frames <> []) by discriminate.
  repeat (split; [assumption|]).
  destruct (load_data_row_wise_union 2 tree_world a_session "R" "tx_curr" ".xlsx" []
              tree_found tree_frames Hfind Hne Hload Hdfs)
    as (final_df & Hrun & Hlen & Hrows & Hcells & Hsame & Hindex).
  exists final_df. split; [exact Hrun|].
  assert (E : result (load_data 2 tree_world a_session "R" "tx_curr" ".xlsx") []
              = Val (Some tree_dataset, Some tree_found)) by reflexivity.
  rewrite Hrun in E. injection E as ->. repeat split.
Defined.

(** With files found and no frame out of the download, [pd.concat] refuses
    the empty list and the exception leaves [load_data]. *)
Lemma load_data_no_frames limit env drive folder_id keyword extension h files_found :
  result (find_files limit env drive folder_id keyword extension) h
  = Val files_found ->
  files_found <> [] ->
  result (load_excel_files env drive files_found)
    (download_history limit env drive folder_id keyword extension h)
  = Val [] ->
  result (load_data limit env drive folder_id keyword extension) h
  = Halt (Raised no_objects).
Proof.
  unfold result. intros Hfind Hne Hload.
  destruct (find_files limit env drive folder_id keyword extension h)
    as [r es] eqn:Efind. simpl in Hfind. subst r.
  destruct (load_excel_files env drive files_found
              (download_history limit env drive folder_id keyword extension h))
    as [r' es'] eqn:Eload. simpl in Hload. subst r'.
  now rewrite (load_data_found _ _ _ _ _ _ _ _ _ _ _ Efind Hne Eload).
Qed.

(** C3. With the network down every download of the files found in
    [tree_world] fails and is reported as a warning; [load_data] then does
    not return: the [ValueError] of [pd.concat] on the empty list of
    frames leaves it. The same happens when the only file found has no
    download URL. *)
Theorem load_data_raises_when_every_download_fails :
  load_data 2 offline_world a_session "R" "tx_curr" ".xlsx" []
  = (Halt (Raised no_objects),
     [ StSpinner search_spinner;
       DriveListFile (children_query "R");
       DriveListFile (children_query "S");
       StSpinnerDone;
       StSpinner download_spinner;
       HttpGet "https://dl/f1" (bearer a_session);
       St Page Warning "⚠️ Échec du chargement de tx_curr_2020.xlsx : unreachable";
       HttpGet "https://dl/f3" (bearer a_session);
       St Page Warning "⚠️ Échec du chargement de TX_CURR_2021.xlsx : unreachable";
       St Page Warning "⚠️ Impossible de télécharger tx_curr.xlsx";
       StSpinnerDone;
       PdConcat 0 ]) /\
  result
    (load_data 1
       (world (fun _ => Ok [mkDriveFile "tx_curr.xlsx" "g" xlsx_mime None])
          net_up one_row)
       a_session "R" "tx_curr" ".xlsx") []
  = Halt (Raised no_objects).
Proof. split; reflexivity. Qed.

(** C10. When the search returns the empty list, [load_data] returns
    [(None, None)] and has only shown the search spinner and listed
    folders: no request, no parse and no concatenation is among its
    events. *)
Theorem load_data_nothing_found limit env drive folder_id keyword extension h :
  result (find_files limit env drive folder_id keyword extension) h = Val [] ->
  result (load_data limit env drive folder_id keyword extension) h
  = Val (None, None) /\
  Forall (fun e => is_data_event e = false)
    (events (load_data limit env drive folder_id keyword extension) h) /\
  http_requests (events (load_data limit env drive folder_id keyword extension) h)
  = [].
Proof.
  unfold result, events. intros Hfind.
  pose proof (recursive_search_only_lists limit env drive keyword extension
                folder_id "" [] h) as Hev.
  fold (find_files limit env drive folder_id keyword extension) in Hev.
  destruct (find_files limit env drive folder_id keyword extension h)
    as [r es] eqn:Efind. simpl in Hfind, Hev. subst r.
  rewrite (load_data_nothing _ _ _ _ _ _ _ _ Efind). simpl fst. simpl snd.
  split; [reflexivity|].
  assert (Hall : Forall (fun e => is_data_event e = false)
                   (StSpinner search_spinner :: es ++ [StSpinnerDone])).
  { constructor; [reflexivity|]. apply Forall_app. split; [exact Hev|].
    now repeat constructor. }
  split; [exact Hall|].
  clear -Hall. induction Hall as [|e t He _ IH]; [reflexivity|].
  simpl. rewrite IH. destruct e; try reflexivity; discriminate He.
Qed.

Lemma load_data_nothing_found_witness :
  result (find_files 1 bare_world a_session "E" "tx_curr" ".xlsx") [] = Val [] /\
  result (load_data 1 bare_world a_session "E" "tx_curr" ".xlsx") []
  = Val (None, None) /\
  Forall (fun e => is_data_event e = false)
    (events (load_data 1 bare_world a_session "E" "tx_curr" ".xlsx") []) /\
  http_requests (events (load_data 1 bare_world a_session "E" "tx_curr" ".xlsx") [])
  = [].
Proof.
  assert (H : result (find_files 1 bare_world a_session "E" "tx_curr" ".xlsx") []
              = Val []) by reflexivity.
  split; [exact H|].
  exact (load_data_nothing_found 1 bare_world a_session "E" "tx_curr" ".xlsx" [] H).
Defined.

(* ------------------------------------------------------------------ *)
(** * [get_root_folders] *)
(* ------------------------------------------------------------------ *)

Lemma dict_get_set k k' v d :
  Dict.get k (Dict.set k' v d)
  = if String.eqb k' k then Some v else Dict.get k d.
Proof.
  induction d as [|[k0 v0] d IH]; simpl.
  - reflexivity.
  - destruct (String.eqb k0 k') eqn:E0; simpl.
    + apply String.eqb_eq in E0. subst k0.
      destruct (String.eqb k' k); reflexivity.
    + rewrite IH. destruct (String.eqb k0 k) eqn:E1; [|reflexivity].
      apply String.eqb_eq in E1. subst k0. now rewrite String.eqb_sym, E0.
Qed.

Lemma dict_keys_set k v d x :
  In x (Dict.keys (Dict.set k v d)) <-> x = k \/ In x (Dict.keys d).
Proof.
  unfold Dict.keys. induction d as [|[k0 v0] d IH]; simpl.
  - split; [intros [<- | []]; now left | intros [-> | []]; now left].
  - destruct (String.eqb k0 k) eqn:E0; simpl.
    + apply String.eqb_eq in E0. subst k0. intuition congruence.
    + rewrite IH. tauto.
Qed.

Lemma dict_keys_set_nodup k v d :
  NoDup (Dict.keys d) -> NoDup (Dict.keys (Dict.set k v d)).
Proof.
  unfold Dict.keys. induction d as [|[k0 v0] d IH]; simpl; intros Hnd.
  - constructor; [intros [] | constructor].
  - inversion Hnd as [|? ? Hnotin Hnd']; subst.
    destruct (String.eqb k0 k) eqn:E0; simpl.
    + apply String.eqb_eq in E0. subst k0. now constructor.
    + constructor; [|now apply IH].
      intros Hin. apply (dict_keys_set k v d k0) in Hin.
      destruct Hin as [-> | Hin]; [now rewrite String.eqb_refl in E0 | contradiction].
Qed.

Lemma title_to_id_keys_nodup file_list : NoDup (Dict.keys (title_to_id file_list)).
Proof.
  unfold title_to_id.
  assert (H : forall d, NoDup (Dict.keys d) ->
                NoDup (Dict.keys
                         (fold_left (fun d f => Dict.set (title f) (id f) d) file_list d))).
  { induction file_list as [|f l IH]; intros d Hd; simpl; [exact Hd|].
    apply IH. now apply dict_keys_set_nodup. }
  apply H. constructor.
Qed.

Lemma find_app_first {A} (p : A -> bool) l1 l2 :
  find p (l1 ++ l2)
  = match find p l1 with Some x => Some x | None => find p l2 end.
Proof.
  induction l1 as [|x l1 IH]; simpl; [reflexivity|].
  destruct (p x); [reflexivity | exact IH].
Qed.

Lemma find_nowhere {A} (p : A -> bool) l :
  (forall x, In x l -> p x = false) -> find p l = None.
Proof.
  induction l as [|x l IH]; intros H; simpl; [reflexivity|].
  rewrite (H x (or_introl eq_refl)). apply IH. intros y Hy. apply H. now right.
Qed.

(** The value kept under a title is the id of the last entry with it. *)
Lemma title_to_id_get k file_list :
  Dict.get k (title_to_id file_list) = option_map id (last_titled k file_list).
Proof.
  unfold title_to_id, last_titled.
  assert (H : forall d,
            Dict.get k (fold_left (fun d f => Dict.set (title f) (id f) d) file_list d)
            = match find (fun x => String.eqb (title x) k) (rev file_list) with
              | Some x => Some (id x)
              | None => Dict.get k d
              end).
  { induction file_list as [|f l IH]; intros d; simpl; [reflexivity|].
    rewrite IH, find_app_first, dict_get_set.
    destruct (find (fun x => String.eqb (title x) k) (rev l)); [reflexivity|].
    simpl. destruct (String.eqb (title f) k); reflexivity. }
  rewrite (H []).
  now destruct (find (fun x => String.eqb (title x) k) (rev file_list)).
Qed.

Lemma last_titled_after k l1 g after :
  title g = k -> (forall x, In x after -> title x <> k) ->
  last_titled k (l1 ++ g :: after) = Some g.
Proof.
  intros Hg Hafter. unfold last_titled.
  rewrite rev_app_distr. simpl rev. rewrite <- !app_assoc, find_app_first.
  rewrite find_nowhere.
  - simpl. now rewrite Hg, String.eqb_refl.
  - intros x Hx. apply in_rev in Hx. apply String.eqb_neq. now apply Hafter.
Qed.

Lemma nodup_map_same {A B} (g : A -> B) l x y :
  NoDup (map g l) -> In x l -> In y l -> g x = g y -> x = y.
Proof.
  induction l as [|a l IH]; intros Hnd Hx Hy Hg; [destruct Hx|].
  simpl in Hnd. inversion Hnd as [|? ? Hnotin Hnd']; subst.
  destruct Hx as [-> | Hx], Hy as [-> | Hy].
  - reflexivity.
  - exfalso. apply Hnotin. rewrite Hg. now apply in_map.
  - exfalso. apply Hnotin. rewrite <- Hg. now apply in_map.
  - now apply IH.
Qed.

(** C9. [get_root_folders] returns a dictionary keyed by title: when two
    folders of the listing bear the same title, the title appears once
    among the keys and leads to the id of the later folder; as ids are
    distinct, no key leads to the id of the earlier one, so whatever the
    user selects, [root_folders[selected_folder]] is not that folder. *)
Theorem get_root_folders_keeps_last_of_a_title env drive h
    before f between g after :
  drive_GetList env folders_query = Ok (before ++ f :: between ++ g :: after) ->
  title f = title g ->
  (forall x, In x after -> title x <> title g) ->
  NoDup (map id (before ++ f :: between ++ g :: after)) ->
  exists root_folders,
    result (get_root_folders env drive) h = Val root_folders /\
    NoDup (Dict.keys root_folders) /\
    Dict.get (title f) root_folders = Some (id g) /\
    forall selected_folder,
      Dict.get selected_folder root_folders <> Some (id f).
Proof.
  intros Hlist Htitle Hafter Hids.
  set (l := before ++ f :: between ++ g :: after) in *.
  exists (title_to_id l).
  assert (Hlast : last_titled (title g) l = Some g).
  { unfold l. change (before ++ f :: between ++ g :: after)
      with (before ++ (f :: between) ++ g :: after).
    rewrite app_assoc. now apply last_titled_after. }
  split; [|split; [apply title_to_id_keys_nodup|split]].
  - unfold result, get_root_folders, bind, ListFile_GetList, call.
    now rewrite Hlist.
  - now rewrite title_to_id_get, Htitle, Hlast.
  - intros k Hget. rewrite title_to_id_get in Hget.
    destruct (last_titled k l) as [x|] eqn:Hx; [|discriminate].
    simpl in Hget. injection Hget as Hid.
    pose proof Hx as Hfound.
    unfold last_titled in Hfound. apply find_some in Hfound.
    destruct Hfound as [Hin Hk].
    apply in_rev in Hin. apply String.eqb_eq in Hk.
    assert (Hf : In f l).
    { unfold l. apply in_or_app. right. now left. }
    assert (x = f) by (now apply (nodup_map_same id l)). subst x.
    rewrite Htitle in Hk. subst k. rewrite Hlast in Hx. injection Hx as <-.
    unfold l in Hids. rewrite map_app in Hids. apply NoDup_app_remove_l in Hids.
    simpl in Hids. inversion Hids as [|? ? Hnotin _]; subst.
    apply Hnotin. rewrite map_app. apply in_or_app. right. now left.
Qed.

Lemma get_root_folders_keeps_last_of_a_title_witness :
  drive_GetList twin_world folders_query = Ok twin_folders /\
  result (get_root_folders twin_world a_session) []
  = Val [("Data", "id-new"); ("Archive", "id-arch")] /\
  forall selected_folder,
    Dict.get selected_folder [("Data", "id-new"); ("Archive", "id-arch")]
    <> Some "id-old".
Proof.
  split; [reflexivity|]. split; [reflexivity|].
  destruct (get_root_folders_keeps_last_of_a_title twin_world a_session []
              []
              (mkDriveFile "Data" "id-old" folder_mime None)
              [mkDriveFile "Archive" "id-arch" folder_mime None]
              (mkDriveFile "Data" "id-new" folder_mime None)
              [])
    as (root_folders & Hrun & _ & _ & Hnever).
  - reflexivity.
  - reflexivity.
  - intros x [].
  - repeat constructor; simpl; intuition discriminate.
  - assert (E : result (get_root_folders twin_world a_session) []
                = Val [("Data", "id-new"); ("Archive", "id-arch")]) by reflexivity.
    rewrite Hrun in E. injection E as <-. exact Hnever.
Defined.

(* ------------------------------------------------------------------ *)
(** * [authenticate_drive] and the start of [main] *)
(* ------------------------------------------------------------------ *)

(** What [authenticate_drive] emits when both files are missing. *)
Lemma authenticate_drive_nothing_saved env h :
  os_path_exists env h "credentials.json" = false ->
  os_path_exists env (h ++ [OsPathExists "credentials.json"]) "client_secrets.json"
  = false ->
  authenticate_drive env h
  = (Val None,
     [ OsPathExists "credentials.json";
       OsPathExists "client_secrets.json";
       St Sidebar Error "❌ client_secrets.json manquant." ]).
Proof.
  intros Hcred Hsecrets. unfold authenticate_drive, bind, call, ret, emit.
  rewrite Hcred. cbv beta iota. rewrite app_nil_r, Hsecrets. reflexivity.
Qed.

Lemma main_nothing_saved limit env h :
  (forall h', authenticate_drive env h' = (Val None, nothing_saved_events)) ->
  main limit env h
  = (Val tt,
     St Sidebar Header "🔐 Authentification"
     :: nothing_saved_events
     ++ StButton Sidebar "🔑 Se connecter à Google Drive"
     :: (if button_pressed env Sidebar "🔑 Se connecter à Google Drive"
         then nothing_saved_events else [])).
Proof.
  intros Hauth. unfold main.
  apply (bind_val _ _ h (a := tt) (es := [St Sidebar Header "🔐 Authentification"])
           eq_refl).
  apply (bind_val _ _ _ (Hauth _)).
  unfold st_button, bind, emit, ret.
  destruct (button_pressed env Sidebar "🔑 Se connecter à Google Drive").
  - rewrite Hauth. reflexivity.
  - reflexivity.
Qed.

(** C6. When neither [credentials.json] nor [client_secrets.json] exists,
    [authenticate_drive] shows the error in the sidebar and returns [None]
    without constructing a session; [main] then returns after offering the
    connection button (and a second, equally failing attempt if it is
    pressed): it constructs no session, lists nothing on the Drive and
    fetches no data. *)
Theorem authenticate_drive_without_credentials limit env h :
  (forall h', os_path_exists env h' "credentials.json" = false) ->
  (forall h', os_path_exists env h' "client_secrets.json" = false) ->
  authenticate_drive env h
  = (Val None,
     [ OsPathExists "credentials.json";
       OsPathExists "client_secrets.json";
       St Sidebar Error "❌ client_secrets.json manquant." ]) /\
  result (main limit env) h = Val tt /\
  In (St Sidebar Error "❌ client_secrets.json manquant.") (events (main limit env) h) /\
  Forall (fun e => is_drive_event e = false /\ is_data_event e = false)
    (events (main limit env) h).
Proof.
  intros Hcred Hsecrets.
  assert (Hauth : forall h',
            authenticate_drive env h' = (Val None, nothing_saved_events)).
  { intros h'. now apply authenticate_drive_nothing_saved. }
  split; [apply Hauth|].
  unfold result, events. rewrite (main_nothing_saved limit env h Hauth).
  simpl fst. simpl snd. split; [reflexivity|]. split.
  - right; right; right. now left.
  - destruct (button_pressed env Sidebar "🔑 Se connecter à Google Drive");
      repeat constructor.
Qed.

Lemma authenticate_drive_without_credentials_witness :
  (forall h', os_path_exists tree_world h' "credentials.json" = false) /\
  (forall h', os_path_exists tree_world h' "client_secrets.json" = false) /\
  main 2 tree_world []
  = (Val tt,
     [ St Sidebar Header "🔐 Authentification";
       OsPathExists "credentials.json";
       OsPathExists "client_secrets.json";
       St Sidebar Error "❌ client_secrets.json manquant.";
       StButton Sidebar "🔑 Se connecter à Google Drive" ]) /\
  Forall (fun e => is_drive_event e = false /\ is_data_event e = false)
    (events (main 2 tree_world) []).
Proof.
  split; [reflexivity|]. split; [reflexivity|]. split; [reflexivity|].
  apply (authenticate_drive_without_credentials 2 tree_world []); reflexivity.
Defined.

(* ------------------------------------------------------------------ *)
(** * The analysis tab *)
(* ------------------------------------------------------------------ *)

Lemma not_numeric_warning_inj col col' :
  not_numeric_warning col = not_numeric_warning col' -> col = col'.
Proof.
  unfold not_numeric_warning. intros H.
  apply append_inv_head in H. now apply append_inv_tail in H.
Qed.

Lemma column_event_more df col cols e :
  In col cols -> column_event df [col] e -> column_event df cols e.
Proof.
  intros Hin (c & [<- | []] & H). now exists col.
Qed.

Lemma column_event_cons df col cols e :
  column_event df cols e -> column_event df (col :: cols) e.
Proof.
  intros (c & Hin & H). exists c. split; [now right | exact H].
Qed.

(** One column of the loop. *)
Lemma plot_column_run env df col h :
  Forall (column_event df [col]) (snd (plot_column env df col h)) /\
  (fst (plot_column env df col h) = Val tt ->
   In (if Pd.is_numeric_dtype_at df col then StPyplot col
       else St Page Warning (not_numeric_warning col))
      (snd (plot_column env df col h))) /\
  ((forall h' e, tab_call env h' e = Ok tt) ->
   plot_column env df col h = (Val tt, plot_or_warn df col)).
Proof.
  unfold plot_column, plot_or_warn.
  destruct (Pd.is_numeric_dtype_at df col) eqn:Hnum.
  - assert (Hev : forall e,
              e = PltSubplots \/ e = SnsHistplot col \/ e = SnsBoxplot col
              \/ e = StPyplot col ->
              column_event df [col] e).
    { intros e He. exists col. split; [now left|]. left. now split. }
    split; [|split].
    + unfold tab_step, bind, call.
      destruct (tab_call env h PltSubplots) as [[]|x1]; simpl;
        [|repeat constructor; apply Hev; tauto].
      destruct (tab_call env (h ++ [PltSubplots]) (SnsHistplot col)) as [[]|x2];
        simpl; [|repeat constructor; apply Hev; tauto].
      destruct (tab_call env ((h ++ [PltSubplots]) ++ [SnsHistplot col])
                  (SnsBoxplot col)) as [[]|x3];
        simpl; [|repeat constructor; apply Hev; tauto].
      destruct (tab_call env
                  (((h ++ [PltSubplots]) ++ [SnsHistplot col]) ++ [SnsBoxplot col])
                  (StPyplot col)) as [[]|x4];
        simpl; repeat constructor; apply Hev; tauto.
    + unfold tab_step, bind, call.
      destruct (tab_call env h PltSubplots) as [[]|x1]; simpl;
        [|discriminate].
      destruct (tab_call env (h ++ [PltSubplots]) (SnsHistplot col)) as [[]|x2];
        simpl; [|discriminate].
      destruct (tab_call env ((h ++ [PltSubplots]) ++ [SnsHistplot col])
                  (SnsBoxplot col)) as [[]|x3];
        simpl; [|discriminate].
      destruct (tab_call env
                  (((h ++ [PltSubplots]) ++ [SnsHistplot col]) ++ [SnsBoxplot col])
                  (StPyplot col)) as [[]|x4];
        simpl; [intros _; tauto | discriminate].
    + intros Hok. unfold tab_step, bind, call. rewrite !Hok. reflexivity.
  - split; [|split].
    + repeat constructor. exists col. split; [now left|]. right. now split.
    + intros _. now left.
    + intros _. reflexivity.
Qed.

(** The loop over the columns. *)
Lemma plotting_loop env df cols :
  forall h,
    Forall (column_event df cols)
      (snd (for_each cols (fun col _ => plot_column env df col) tt h)) /\
    (fst (for_each cols (fun col _ => plot_column env df col) tt h) = Val tt ->
     forall col, In col cols ->
       In (if Pd.is_numeric_dtype_at df col then StPyplot col
           else St Page Warning (not_numeric_warning col))
          (snd (for_each cols (fun col _ => plot_column env df col) tt h))) /\
    ((forall h' e, tab_call env h' e = Ok tt) ->
     for_each cols (fun col _ => plot_column env df col) tt h
     = (Val tt, flat_map (plot_or_warn df) cols)).
Proof.
  induction cols as [|c cols IH]; intros h.
  - simpl. split; [constructor|]. split; [intros _ col []|reflexivity].
  - simpl for_each. rewrite bind_run.
    destruct (plot_column_run env df c h) as (Hev1 & Hend1 & Hok1).
    destruct (plot_column env df c h) as [[[]|st] es1] eqn:Hstep; cbn [fst snd] in *.
    + destruct (IH (h ++ es1)) as (Hev2 & Hend2 & Hok2).
      split; [|split].
      * apply Forall_app. split.
        -- eapply Forall_impl; [|exact Hev1].
           intros e He. apply (column_event_more df c); [now left | exact He].
        -- eapply Forall_impl; [|exact Hev2].
           intros e He. now apply column_event_cons.
      * intros Hend col [<- | Hin]; apply in_or_app.
        -- left. now apply Hend1.
        -- right. now apply Hend2.
      * intros Hok. rewrite (Hok2 Hok). cbn [fst snd].
        specialize (Hok1 Hok). injection Hok1 as ->. reflexivity.
    + split; [|split].
      * eapply Forall_impl; [|exact Hev1].
        intros e He. apply (column_event_more df c); [now left | exact He].
      * discriminate.
      * intros Hok. specialize (Hok1 Hok). discriminate Hok1.
Qed.

(** The tab on a dataset that is not empty: its first two events, then
    the loop or the message that no column is numeric. *)
Lemma analysis_tab_run env df h :
  empty df = false ->
  analysis_tab env (Some df) h
  = bind (emit (St Page Markdown "### 📈 Statistiques descriptives"))
      (fun _ =>
         bind (tab_step env (StWriteDescribe df))
           (fun _ =>
              match Pd.numeric_columns df with
              | [] => emit (St Page Info "ℹ️ Aucune variable numérique à visualiser.")
              | cols =>
                  bind (emit (St Page Markdown
                                "### 📊 Distribution des variables numériques"))
                    (fun _ => for_each cols (fun col _ => plot_column env df col) tt)
              end)) h.
Proof.
  intros Hdata. unfold analysis_tab. rewrite Hdata. simpl negb. cbv iota.
  now destruct (Pd.numeric_columns df).
Qed.

Lemma analysis_tab_events env df h :
  empty df = false ->
  Forall (fun e =>
            e = St Page Markdown "### 📈 Statistiques descriptives" \/
            e = StWriteDescribe df \/
            e = St Page Markdown "### 📊 Distribution des variables numériques" \/
            e = St Page Info "ℹ️ Aucune variable numérique à visualiser." \/
            column_event df (Pd.numeric_columns df) e)
    (events (analysis_tab env (Some df)) h).
Proof.
  intros Hdata. unfold events. rewrite (analysis_tab_run env df h Hdata).
  apply bind_events_forall.
  { repeat (apply Forall_cons || apply Forall_nil). auto 10. }
  intros [] es0 _.
  apply bind_events_forall.
  { unfold tab_step, call. destruct (tab_call env _ _) as [[]|x];
      repeat (apply Forall_cons || apply Forall_nil); auto 10. }
  intros [] es1 _.
  destruct (Pd.numeric_columns df) as [|col cols] eqn:Hcols.
  - repeat (apply Forall_cons || apply Forall_nil). auto 10.
  - apply bind_events_forall.
    { repeat (apply Forall_cons || apply Forall_nil). auto 10. }
    intros [] es2 _.
    destruct (plotting_loop env df (col :: cols) (((h ++ es0) ++ es1) ++ es2))
      as (Hev & _ & _).
    eapply Forall_impl; [|exact Hev]. intros e He. auto 10.
Qed.

(** C7, as the code has it. On a dataset that is not empty the analysis
    tab visits the columns that [select_dtypes] selects under ['number']
    and no other. Whatever its calls do, a warning it shows is the warning
    of a column it visits that fails the dtype check, a plot it shows is
    the plot of a column it visits that passes it, and a column that is
    not selected gets neither. When the tab comes to its end, every column
    it visits has got its plot or, failing the check, its warning. When
    its calls answer, its events are those of [analysis_events]. *)
Theorem analysis_tab_visits_numeric_columns_only env df h :
  empty df = false ->
  (forall text,
     In (St Page Warning text) (events (analysis_tab env (Some df)) h) ->
     exists col,
       text = not_numeric_warning col /\
       In col (Pd.numeric_columns df) /\
       Pd.is_numeric_dtype_at df col = false) /\
  (forall col,
     In (StPyplot col) (events (analysis_tab env (Some df)) h) ->
     In col (Pd.numeric_columns df) /\ Pd.is_numeric_dtype_at df col = true) /\
  (forall c,
     In c (df_columns df) -> ~ In (col_label c) (Pd.numeric_columns df) ->
     ~ In (St Page Warning (not_numeric_warning (col_label c)))
          (events (analysis_tab env (Some df)) h) /\
     ~ In (StPyplot (col_label c)) (events (analysis_tab env (Some df)) h)) /\
  (result (analysis_tab env (Some df)) h = Val tt ->
   forall col,
     In col (Pd.numeric_columns df) ->
     In (if Pd.is_numeric_dtype_at df col then StPyplot col
         else St Page Warning (not_numeric_warning col))
        (events (analysis_tab env (Some df)) h)) /\
  ((forall h' e, tab_call env h' e = Ok tt) ->
   analysis_tab env (Some df) h = (Val tt, analysis_events df)).
Proof.
  intros Hdata.
  pose proof (analysis_tab_events env df h Hdata) as Hev.
  rewrite Forall_forall in Hev.
  assert (Hwarn : forall text,
            In (St Page Warning text) (events (analysis_tab env (Some df)) h) ->
            exists col,
              text = not_numeric_warning col /\
              In col (Pd.numeric_columns df) /\
              Pd.is_numeric_dtype_at df col = false).
  { intros text Hin.
    destruct (Hev _ Hin) as [H | [H | [H | [H | (col & Hcol & H)]]]];
      try discriminate H.
    destruct H as [[_ [H | [H | [H | H]]]] | [Hnum H]]; try discriminate H.
    injection H as ->. now exists col. }
  assert (Hplot : forall col,
            In (StPyplot col) (events (analysis_tab env (Some df)) h) ->
            In col (Pd.numeric_columns df) /\ Pd.is_numeric_dtype_at df col = true).
  { intros col Hin.
    destruct (Hev _ Hin) as [H | [H | [H | [H | (col' & Hcol & H)]]]];
      try discriminate H.
    destruct H as [[Hnum [H | [H | [H | H]]]] | [_ H]]; try discriminate H.
    injection H as ->. now split. }
  split; [exact Hwarn|]. split; [exact Hplot|]. split; [|split].
  - intros c _ Hout. split; intros Hin.
    + destruct (Hwarn _ Hin) as (col & Heq & Hcol & _).
      apply not_numeric_warning_inj in Heq. subst col. contradiction.
    + destruct (Hplot _ Hin) as [Hcol _]. contradiction.
  - unfold result, events. rewrite (analysis_tab_run env df h Hdata).
    destruct (tab_step env (StWriteDescribe df)
                (h ++ [St Page Markdown "### 📈 Statistiques descriptives"]))
      as [[[]|st] es1] eqn:Hdescribe.
    2:{ unfold bind, emit. cbv beta iota. rewrite Hdescribe. discriminate. }
    destruct (Pd.numeric_columns df) as [|col cols]; [intros _ c []|].
    unfold bind, emit. cbv beta iota. rewrite Hdescribe. cbv beta iota.
    destruct (plotting_loop env df (col :: cols)
                (((h ++ [St Page Markdown "### 📈 Statistiques descriptives"])
                  ++ es1)
                 ++ [St Page Markdown
                       "### 📊 Distribution des variables numériques"]))
      as (_ & Hdone & _).
    destruct (for_each (col :: cols) (fun col _ => plot_column env df col) tt
                (((h ++ [St Page Markdown "### 📈 Statistiques descriptives"])
                  ++ es1)
                 ++ [St Page Markdown
                       "### 📊 Distribution des variables numériques"]))
      as [r es2].
    cbn [fst snd] in *. intros Hend c Hc.
    apply in_or_app. right. apply in_or_app. right. apply in_or_app. right.
    now apply Hdone.
  - intros Hok. rewrite (analysis_tab_run env df h Hdata). unfold analysis_events.
    apply (bind_val (emit (St Page Markdown "### 📈 Statistiques descriptives"))
             _ h (a := tt)
             (es := [St Page Markdown "### 📈 Statistiques descriptives"]) eq_refl).
    apply (bind_val (tab_step env (StWriteDescribe df)) _ _ (a := tt)
             (es := [StWriteDescribe df])).
    { unfold tab_step, call. now rewrite Hok. }
    destruct (Pd.numeric_columns df) as [|col cols]; [reflexivity|].
    apply (bind_val
             (emit (St Page Markdown "### 📊 Distribution des variables numériques"))
             _ _ (a := tt)
             (es := [St Page Markdown "### 📊 Distribution des variables numériques"])
             eq_refl).
    match goal with
    | |- for_each _ _ _ ?hist = _ =>
        destruct (plotting_loop env df (col :: cols) hist) as (_ & _ & Hexact)
    end.
    now apply Hexact.
Qed.

Lemma analysis_tab_visits_numeric_columns_only_witness :
  empty timed_dataset = false /\
  analysis_tab tree_world (Some timed_dataset) []
  = (Val tt,
     [ St Page Markdown "### 📈 Statistiques descriptives";
       StWriteDescribe timed_dataset;
       St Page Markdown "### 📊 Distribution des variables numériques";
       PltSubplots; SnsHistplot "n"; SnsBoxplot "n"; StPyplot "n";
       St Page Warning (not_numeric_warning "wait") ]) /\
  In (St Page Warning (not_numeric_warning "wait"))
     (events (analysis_tab tree_world (Some timed_dataset)) []) /\
  ~ In (St Page Warning (not_numeric_warning "who"))
       (events (analysis_tab tree_world (Some timed_dataset)) []).
Proof.
  split; [reflexivity|].
  destruct (analysis_tab_visits_numeric_columns_only tree_world timed_dataset []
              eq_refl)
    as (_ & _ & Hout & Hend & Hexact).
  split; [|split].
  - rewrite (Hexact (fun _ _ => eq_refl)). reflexivity.
  - apply (Hend eq_refl "wait"). right. now left.
  - apply (Hout (mkColumn "who" Other)).
    + right. right. now left.
    + simpl. intuition discriminate.
Defined.

(** C7, as stated, fails twice. The dataset of [tree_world] has the text
    column [who], and the analysis tab, which comes to its end, shows no
    warning for it. And where [describe] raises, the tab is left before
    its loop: the duration column [wait], which the loop would visit and
    which is not numeric, gets no warning either. *)
Lemma some_non_numeric_column_gets_no_warning :
  (result (analysis_tab tree_world (Some tree_dataset)) [] = Val tt /\
   ~ warns_every_non_numeric tree_world tree_dataset []) /\
  (In "wait" (Pd.numeric_columns timed_dataset) /\
   Pd.is_numeric_dtype_at timed_dataset "wait" = false /\
   analysis_tab undescribed_world (Some timed_dataset) []
   = (Halt (Raised (mkExn "ValueError" "cannot describe")),
      [ St Page Markdown "### 📈 Statistiques descriptives";
        StWriteDescribe timed_dataset ]) /\
   ~ warns_every_non_numeric undescribed_world timed_dataset []).
Proof.
  split; split.
  - reflexivity.
  - intros H. specialize (H (mkColumn "who" Other)).
    assert (Hin : In (St Page Warning (not_numeric_warning "who"))
                    (events (analysis_tab tree_world (Some tree_dataset)) [])).
    { apply H; [right; now left | reflexivity]. }
    vm_compute in Hin. intuition discriminate.
  - right. now left.
  - split; [reflexivity|]. split; [reflexivity|].
    intros H. specialize (H (mkColumn "wait" Timedelta)).
    assert (Hin : In (St Page Warning (not_numeric_warning "wait"))
                    (events (analysis_tab undescribed_world (Some timed_dataset))
                       [])).
    { apply H; [right; now left | reflexivity]. }
    vm_compute in Hin. intuition discriminate.
Qed.

(* ================================================================== *)
(** * Further properties of the script *)
(* ================================================================== *)

(* ------------------------------------------------------------------ *)
(** * [authenticate_drive], all paths *)
(* ------------------------------------------------------------------ *)

(** Case analysis on every answer [authenticate_drive] asks for. *)
Ltac auth_paths :=
  unfold result, events, authenticate_drive, try_except, bind, call, ret, emit;
  repeat match goal with
         | |- context [match ?x with _ => _ end] =>
             lazymatch x with
             | context [match _ with _ => _ end] => fail
             | _ => destruct x eqn:?
             end
         end;
  simpl.

(** X1. [authenticate_drive] never returns [None] in silence: when it
    returns [None] it has shown an error message and has constructed no
    session. *)
Theorem authenticate_drive_none_is_reported env h :
  result (authenticate_drive env) h = Val None ->
  (exists place text,
     In (St place Error text) (events (authenticate_drive env) h)) /\
  ~ In NewGoogleDrive (events (authenticate_drive env) h).
Proof.
  auth_paths; intros H; try discriminate H;
    (split; [do 2 eexists; simpl; eauto 10 | intuition discriminate]).
Qed.

Lemma authenticate_drive_none_is_reported_witness :
  result (authenticate_drive refused_world) [] = Val None /\
  (exists place text,
     In (St place Error text) (events (authenticate_drive refused_world) [])) /\
  ~ In NewGoogleDrive (events (authenticate_drive refused_world) []).
Proof.
  split; [reflexivity|].
  exact (authenticate_drive_none_is_reported refused_world [] eq_refl).
Defined.

(** X2. [authenticate_drive] takes one way only: the browser flow, a
    refresh and an authorization exclude one another. Credentials are
    written to [credentials.json] only after a browser flow: when the
    trace holds a save, it holds one only, and the event just before it is
    the browser flow. A refreshed token is never written back. *)
Theorem authenticate_drive_takes_one_way env h :
  (In (GAuth LocalWebserverAuth) (events (authenticate_drive env) h) ->
   ~ In (GAuth Refresh) (events (authenticate_drive env) h) /\
   ~ In (GAuth Authorize) (events (authenticate_drive env) h)) /\
  (In (GAuth SaveCredentialsFile) (events (authenticate_drive env) h) ->
   exists before after,
     events (authenticate_drive env) h
     = before ++ GAuth LocalWebserverAuth :: GAuth SaveCredentialsFile :: after /\
     ~ In (GAuth SaveCredentialsFile) before /\
     ~ In (GAuth LocalWebserverAuth) before /\
     ~ In (GAuth SaveCredentialsFile) after /\
     ~ In (GAuth LocalWebserverAuth) after) /\
  (In (GAuth Refresh) (events (authenticate_drive env) h) ->
   ~ In (GAuth Authorize) (events (authenticate_drive env) h) /\
   ~ In (GAuth SaveCredentialsFile) (events (authenticate_drive env) h)).
Proof.
  auth_paths;
    (split; [intuition discriminate|]);
    (split; [|intuition discriminate]);
    intros Hsave;
    try (exfalso; simpl in Hsave; intuition discriminate);
    match goal with
    | |- exists _ _, ?es = _ /\ _ => exists (until_flow es), (after_save es)
    end;
    simpl; intuition discriminate.
Qed.

Lemma authenticate_drive_takes_one_way_witness :
  In (GAuth SaveCredentialsFile) (events (authenticate_drive first_time_world) []) /\
  exists before after,
    events (authenticate_drive first_time_world) []
    = before ++ GAuth LocalWebserverAuth :: GAuth SaveCredentialsFile :: after /\
    ~ In (GAuth SaveCredentialsFile) before /\
    ~ In (GAuth LocalWebserverAuth) before /\
    ~ In (GAuth SaveCredentialsFile) after /\
    ~ In (GAuth LocalWebserverAuth) after.
Proof.
  assert (Hsave : In (GAuth SaveCredentialsFile)
                    (events (authenticate_drive first_time_world) [])).
  { vm_compute. auto 10. }
  split; [exact Hsave|].
  destruct (authenticate_drive_takes_one_way first_time_world [])
    as (_ & Horder & _).
  exact (Horder Hsave).
Defined.

(** X3. An exception leaves [authenticate_drive] only on the way of the
    saved credentials (loading, refreshing or authorizing them): the file
    [credentials.json] exists, nothing has been shown in the interface and
    no session has been constructed. The browser flow never raises. *)
Theorem authenticate_drive_raises_unreported env h e :
  result (authenticate_drive env) h = Halt (Raised e) ->
  os_path_exists env h "credentials.json" = true /\
  In (GAuth LoadCredentialsFile) (events (authenticate_drive env) h) /\
  ~ In (GAuth LocalWebserverAuth) (events (authenticate_drive env) h) /\
  (forall place what text,
     ~ In (St place what text) (events (authenticate_drive env) h)) /\
  ~ In NewGoogleDrive (events (authenticate_drive env) h).
Proof.
  auth_paths; intros H; try discriminate H;
    repeat split; try reflexivity; try (intros; intuition discriminate);
    simpl; auto.
Qed.

Lemma authenticate_drive_raises_unreported_witness :
  result (authenticate_drive unreadable_world) []
  = Halt (Raised (mkExn "InvalidCredentialsError" "bad file")) /\
  os_path_exists unreadable_world [] "credentials.json" = true /\
  In (GAuth LoadCredentialsFile) (events (authenticate_drive unreadable_world) []) /\
  ~ In (GAuth LocalWebserverAuth) (events (authenticate_drive unreadable_world) []) /\
  (forall place what text,
     ~ In (St place what text) (events (authenticate_drive unreadable_world) [])) /\
  ~ In NewGoogleDrive (events (authenticate_drive unreadable_world) []).
Proof.
  split; [reflexivity|].
  exact (authenticate_drive_raises_unreported unreadable_world []
           (mkExn "InvalidCredentialsError" "bad file") eq_refl).
Defined.

(** X4. Saved credentials: when [credentials.json] exists and holds
    credentials, the session is built from them if the token is still
    valid and from the refreshed ones if it has expired; the file
    [client_secrets.json] is not looked for and no browser flow starts. *)
Theorem authenticate_drive_saved_credentials env h c c' :
  (forall h', os_path_exists env h' "credentials.json" = true) ->
  (forall h', gauth_LoadCredentialsFile env h' = Ok (Some c)) ->
  (forall h', gauth_Refresh env h' c = Ok c') ->
  (forall h', gauth_Authorize env h' c = Ok tt) ->
  authenticate_drive env h
  = (Val (Some (mkDrive (if access_token_expired c then c' else c))),
     [ OsPathExists "credentials.json";
       GAuth LoadCredentialsFile;
       GAuth (if access_token_expired c then Refresh else Authorize);
       NewGoogleDrive ]).
Proof.
  intros Hfile Hload Hrefresh Hauth.
  unfold authenticate_drive, bind, call, ret, emit.
  rewrite Hfile, Hload. cbv beta iota.
  destruct (access_token_expired c).
  - rewrite Hrefresh. reflexivity.
  - rewrite Hauth. reflexivity.
Qed.

Lemma authenticate_drive_saved_credentials_witness :
  (forall h', os_path_exists expired_world h' "credentials.json" = true) /\
  (forall h', gauth_LoadCredentialsFile expired_world h' = Ok (Some stale)) /\
  authenticate_drive expired_world []
  = (Val (Some (mkDrive fresh)),
     [ OsPathExists "credentials.json"; GAuth LoadCredentialsFile;
       GAuth Refresh; NewGoogleDrive ]).
Proof.
  split; [reflexivity|]. split; [reflexivity|].
  apply (authenticate_drive_saved_credentials expired_world [] stale fresh);
    reflexivity.
Defined.

(** X5. First connection: without saved credentials and with a
    [client_secrets.json], what [authenticate_drive] does is decided by
    the three steps of the browser flow, each asked once and in order.
    It gives a session exactly when loading the client configuration,
    the flow in the browser and saving the credentials all succeed; the
    session is built, after the save, on the credentials the flow gave.
    When one of them raises, the steps after it are not taken, the error
    is shown with the text of the exception, and [None] is returned. *)
Theorem authenticate_drive_first_connection env h :
  os_path_exists env h "credentials.json" = false ->
  os_path_exists env (h ++ [OsPathExists "credentials.json"]) "client_secrets.json"
  = true ->
  authenticate_drive env h
  = match gauth_LoadClientConfigFile env (h ++ looked_for_files) with
    | Fails e =>
        (Val None, looked_for_files ++ [GAuth LoadClientConfigFile; auth_error e])
    | Ok _ =>
        match gauth_LocalWebserverAuth env
                (h ++ looked_for_files ++ [GAuth LoadClientConfigFile]) with
        | Fails e =>
            (Val None,
             looked_for_files
             ++ [GAuth LoadClientConfigFile; GAuth LocalWebserverAuth; auth_error e])
        | Ok c =>
            match gauth_SaveCredentialsFile env
                    (h ++ looked_for_files
                     ++ [GAuth LoadClientConfigFile; GAuth LocalWebserverAuth]) with
            | Fails e =>
                (Val None,
                 looked_for_files
                 ++ [GAuth LoadClientConfigFile; GAuth LocalWebserverAuth;
                     GAuth SaveCredentialsFile; auth_error e])
            | Ok _ =>
                (Val (Some (mkDrive c)),
                 looked_for_files
                 ++ [GAuth LoadClientConfigFile; GAuth LocalWebserverAuth;
                     GAuth SaveCredentialsFile; NewGoogleDrive])
            end
        end
    end /\
  forall c,
    result (authenticate_drive env) h = Val (Some (mkDrive c)) <->
    gauth_LoadClientConfigFile env (h ++ looked_for_files) = Ok tt /\
    gauth_LocalWebserverAuth env
      (h ++ looked_for_files ++ [GAuth LoadClientConfigFile]) = Ok c /\
    gauth_SaveCredentialsFile env
      (h ++ looked_for_files
       ++ [GAuth LoadClientConfigFile; GAuth LocalWebserverAuth]) = Ok tt.
Proof.
  intros Hcred Hsecrets.
  assert (Hrun : authenticate_drive env h
    = match gauth_LoadClientConfigFile env (h ++ looked_for_files) with
      | Fails e =>
          (Val None, looked_for_files ++ [GAuth LoadClientConfigFile; auth_error e])
      | Ok _ =>
          match gauth_LocalWebserverAuth env
                  (h ++ looked_for_files ++ [GAuth LoadClientConfigFile]) with
          | Fails e =>
              (Val None,
               looked_for_files
               ++ [GAuth LoadClientConfigFile; GAuth LocalWebserverAuth; auth_error e])
          | Ok c =>
              match gauth_SaveCredentialsFile env
                      (h ++ looked_for_files
                       ++ [GAuth LoadClientConfigFile; GAuth LocalWebserverAuth]) with
              | Fails e =>
                  (Val None,
                   looked_for_files
                   ++ [GAuth LoadClientConfigFile; GAuth LocalWebserverAuth;
                       GAuth SaveCredentialsFile; auth_error e])
              | Ok _ =>
                  (Val (Some (mkDrive c)),
                   looked_for_files
                   ++ [GAuth LoadClientConfigFile; GAuth LocalWebserverAuth;
                       GAuth SaveCredentialsFile; NewGoogleDrive])
              end
          end
      end).
  { unfold authenticate_drive, try_except, bind, call, ret, emit.
    rewrite Hcred. cbv beta iota. rewrite app_nil_r, Hsecrets.
    unfold looked_for_files, auth_error. rewrite <- !app_assoc. simpl app.
    destruct (gauth_LoadClientConfigFile env _) as [[]|e1]; cbv beta iota;
      [|reflexivity].
    rewrite <- !app_assoc. simpl app.
    destruct (gauth_LocalWebserverAuth env _) as [c|e2]; cbv beta iota;
      [|reflexivity].
    rewrite <- !app_assoc. simpl app.
    destruct (gauth_SaveCredentialsFile env _) as [[]|e3]; reflexivity. }
  split; [exact Hrun|].
  intros c. unfold result. rewrite Hrun.
  destruct (gauth_LoadClientConfigFile env _) as [[]|e1];
    [|simpl; split; [discriminate | intros [H _]; discriminate H]].
  destruct (gauth_LocalWebserverAuth env _) as [c'|e2];
    [|simpl; split; [discriminate | intros (_ & H & _); discriminate H]].
  destruct (gauth_SaveCredentialsFile env _) as [[]|e3];
    [|simpl; split; [discriminate | intros (_ & _ & H); discriminate H]].
  simpl. split.
  - intros H. injection H as ->. now repeat split.
  - intros (_ & H & _). injection H as ->. reflexivity.
Qed.

Lemma authenticate_drive_first_connection_witness :
  os_path_exists first_time_world [] "credentials.json" = false /\
  os_path_exists first_time_world [OsPathExists "credentials.json"]
    "client_secrets.json" = true /\
  authenticate_drive first_time_world []
  = (Val (Some (mkDrive fresh)),
     [ OsPathExists "credentials.json"; OsPathExists "client_secrets.json";
       GAuth LoadClientConfigFile; GAuth LocalWebserverAuth;
       GAuth SaveCredentialsFile; NewGoogleDrive ]) /\
  authenticate_drive refused_world []
  = (Val None,
     [ OsPathExists "credentials.json"; OsPathExists "client_secrets.json";
       GAuth LoadClientConfigFile; GAuth LocalWebserverAuth;
       St Page Error "❌ Erreur lors de l'authentification : no browser" ]).
Proof.
  split; [reflexivity|]. split; [reflexivity|]. split.
  - destruct (authenticate_drive_first_connection first_time_world []
                eq_refl eq_refl) as [Hrun _].
    rewrite Hrun. reflexivity.
  - destruct (authenticate_drive_first_connection refused_world []
                eq_refl eq_refl) as [Hrun _].
    rewrite Hrun. reflexivity.
Defined.

(* ------------------------------------------------------------------ *)
(** * [get_root_folders] and the folder select box *)
(* ------------------------------------------------------------------ *)

Lemma title_to_id_keys file_list k :
  In k (Dict.keys (title_to_id file_list)) <-> In k (map title file_list).
Proof.
  unfold title_to_id.
  assert (H : forall d,
            In k (Dict.keys
                    (fold_left (fun d f => Dict.set (title f) (id f) d) file_list d))
            <-> In k (Dict.keys d) \/ In k (map title file_list)).
  { induction file_list as [|f l IH]; intros d; simpl.
    - tauto.
    - rewrite IH, dict_keys_set. intuition congruence. }
  rewrite H. simpl. tauto.
Qed.

Lemma dict_get_of_key k d : In k (Dict.keys d) -> exists v, Dict.get k d = Some v.
Proof.
  unfold Dict.keys. induction d as [|[k0 v0] d IH]; simpl; intros H.
  - destruct H.
  - destruct (String.eqb k0 k) eqn:E; [now exists v0|].
    destruct H as [-> | H]; [now rewrite String.eqb_refl in E | now apply IH].
Qed.

Lemma dict_set_fresh k v d :
  ~ In k (Dict.keys d) -> Dict.set k v d = d ++ [(k, v)].
Proof.
  unfold Dict.keys. induction d as [|[k0 v0] d IH]; simpl; intros H.
  - reflexivity.
  - destruct (String.eqb k0 k) eqn:E.
    + apply String.eqb_eq in E. subst k0. exfalso. apply H. now left.
    + f_equal. apply IH. intros Hin. apply H. now right.
Qed.

Lemma title_to_id_distinct file_list :
  NoDup (map title file_list) ->
  title_to_id file_list = map (fun f => (title f, id f)) file_list.
Proof.
  unfold title_to_id.
  assert (H : forall d,
            NoDup (Dict.keys d ++ map title file_list) ->
            fold_left (fun d f => Dict.set (title f) (id f) d) file_list d
            = d ++ map (fun f => (title f, id f)) file_list).
  { induction file_list as [|f l IH]; intros d Hnd; simpl.
    - now rewrite app_nil_r.
    - simpl in Hnd. rewrite dict_set_fresh.
      + rewrite IH.
        * now rewrite <- app_assoc.
        * unfold Dict.keys in *. rewrite map_app, <- app_assoc. exact Hnd.
      + apply NoDup_remove_2 in Hnd. intros Hin. apply Hnd.
        apply in_or_app. now left. }
  intros Hnd. apply (H []). exact Hnd.
Qed.

(** X6. The dictionary [get_root_folders] returns has exactly the titles
    of the listed folders as keys, every key can be looked up, and the id
    found under a title is the id of a listed folder bearing that title. *)
Theorem get_root_folders_keys_and_values env drive h file_list :
  drive_GetList env folders_query = Ok file_list ->
  exists root_folders,
    result (get_root_folders env drive) h = Val root_folders /\
    (forall k, In k (Dict.keys root_folders) <-> In k (map title file_list)) /\
    (forall k, In k (Dict.keys root_folders) ->
       exists v, Dict.get k root_folders = Some v) /\
    (forall k v, Dict.get k root_folders = Some v ->
       exists f, In f file_list /\ title f = k /\ id f = v).
Proof.
  intros Hlist. exists (title_to_id file_list). split; [|split; [|split]].
  - unfold result, get_root_folders, bind, ListFile_GetList, call.
    now rewrite Hlist.
  - apply title_to_id_keys.
  - intros k. apply dict_get_of_key.
  - intros k v Hget. rewrite title_to_id_get in Hget.
    destruct (last_titled k file_list) as [f|] eqn:Hlast; [|discriminate].
    injection Hget as <-. unfold last_titled in Hlast.
    apply find_some in Hlast. destruct Hlast as [Hin Hk].
    exists f. split; [now apply in_rev | split; [now apply String.eqb_eq | reflexivity]].
Qed.

Lemma get_root_folders_keys_and_values_witness :
  drive_GetList twin_world folders_query = Ok twin_folders /\
  exists root_folders,
    result (get_root_folders twin_world a_session) [] = Val root_folders /\
    (forall k, In k (Dict.keys root_folders) <-> In k (map title twin_folders)) /\
    (forall k, In k (Dict.keys root_folders) ->
       exists v, Dict.get k root_folders = Some v) /\
    (forall k v, Dict.get k root_folders = Some v ->
       exists f, In f twin_folders /\ title f = k /\ id f = v).
Proof.
  split; [reflexivity|].
  exact (get_root_folders_keys_and_values twin_world a_session [] twin_folders
           eq_refl).
Defined.

(** X7. When the listed folders have pairwise distinct titles, the
    dictionary holds one item per folder, in the order of the listing, and
    every folder is found under its title: no folder is lost. *)
Theorem get_root_folders_distinct_titles env drive h file_list :
  drive_GetList env folders_query = Ok file_list ->
  NoDup (map title file_list) ->
  result (get_root_folders env drive) h
  = Val (map (fun f => (title f, id f)) file_list) /\
  Dict.keys (map (fun f => (title f, id f)) file_list) = map title file_list /\
  forall f, In f file_list ->
    Dict.get (title f) (map (fun f => (title f, id f)) file_list) = Some (id f).
Proof.
  intros Hlist Hnd.
  assert (Hdict : title_to_id file_list = map (fun f => (title f, id f)) file_list)
    by now apply title_to_id_distinct.
  split; [|split].
  - unfold result, get_root_folders, bind, ListFile_GetList, call.
    rewrite Hlist. simpl. now rewrite Hdict.
  - unfold Dict.keys. rewrite map_map. reflexivity.
  - intros f Hf. rewrite <- Hdict, title_to_id_get.
    destruct (in_split f file_list Hf) as (l1 & l2 & ->).
    rewrite (last_titled_after (title f) l1 f l2 eq_refl); [reflexivity|].
    intros x Hx Heq. rewrite map_app in Hnd. apply NoDup_app_remove_l in Hnd.
    simpl in Hnd. apply NoDup_cons_iff in Hnd. destruct Hnd as [Hnotin _].
    apply Hnotin. rewrite <- Heq. now apply in_map.
Qed.

Lemma get_root_folders_distinct_titles_witness :
  drive_GetList tree_world folders_query
  = Ok [ mkDriveFile "Rapports" "R" folder_mime None;
         mkDriveFile "Sub" "S" folder_mime None ] /\
  result (get_root_folders tree_world a_session) []
  = Val [("Rapports", "R"); ("Sub", "S")].
Proof.
  split; [reflexivity|].
  apply (get_root_folders_distinct_titles tree_world a_session []
           [ mkDriveFile "Rapports" "R" folder_mime None;
             mkDriveFile "Sub" "S" folder_mime None ]).
  - reflexivity.
  - repeat constructor; simpl; intuition discriminate.
Defined.

Lemma chosen_key_found (n : nat) (d : Dict.t) :
  d <> [] ->
  In (nth n (Dict.keys d) (hd "" (Dict.keys d))) (Dict.keys d) /\
  exists v, Dict.get (nth n (Dict.keys d) (hd "" (Dict.keys d))) d = Some v.
Proof.
  intros Hne.
  assert (Hin : In (nth n (Dict.keys d) (hd "" (Dict.keys d))) (Dict.keys d)).
  { destruct d as [|[k0 v0] d]; [congruence|].
    destruct (nth_in_or_default n (Dict.keys ((k0, v0) :: d))
                (hd "" (Dict.keys ((k0, v0) :: d)))) as [H | H]; [exact H|].
    rewrite H. now left. }
  split; [exact Hin | now apply dict_get_of_key].
Qed.

(** X8. Whatever the select box answers over the keys of a dictionary
    that is not empty, the look-up [root_folders[selected_folder]] of
    [main] finds a value: it cannot raise [KeyError]. *)
Theorem selected_folder_is_a_key env place label root_folders h :
  root_folders <> [] ->
  exists selected_folder folder_id,
    st_selectbox env place label (Dict.keys root_folders) h
    = (Val selected_folder,
       [StSelectbox place label (Dict.keys root_folders)]) /\
    In selected_folder (Dict.keys root_folders) /\
    Dict.get selected_folder root_folders = Some folder_id.
Proof.
  intros Hne.
  destruct (chosen_key_found (selectbox_choice env place label) root_folders Hne)
    as [Hin [v Hv]].
  exists (nth (selectbox_choice env place label) (Dict.keys root_folders)
            (hd "" (Dict.keys root_folders))), v.
  repeat split; assumption.
Qed.

Lemma selected_folder_is_a_key_witness :
  [("Data", "id-new"); ("Archive", "id-arch")] <> [] /\
  exists selected_folder folder_id,
    st_selectbox twin_world Sidebar "📁 Sélectionnez le dossier racine"
      (Dict.keys [("Data", "id-new"); ("Archive", "id-arch")]) []
    = (Val selected_folder,
       [StSelectbox Sidebar "📁 Sélectionnez le dossier racine"
          (Dict.keys [("Data", "id-new"); ("Archive", "id-arch")])]) /\
    In selected_folder (Dict.keys [("Data", "id-new"); ("Archive", "id-arch")]) /\
    Dict.get selected_folder [("Data", "id-new"); ("Archive", "id-arch")]
    = Some folder_id.
Proof.
  split; [discriminate|].
  apply (selected_folder_is_a_key twin_world Sidebar
           "📁 Sélectionnez le dossier racine"
           [("Data", "id-new"); ("Archive", "id-arch")] []).
  discriminate.
Defined.

(* ------------------------------------------------------------------ *)
(** * [find_files], whatever the account *)
(* ------------------------------------------------------------------ *)

(** X9. Whatever the account answers and however the folders are linked,
    [find_files] does nothing but list the content of folders and never
    asks for a rerun. An exception that leaves it is the answer to the
    last listing it asked for, or [RecursionError]; and it is left by an
    exception only where the folder is no tree of listings that answer
    with a depth the stack has room for. *)
Theorem find_files_only_lists limit env drive folder_id keyword extension h :
  Forall is_children_listing
    (events (find_files limit env drive folder_id keyword extension) h) /\
  result (find_files limit env drive folder_id keyword extension) h <> Halt Rerun /\
  (forall e,
     result (find_files limit env drive folder_id keyword extension) h
     = Halt (Raised e) ->
     e = recursion_error \/
     exists es' folder,
       events (find_files limit env drive folder_id keyword extension) h
       = es' ++ [DriveListFile (children_query folder)] /\
       drive_GetList env (children_query folder) = Fails e) /\
  (forall s,
     result (find_files limit env drive folder_id keyword extension) h = Halt s ->
     ~ FolderTree env folder_id limit).
Proof.
  destruct (recursive_search_listed_only limit env drive keyword extension
              folder_id "" [] h) as (Hall & Hrerun & Hraise).
  split; [exact Hall|]. split; [exact Hrerun|]. split; [exact Hraise|].
  intros s Hs Htree.
  destruct (search_folder env drive keyword extension limit folder_id "" Htree)
    as (out & ord & l & _ & _ & Hrun).
  unfold result, find_files in Hs. rewrite (Hrun limit (le_n limit)) in Hs.
  discriminate Hs.
Qed.

Lemma find_files_only_lists_witness :
  find_files 2 failing_world a_session "R" "tx_curr" ".xlsx" []
  = (Halt (Raised (mkExn "ApiRequestError" "backend error")),
     [DriveListFile (children_query "R")]) /\
  drive_GetList failing_world (children_query "R")
  = Fails (mkExn "ApiRequestError" "backend error") /\
  ~ FolderTree failing_world "R" 2 /\
  result (find_files 5 loop_world a_session "L" "tx_curr" ".xlsx") []
  = Halt (Raised recursion_error) /\
  ~ FolderTree loop_world "L" 5.
Proof.
  split; [reflexivity|]. split; [reflexivity|].
  destruct (find_files_only_lists 2 failing_world a_session "R" "tx_curr"
              ".xlsx" []) as (_ & _ & _ & Hfail).
  split; [apply (Hfail _ eq_refl)|].
  split; [reflexivity|].
  destruct (find_files_only_lists 5 loop_world a_session "L" "tx_curr"
              ".xlsx" []) as (_ & _ & _ & Hloop).
  apply (Hloop _ eq_refl).
Defined.

Lemma rooted_child current_path t :
  rooted current_path -> exists rest, current_path +++ "/" +++ t = "/" +++ rest.
Proof.
  intros [-> | [rest ->]].
  - now exists t.
  - now exists (rest +++ "/" +++ t).
Qed.

Lemma recursive_search_keeps limit env drive keyword extension :
  forall folder p found h out es,
    rooted p ->
    Forall (from_a_listing env keyword extension) found ->
    recursive_search limit env drive keyword extension folder p found h
    = (Val out, es) ->
    Forall (from_a_listing env keyword extension) out.
Proof.
  induction limit as [|limit IH]; intros folder p found h out es Hp Hfound Hrun.
  - discriminate Hrun.
  - rewrite recursive_search_S, bind_run in Hrun.
    unfold ListFile_GetList, call in Hrun.
    destruct (drive_GetList env (children_query folder)) as [l|e] eqn:Hl;
      [|discriminate].
    simpl in Hrun.
    destruct (for_each l (search_entry limit env drive keyword extension p) found
                (h ++ [DriveListFile (children_query folder)])) as [r es1] eqn:Hloop.
    simpl in Hrun. injection Hrun as -> _.
    assert (Hgen : forall l0 s h0 s' es0,
              (forall f, In f l0 -> In f l) ->
              Forall (from_a_listing env keyword extension) s ->
              for_each l0 (search_entry limit env drive keyword extension p) s h0
              = (Val s', es0) ->
              Forall (from_a_listing env keyword extension) s').
    { induction l0 as [|f l0 IHl]; intros s h0 s' es0 Hsub Hs Hrun; simpl in Hrun.
      - unfold ret in Hrun. now injection Hrun as <- _.
      - rewrite bind_run in Hrun.
        destruct (search_entry limit env drive keyword extension p f s h0)
          as [[a|st] es2] eqn:Hb; [|discriminate].
        destruct (for_each l0 (search_entry limit env drive keyword extension p) a
                    (h0 ++ es2)) as [r2 es3] eqn:Hrest.
        simpl in Hrun. injection Hrun as -> _.
        apply (IHl a (h0 ++ es2) s' es3); [intros g Hg; apply Hsub; now right| |exact Hrest].
        unfold search_entry in Hb. destruct (is_folder f) eqn:Hf.
        + apply (IH (id f) (p +++ "/" +++ title f) s h0 a es2); [|exact Hs|exact Hb].
          right. apply rooted_child. exact Hp.
        + destruct (title_matches env keyword extension (title f)) eqn:Hm;
            unfold ret in Hb; injection Hb as <- _; [|exact Hs].
          apply Forall_app. split; [exact Hs|]. constructor; [|constructor].
          split; [exact Hm|]. split; [now apply rooted_child|].
          exists folder, l, f, p. repeat split; try assumption.
          apply Hsub. now left. }
    apply (Hgen l found _ out es1 (fun f Hf => Hf) Hfound Hloop).
Qed.

(** X10. Whatever the account answers, every entry [find_files] returns
    is made from a file that some folder lists, that is no folder and
    passes the title test; its path begins with a slash and ends with a
    slash followed by the file's title. *)
Theorem find_files_entries_from_listings limit env drive folder_id
    keyword extension h found_files :
  result (find_files limit env drive folder_id keyword extension) h
  = Val found_files ->
  Forall (from_a_listing env keyword extension) found_files.
Proof.
  unfold result, find_files. intros Hrun.
  destruct (recursive_search limit env drive keyword extension folder_id "" [] h)
    as [r es] eqn:E. simpl in Hrun. subst r.
  apply (recursive_search_keeps limit env drive keyword extension
           folder_id "" [] h found_files es); [now left | constructor | exact E].
Qed.

Lemma find_files_entries_from_listings_witness :
  result (find_files 2 tree_world a_session "R" "tx_curr" ".xlsx") []
  = Val tree_found /\
  Forall (from_a_listing tree_world "tx_curr" ".xlsx") tree_found.
Proof.
  split; [reflexivity|].
  exact (find_files_entries_from_listings 2 tree_world a_session "R"
           "tx_curr" ".xlsx" [] tree_found eq_refl).
Defined.

Lemma flat_loop limit env drive keyword extension p l :
  (forall f, In f l -> is_folder f = false) ->
  forall found h,
    for_each l (search_entry limit env drive keyword extension p) found h
    = (Val (found ++ map (fun f => found_entry f (p +++ "/" +++ title f))
                       (filter (fun f => title_matches env keyword extension (title f)) l)),
       []).
Proof.
  induction l as [|f l IH]; intros Hflat found h; simpl.
  - unfold ret. now rewrite app_nil_r.
  - rewrite bind_run. unfold search_entry at 1.
    rewrite (Hflat f (or_introl eq_refl)).
    destruct (title_matches env keyword extension (title f)); unfold ret; simpl;
      rewrite IH by (intros g Hg; apply Hflat; now right); simpl.
    + now rewrite <- app_assoc.
    + reflexivity.
Qed.

(** X11. A folder without sub-folders: one listing, and the result is the
    list of the files that pass the title test, in the order of the
    listing, each with the path of a file at the root. *)
Theorem find_files_flat_folder limit env drive folder_id keyword extension h
    file_list :
  drive_GetList env (children_query folder_id) = Ok file_list ->
  (forall f, In f file_list -> is_folder f = false) ->
  find_files (S limit) env drive folder_id keyword extension h
  = (Val (map (fun f => found_entry f ("/" +++ title f))
            (filter (fun f => title_matches env keyword extension (title f)) file_list)),
     [DriveListFile (children_query folder_id)]).
Proof.
  intros Hl Hflat. unfold find_files.
  rewrite recursive_search_S, bind_run. unfold ListFile_GetList, call.
  rewrite Hl. simpl. now rewrite flat_loop.
Qed.

Lemma find_files_flat_folder_witness :
  drive_GetList bare_world (children_query "E")
  = Ok [mkDriveFile "readme.md" "r" "text/markdown" (Some "https://dl/r")] /\
  find_files 1 bare_world a_session "E" "read" ".md" []
  = (Val [mkFoundFile "readme.md" "/readme.md" "r" (Some "https://dl/r")],
     [DriveListFile (children_query "E")]).
Proof.
  split; [reflexivity|].
  apply (find_files_flat_folder 0 bare_world a_session "E" "read" ".md" []
           [mkDriveFile "readme.md" "r" "text/markdown" (Some "https://dl/r")]).
  - reflexivity.
  - intros f [<- | []]. reflexivity.
Defined.

(** X12. An empty keyword is contained in every title and an empty
    extension ends every title: with the keyword left empty the search on
    a finite tree the stack has room for returns exactly the files whose
    title ends with the extension, and with both empty it returns every
    file of the tree. ([''.lower()] is [''].) *)
Theorem find_files_empty_keyword env drive folder_id depth :
  str_lower env "" = "" ->
  FolderTree env folder_id depth ->
  (forall extension,
     exists found_files,
       (forall limit h, depth <= limit ->
          result (find_files limit env drive folder_id "" extension) h
          = Val found_files) /\
       forall ff,
         In ff found_files <->
         exists f fp,
           InSubtree env folder_id "" f fp /\ is_folder f = false /\
           PyStr.endswith (title f) extension = true /\ ff = found_entry f fp) /\
  exists every_file,
    (forall limit h, depth <= limit ->
       result (find_files limit env drive folder_id "" "") h = Val every_file) /\
    forall ff,
      In ff every_file <->
      exists f fp,
        InSubtree env folder_id "" f fp /\ is_folder f = false /\
        ff = found_entry f fp.
Proof.
  intros Hlower Htree.
  assert (Hany : forall extension,
            exists found_files,
              (forall limit h, depth <= limit ->
                 result (find_files limit env drive folder_id "" extension) h
                 = Val found_files) /\
              forall ff,
                In ff found_files <->
                exists f fp,
                  InSubtree env folder_id "" f fp /\ is_folder f = false /\
                  PyStr.endswith (title f) extension = true /\
                  ff = found_entry f fp).
  { intros extension.
    destruct (search_folder env drive "" extension depth folder_id "" Htree)
      as (out & ord & l & Hl & Hdf & Hrun).
    exists out. split.
    - intros limit h Hlimit. unfold result, find_files.
      now rewrite (Hrun limit Hlimit).
    - intros ff. rewrite (DepthFirst_found env "" extension l "" out ord Hdf).
      split; intros (f & fp & Hin & Hnf & Hm & ->); exists f, fp;
        (split; [now apply (InSubtree_Below env folder_id "" l f fp Hl)|]);
        (split; [exact Hnf|]); (split; [|reflexivity]).
      + unfold title_matches in Hm. now apply andb_true_iff in Hm.
      + unfold title_matches. now rewrite Hlower, contains_empty. }
  split; [exact Hany|].
  destruct (Hany "") as (every_file & Hrun & Hmem).
  exists every_file. split; [exact Hrun|].
  intros ff. rewrite Hmem. split.
  - intros (f & fp & Hin & Hnf & _ & Hff). now exists f, fp.
  - intros (f & fp & Hin & Hnf & Hff). exists f, fp.
    repeat split; try assumption. apply endswith_empty.
Qed.

Lemma find_files_empty_keyword_witness :
  str_lower tree_world "" = "" /\
  FolderTree tree_world "R" 2 /\
  result (find_files 2 tree_world a_session "R" "" ".xlsx") []
  = Val [ mkFoundFile "tx_curr_2020.xlsx" "/tx_curr_2020.xlsx" "f1"
            (Some "https://dl/f1");
          mkFoundFile "TX_CURR_2021.xlsx" "/Sub/TX_CURR_2021.xlsx" "f3"
            (Some "https://dl/f3");
          mkFoundFile "tx_curr.xlsx" "/Sub/tx_curr.xlsx" "f5" None ] /\
  result (find_files 2 tree_world a_session "R" "" "") []
  = Val [ mkFoundFile "tx_curr_2020.xlsx" "/tx_curr_2020.xlsx" "f1"
            (Some "https://dl/f1");
          mkFoundFile "TX_CURR_2021.xlsx" "/Sub/TX_CURR_2021.xlsx" "f3"
            (Some "https://dl/f3");
          mkFoundFile "DATA.XLSX" "/Sub/DATA.XLSX" "f4" (Some "https://dl/f4");
          mkFoundFile "tx_curr.xlsx" "/Sub/tx_curr.xlsx" "f5" None;
          mkFoundFile "notes.txt" "/notes.txt" "f2" (Some "https://dl/f2") ] /\
  exists every_file,
    (forall limit h, 2 <= limit ->
       result (find_files limit tree_world a_session "R" "" "") h
       = Val every_file) /\
    forall ff,
      In ff every_file <->
      exists f fp,
        InSubtree tree_world "R" "" f fp /\ is_folder f = false /\
        ff = found_entry f fp.
Proof.
  split; [reflexivity|]. split; [exact tree_world_is_tree|].
  split; [reflexivity|]. split; [reflexivity|].
  destruct (find_files_empty_keyword tree_world a_session "R" 2 eq_refl
              tree_world_is_tree) as [_ Hevery].
  exact Hevery.
Defined.

(* ------------------------------------------------------------------ *)
(** * [load_excel_files], request by request *)
(* ------------------------------------------------------------------ *)

Lemma parses_app t1 t2 : parses (t1 ++ t2) = parses t1 ++ parses t2.
Proof. apply flat_map_app. Qed.

Lemma download_event_more drive file_info rest e :
  download_event drive [file_info] e \/ download_event drive rest e ->
  download_event drive (file_info :: rest) e.
Proof.
  destruct e; simpl; try tauto.
  unfold wanted_urls. simpl. rewrite app_nil_r, in_app_iff. tauto.
Qed.

Lemma load_excel_step_events env drive file_info dfs h :
  Forall (download_event drive [file_info])
    (snd (load_excel_step env drive file_info dfs h)) /\
  length (parses (snd (load_excel_step env drive file_info dfs h)))
  <= length (http_requests (snd (load_excel_step env drive file_info dfs h))) /\
  forall dfs' es,
    load_excel_step env drive file_info dfs h = (Val dfs', es) ->
    exists new, dfs' = dfs ++ new /\ length new <= length (parses es).
Proof.
  unfold download_event, load_excel_step, wanted_urls, PyStr.falsy, bearer.
  simpl flat_map.
  destruct (download_url file_info) as [url|] eqn:Hurl.
  2:{ simpl. split; [repeat (apply Forall_cons || apply Forall_nil); simpl; auto|]. split; [lia|].
      intros dfs' es H. injection H as <- <-. exists []. now rewrite app_nil_r. }
  destruct (String.eqb url "") eqn:Hempty.
  { simpl. split; [repeat (apply Forall_cons || apply Forall_nil); simpl; auto|]. split; [lia|].
    intros dfs' es H. injection H as <- <-. exists []. now rewrite app_nil_r. }
  unfold try_except, bind, call.
  destruct (requests_get env h url _) as [response | e].
  - destruct (pd_read_excel env (content response)) as [df | e]; simpl.
    + split; [repeat (apply Forall_cons || apply Forall_nil); simpl; auto|]. split; [lia|].
      intros dfs' es H. injection H as <- <-. exists [df]. split; [reflexivity | simpl; lia].
    + split; [repeat (apply Forall_cons || apply Forall_nil); simpl; auto|]. split; [lia|].
      intros dfs' es H. injection H as <- <-. exists []. rewrite app_nil_r.
      split; [reflexivity | simpl; lia].
  - simpl. split; [repeat (apply Forall_cons || apply Forall_nil); simpl; auto|]. split; [lia|].
    intros dfs' es H. injection H as <- <-. exists []. rewrite app_nil_r.
    split; [reflexivity | simpl; lia].
Qed.

Lemma load_excel_loop_events env drive files_info :
  forall dfs h,
    Forall (download_event drive files_info)
      (snd (for_each files_info (load_excel_step env drive) dfs h)) /\
    length (parses (snd (for_each files_info (load_excel_step env drive) dfs h)))
    <= length (http_requests
                 (snd (for_each files_info (load_excel_step env drive) dfs h))) /\
    forall dfs' es,
      for_each files_info (load_excel_step env drive) dfs h = (Val dfs', es) ->
      exists new, dfs' = dfs ++ new /\ length new <= length (parses es).
Proof.
  induction files_info as [|file_info rest IH]; intros dfs h.
  - simpl. split; [constructor|]. split; [lia|].
    intros dfs' es H. injection H as <- <-. exists []. now rewrite app_nil_r.
  - simpl for_each. rewrite bind_run.
    destruct (load_excel_step_events env drive file_info dfs h)
      as (Hev1 & Hcount1 & Hval1).
    destruct (load_excel_step env drive file_info dfs h) as [[a|st] es1] eqn:Hstep.
    + destruct (IH a (h ++ es1)) as (Hev2 & Hcount2 & Hval2).
      destruct (Hval1 a es1 eq_refl) as (new1 & -> & Hlen1).
      simpl fst. simpl snd. split; [|split].
      * apply Forall_app. split.
        -- eapply Forall_impl; [|exact Hev1].
           intros e He. apply download_event_more. now left.
        -- eapply Forall_impl; [|exact Hev2].
           intros e He. apply download_event_more. now right.
      * rewrite parses_app, http_requests_app, !length_app. simpl in *. lia.
      * intros dfs' es H.
        destruct (for_each rest (load_excel_step env drive) (dfs ++ new1) (h ++ es1))
          as [r es2] eqn:Hrest.
        simpl in H. injection H as -> <-.
        destruct (Hval2 dfs' es2 eq_refl) as (new2 & -> & Hlen2).
        exists (new1 ++ new2). split; [now rewrite app_assoc|].
        rewrite parses_app, !length_app. lia.
    + simpl. split; [|split].
      * eapply Forall_impl; [|exact Hev1].
        intros e He. apply download_event_more. now left.
      * exact Hcount1.
      * intros dfs' es H. discriminate H.
Qed.

(** X13. [load_excel_files] touches nothing but the network and the
    parser and shows nothing but warnings: each of its events is a request
    to the URL of one of the files, carrying the authorization header
    built from the token of the session and no other header, or a parse,
    or a warning. A content is parsed only after a request and a frame
    comes only from a parse. *)
Theorem load_excel_files_requests_and_parses env drive files_info h :
  Forall (download_event drive files_info)
    (events (load_excel_files env drive files_info) h) /\
  (forall dfs,
     result (load_excel_files env drive files_info) h = Val dfs ->
     length dfs
     <= length (parses (events (load_excel_files env drive files_info) h))) /\
  length (parses (events (load_excel_files env drive files_info) h))
  <= length (http_requests (events (load_excel_files env drive files_info) h)).
Proof.
  rewrite load_excel_files_loop. unfold result, events.
  destruct (load_excel_loop_events env drive files_info [] h)
    as (Hev & Hcount & Hval).
  split; [exact Hev|]. split; [|exact Hcount].
  intros dfs Hrun.
  destruct (for_each files_info (load_excel_step env drive) [] h) as [r es] eqn:E.
  simpl in Hrun. subst r.
  destruct (Hval dfs es eq_refl) as (new & -> & Hlen). exact Hlen.
Qed.

Lemma wanted_urls_cons file_info rest :
  wanted_urls (file_info :: rest) = wanted_urls [file_info] ++ wanted_urls rest.
Proof. unfold wanted_urls. simpl. now rewrite app_nil_r. Qed.

Lemma without_url_cons file_info rest :
  without_url (file_info :: rest) = without_url [file_info] ++ without_url rest.
Proof.
  unfold without_url. simpl.
  now destruct (PyStr.falsy (download_url file_info)).
Qed.

Lemma load_excel_step_good env drive respond parse file_info dfs h :
  (forall h' url, requests_get env h' url (bearer drive) = Ok (respond url)) ->
  (forall bytes, pd_read_excel env bytes = Ok (parse bytes)) ->
  exists es,
    load_excel_step env drive file_info dfs h
    = (Val (dfs ++ map (fun url => parse (content (respond url)))
                     (wanted_urls [file_info])), es) /\
    warnings es
    = map (fun file_info => "⚠️ Impossible de télécharger " +++ name file_info)
        (without_url [file_info]).
Proof.
  intros Hget Hparse.
  unfold load_excel_step, wanted_urls, without_url, PyStr.falsy.
  simpl flat_map. simpl filter.
  destruct (download_url file_info) as [url|]; [destruct (String.eqb url "")|].
  - eexists. split; [simpl; rewrite app_nil_r; reflexivity | reflexivity].
  - unfold try_except, bind, call. rewrite Hget, Hparse.
    eexists. split; reflexivity.
  - eexists. split; [simpl; rewrite app_nil_r; reflexivity | reflexivity].
Qed.

Lemma load_excel_loop_all_good env drive respond parse files_info :
  (forall h url, requests_get env h url (bearer drive) = Ok (respond url)) ->
  (forall bytes, pd_read_excel env bytes = Ok (parse bytes)) ->
  forall dfs h,
    fst (for_each files_info (load_excel_step env drive) dfs h)
    = Val (dfs ++ map (fun url => parse (content (respond url)))
                    (wanted_urls files_info)) /\
    warnings (snd (for_each files_info (load_excel_step env drive) dfs h))
    = map (fun file_info => "⚠️ Impossible de télécharger " +++ name file_info)
        (without_url files_info).
Proof.
  intros Hget Hparse. induction files_info as [|file_info rest IH]; intros dfs h.
  - simpl. now rewrite app_nil_r.
  - simpl for_each. rewrite bind_run.
    destruct (load_excel_step_good env drive respond parse file_info dfs h
                Hget Hparse) as (es & Hstep & Hwarn).
    rewrite Hstep. cbn [fst snd].
    destruct (IH (dfs ++ map (fun url => parse (content (respond url)))
                          (wanted_urls [file_info])) (h ++ es)) as [Hres Hwarn2].
    rewrite Hres, warnings_app, Hwarn, Hwarn2.
    rewrite (wanted_urls_cons file_info rest), (without_url_cons file_info rest).
    rewrite !map_app. now rewrite <- app_assoc.
Qed.

(** X14. When the network answers every request and every content parses,
    [load_excel_files] returns one frame for each file that has a
    download URL, in the order of the files, parsed from the content of
    its response; the only warnings are those of the files without URL,
    in order. *)
Theorem load_excel_files_all_loaded env drive respond parse files_info h :
  (forall h' url, requests_get env h' url (bearer drive) = Ok (respond url)) ->
  (forall bytes, pd_read_excel env bytes = Ok (parse bytes)) ->
  result (load_excel_files env drive files_info) h
  = Val (map (fun url => parse (content (respond url))) (wanted_urls files_info)) /\
  warnings (events (load_excel_files env drive files_info) h)
  = map (fun file_info => "⚠️ Impossible de télécharger " +++ name file_info)
      (without_url files_info).
Proof.
  intros Hget Hparse. rewrite load_excel_files_loop. unfold result, events.
  exact (load_excel_loop_all_good env drive respond parse files_info
           Hget Hparse [] h).
Qed.

Lemma load_excel_files_all_loaded_witness :
  result (load_excel_files tree_world a_session tree_found) [] = Val tree_frames /\
  warnings (events (load_excel_files tree_world a_session tree_found) [])
  = ["⚠️ Impossible de télécharger tx_curr.xlsx"].
Proof.
  destruct (load_excel_files_all_loaded tree_world a_session
              (fun url => mkResponse ("sheet:" +++ url))
              (fun bytes =>
                 mkDataFrame [mkColumn "n" Numeric; mkColumn "who" Other] [0%Z]
                   [[Some "1"; Some bytes]])
              tree_found [] (fun _ _ => eq_refl) (fun _ => eq_refl))
    as [Hres Hwarn].
  split; [exact Hres | exact Hwarn].
Defined.

Lemma load_excel_step_fail env drive e file_info dfs h :
  (forall h' url, requests_get env h' url (bearer drive) = Fails e) ->
  exists es,
    load_excel_step env drive file_info dfs h = (Val dfs, es) /\
    warnings es = [failure_warning e file_info] /\
    parses es = [].
Proof.
  intros Hget. unfold load_excel_step, failure_warning.
  destruct (PyStr.falsy (download_url file_info)).
  - eexists. split; [reflexivity|]. split; reflexivity.
  - unfold try_except, bind, call. rewrite Hget.
    eexists. split; [reflexivity|]. split; reflexivity.
Qed.

Lemma load_excel_loop_all_fail env drive e files_info :
  (forall h url, requests_get env h url (bearer drive) = Fails e) ->
  forall dfs h,
    fst (for_each files_info (load_excel_step env drive) dfs h) = Val dfs /\
    warnings (snd (for_each files_info (load_excel_step env drive) dfs h))
    = map (failure_warning e) files_info /\
    parses (snd (for_each files_info (load_excel_step env drive) dfs h)) = [].
Proof.
  intros Hget. induction files_info as [|file_info rest IH]; intros dfs h.
  - now simpl.
  - simpl for_each. rewrite bind_run.
    destruct (load_excel_step_fail env drive e file_info dfs h Hget)
      as (es & Hstep & Hwarn & Hparse).
    rewrite Hstep. cbn [fst snd].
    destruct (IH dfs (h ++ es)) as (Hres & Hwarn2 & Hparse2).
    rewrite Hres, warnings_app, parses_app, Hwarn, Hwarn2, Hparse, Hparse2.
    now simpl.
Qed.

(** X15. When every request fails with an exception [e],
    [load_excel_files] returns the empty list, parses nothing, and shows
    one warning per file in the order of the files: that the file cannot
    be downloaded when it has no URL, else that its loading failed, with
    the text of [e]. *)
Theorem load_excel_files_network_down env drive e files_info h :
  (forall h' url, requests_get env h' url (bearer drive) = Fails e) ->
  result (load_excel_files env drive files_info) h = Val [] /\
  warnings (events (load_excel_files env drive files_info) h)
  = map (failure_warning e) files_info /\
  parses (events (load_excel_files env drive files_info) h) = [].
Proof.
  intros Hget. rewrite load_excel_files_loop. unfold result, events.
  exact (load_excel_loop_all_fail env drive e files_info Hget [] h).
Qed.

Lemma load_excel_files_network_down_witness :
  result (load_excel_files offline_world a_session tree_found) [] = Val [] /\
  warnings (events (load_excel_files offline_world a_session tree_found) [])
  = [ "⚠️ Échec du chargement de tx_curr_2020.xlsx : unreachable";
      "⚠️ Échec du chargement de TX_CURR_2021.xlsx : unreachable";
      "⚠️ Impossible de télécharger tx_curr.xlsx" ] /\
  parses (events (load_excel_files offline_world a_session tree_found) []) = [].
Proof.
  exact (load_excel_files_network_down offline_world a_session
           (mkExn "ConnectionError" "unreachable") tree_found []
           (fun _ _ => eq_refl)).
Defined.

(* ------------------------------------------------------------------ *)
(** * [load_data], whatever the search gives *)
(* ------------------------------------------------------------------ *)

Lemma load_data_search_stops limit env drive folder_id keyword extension h s es :
  find_files limit env drive folder_id keyword extension h = (Halt s, es) ->
  load_data limit env drive folder_id keyword extension h
  = (Halt s, StSpinner search_spinner :: es ++ [StSpinnerDone]).
Proof.
  intros Hfind. unfold load_data.
  rewrite (find_files_history _ _ _ _ _ _ h (h ++ [StSpinner search_spinner])) in Hfind.
  apply bind_halt. now apply with_spinner_run.
Qed.

(** X16. [load_data] fetches, parses and concatenates only after the
    search has returned at least one file. When the search stops with an
    exception of the Drive, the same exception leaves [load_data], once
    the spinner is closed and without any download. *)
Theorem load_data_downloads_only_found_files limit env drive folder_id
    keyword extension h :
  (forall e,
     In e (events (load_data limit env drive folder_id keyword extension) h) ->
     is_data_event e = true ->
     exists file files,
       result (find_files limit env drive folder_id keyword extension) h
       = Val (file :: files)) /\
  (forall s,
     result (find_files limit env drive folder_id keyword extension) h = Halt s ->
     result (load_data limit env drive folder_id keyword extension) h = Halt s /\
     events (load_data limit env drive folder_id keyword extension) h
     = StSpinner search_spinner
       :: events (find_files limit env drive folder_id keyword extension) h
       ++ [StSpinnerDone]).
Proof.
  unfold result, events.
  pose proof (recursive_search_only_lists limit env drive keyword extension
                folder_id "" [] h) as Hquiet.
  fold (find_files limit env drive folder_id keyword extension) in Hquiet.
  destruct (find_files limit env drive folder_id keyword extension h)
    as [[[|file files]|s] es] eqn:Hfind; simpl in Hquiet |- *.
  - split; [|intros s Hs; discriminate Hs].
    rewrite (load_data_nothing _ _ _ _ _ _ _ _ Hfind). simpl.
    intros e [<- | He] Hdata; [discriminate Hdata|].
    apply in_app_or in He. destruct He as [He | [<- | []]]; [|discriminate Hdata].
    rewrite Forall_forall in Hquiet. rewrite (Hquiet e He) in Hdata. discriminate.
  - split; [|intros s Hs; discriminate Hs]. intros e _ _. now exists file, files.
  - rewrite (load_data_search_stops _ _ _ _ _ _ _ _ _ Hfind). simpl. split.
    + intros e [<- | He] Hdata; [discriminate Hdata|].
      apply in_app_or in He. destruct He as [He | [<- | []]]; [|discriminate Hdata].
      rewrite Forall_forall in Hquiet. rewrite (Hquiet e He) in Hdata. discriminate.
    + intros s' Hs. injection Hs as <-. now split.
Qed.

(* ------------------------------------------------------------------ *)
(** * [main], from the session to the search *)
(* ------------------------------------------------------------------ *)

Lemma authenticate_drive_quiet env h :
  Forall is_quiet (events (authenticate_drive env) h).
Proof.
  auth_paths; repeat (apply Forall_cons || apply Forall_nil); now split.
Qed.

Lemma authenticate_drive_session_event env h drive :
  result (authenticate_drive env) h = Val (Some drive) ->
  In NewGoogleDrive (events (authenticate_drive env) h).
Proof.
  auth_paths; intros H; try discriminate H; simpl; auto 10.
Qed.

Lemma title_to_id_not_empty file_list :
  file_list <> [] -> title_to_id file_list <> [].
Proof.
  intros Hne Hempty. destruct file_list as [|f l]; [congruence|].
  assert (Hin : In (title f) (Dict.keys (title_to_id (f :: l)))).
  { apply title_to_id_keys. now left. }
  rewrite Hempty in Hin. destruct Hin.
Qed.

Lemma get_root_folders_in_spinner env drive text h file_list :
  drive_GetList env folders_query = Ok file_list ->
  with_spinner text (get_root_folders env drive) h
  = (Val (title_to_id file_list),
     [StSpinner text; DriveListFile folders_query; StSpinnerDone]).
Proof.
  intros Hlist. unfold with_spinner, get_root_folders, bind, ListFile_GetList, call.
  now rewrite Hlist.
Qed.

Lemma nth_single (n : nat) (x : string) : nth n [x] x = x.
Proof. now destruct n as [|[|n]]. Qed.

Lemma main_signed_in limit env h drive es_auth file_list folder_id :
  authenticate_drive env (h ++ [St Sidebar Header "🔐 Authentification"])
  = (Val (Some drive), es_auth) ->
  drive_GetList env folders_query = Ok file_list ->
  file_list <> [] ->
  Dict.get (selected_folder_of env (title_to_id file_list)) (title_to_id file_list)
  = Some folder_id ->
  main limit env h
  = if button_pressed env Sidebar search_button then
      (Halt Rerun, main_prelude es_auth (title_to_id file_list))
    else if session_run_search env then
      (fst (run_search limit env drive
              (selected_folder_of env (title_to_id file_list)) folder_id
              (keyword_of env) ".xlsx"
              (h ++ main_prelude es_auth (title_to_id file_list))),
       main_prelude es_auth (title_to_id file_list)
       ++ snd (run_search limit env drive
                 (selected_folder_of env (title_to_id file_list)) folder_id
                 (keyword_of env) ".xlsx"
                 (h ++ main_prelude es_auth (title_to_id file_list))))
    else (Val tt, main_prelude es_auth (title_to_id file_list)).
Proof.
  intros Hauth Hlist Hne Hget.
  pose proof (title_to_id_not_empty file_list Hne) as Hdict.
  unfold main, bind. unfold emit at 1. rewrite Hauth.
  unfold emit at 1.
  rewrite (get_root_folders_in_spinner env drive _ _ file_list Hlist).
  destruct (title_to_id file_list) as [|item items] eqn:Hd; [congruence|].
  rewrite <- Hd in *. clear Hd item items.
  unfold st_selectbox, st_text_input, st_button, bind, emit, ret.
  fold folder_box. fold (selected_folder_of env (title_to_id file_list)).
  rewrite Hget. fold search_button. fold keyword_box. fold (keyword_of env).
  cbn [hd]. rewrite nth_single.
  match goal with
  | |- context [(if _ then _ else _) ?hist] =>
      replace hist with (h ++ main_prelude es_auth (title_to_id file_list))
        by (unfold main_prelude; rewrite !app_nil_r, <- !app_assoc; reflexivity)
  end.
  destruct (button_pressed env Sidebar search_button);
    [|destruct (session_run_search env);
      [destruct (run_search limit env drive _ _ _ _ _) as [r es]|]];
    unfold halt, main_prelude; cbn [fst snd]; f_equal; simpl;
    rewrite ?app_nil_r, <- ?app_assoc; reflexivity.
Qed.

(** X18. Signed in, on an account with folders, [main] searches nothing
    unless it is asked to: when the search button is pressed it stores the
    choices and asks for a rerun, and when the button is not pressed and
    the session holds no search flag it ends; either way it has only drawn
    the sidebar, after one listing of the folders. *)
Theorem main_waits_for_the_search limit env h drive es_auth file_list :
  authenticate_drive env (h ++ [St Sidebar Header "🔐 Authentification"])
  = (Val (Some drive), es_auth) ->
  drive_GetList env folders_query = Ok file_list ->
  file_list <> [] ->
  button_pressed env Sidebar search_button = true
  \/ session_run_search env = false ->
  main limit env h
  = (if button_pressed env Sidebar search_button then Halt Rerun else Val tt,
     main_prelude es_auth (title_to_id file_list)).
Proof.
  intros Hauth Hlist Hne Hidle.
  destruct (chosen_key_found (selectbox_choice env Sidebar folder_box)
              (title_to_id file_list) (title_to_id_not_empty file_list Hne))
    as [_ [folder_id Hget]].
  rewrite (main_signed_in limit env h drive es_auth file_list folder_id
             Hauth Hlist Hne Hget).
  destruct (button_pressed env Sidebar search_button); [reflexivity|].
  destruct Hidle as [H | H]; [discriminate H | now rewrite H].
Qed.

Lemma main_waits_for_the_search_witness :
  main 2 pressed_world []
  = (Halt Rerun,
     main_prelude
       [ OsPathExists "credentials.json"; GAuth LoadCredentialsFile;
         GAuth Authorize; NewGoogleDrive ]
       [("Rapports", "R"); ("Sub", "S")]).
Proof.
  apply (main_waits_for_the_search 2 pressed_world [] a_session
           [ OsPathExists "credentials.json"; GAuth LoadCredentialsFile;
             GAuth Authorize; NewGoogleDrive ]
           [ mkDriveFile "Rapports" "R" folder_mime None;
             mkDriveFile "Sub" "S" folder_mime None ]).
  - reflexivity.
  - reflexivity.
  - discriminate.
  - left. reflexivity.
Defined.

(** X19. Signed in, with the search flag set and the button not pressed,
    [main] runs the search on the folder that bears the selected title
    (its id is the one of a listed folder with that title), with the
    keyword typed in the text input ([tx_curr] when nothing was typed) and
    with the extension [.xlsx], whatever the extension box answers. *)
Theorem main_searches_the_selected_folder limit env h drive es_auth file_list :
  authenticate_drive env (h ++ [St Sidebar Header "🔐 Authentification"])
  = (Val (Some drive), es_auth) ->
  drive_GetList env folders_query = Ok file_list ->
  file_list <> [] ->
  button_pressed env Sidebar search_button = false ->
  session_run_search env = true ->
  exists f,
    In f file_list /\
    title f = selected_folder_of env (title_to_id file_list) /\
    main limit env h
    = (fst (run_search limit env drive (title f) (id f) (keyword_of env) ".xlsx"
              (h ++ main_prelude es_auth (title_to_id file_list))),
       main_prelude es_auth (title_to_id file_list)
       ++ snd (run_search limit env drive (title f) (id f) (keyword_of env) ".xlsx"
                 (h ++ main_prelude es_auth (title_to_id file_list)))).
Proof.
  intros Hauth Hlist Hne Hbutton Hflag.
  destruct (chosen_key_found (selectbox_choice env Sidebar folder_box)
              (title_to_id file_list) (title_to_id_not_empty file_list Hne))
    as [_ [folder_id Hget]].
  fold (selected_folder_of env (title_to_id file_list)) in Hget.
  pose proof Hget as Hlast. rewrite title_to_id_get in Hlast.
  destruct (last_titled (selected_folder_of env (title_to_id file_list)) file_list)
    as [f|] eqn:Hf; [|discriminate Hlast].
  injection Hlast as <-. unfold last_titled in Hf. apply find_some in Hf.
  destruct Hf as [Hin Htitle]. apply in_rev in Hin. apply String.eqb_eq in Htitle.
  exists f. split; [exact Hin|]. split; [exact Htitle|].
  rewrite (main_signed_in limit env h drive es_auth file_list (id f)
             Hauth Hlist Hne Hget).
  now rewrite Hbutton, Hflag, Htitle.
Qed.

Lemma main_searches_the_selected_folder_witness :
  exists f,
    In f [ mkDriveFile "Rapports" "R" folder_mime None;
           mkDriveFile "Sub" "S" folder_mime None ] /\
    title f = selected_folder_of (signed_in tree_world)
                (title_to_id [ mkDriveFile "Rapports" "R" folder_mime None;
                               mkDriveFile "Sub" "S" folder_mime None ]) /\
    result (main 2 (signed_in tree_world)) []
    = fst (run_search 2 (signed_in tree_world) a_session (title f) (id f)
             "tx_curr" ".xlsx"
             (main_prelude
                [ OsPathExists "credentials.json"; GAuth LoadCredentialsFile;
                  GAuth Authorize; NewGoogleDrive ]
                [("Rapports", "R"); ("Sub", "S")])).
Proof.
  destruct (main_searches_the_selected_folder 2 (signed_in tree_world) []
              a_session
              [ OsPathExists "credentials.json"; GAuth LoadCredentialsFile;
                GAuth Authorize; NewGoogleDrive ]
              [ mkDriveFile "Rapports" "R" folder_mime None;
                mkDriveFile "Sub" "S" folder_mime None ])
    as (f & Hin & Htitle & Hrun); try reflexivity; try discriminate.
  exists f. split; [exact Hin|]. split; [exact Htitle|].
  unfold result. rewrite Hrun. reflexivity.
Defined.

(** X20. Signed in on an account without folders, [main] shows the
    warning that no folder was found and ends: it draws no select box and
    searches nothing. *)
Theorem main_without_folders limit env h drive es_auth :
  authenticate_drive env (h ++ [St Sidebar Header "🔐 Authentification"])
  = (Val (Some drive), es_auth) ->
  drive_GetList env folders_query = Ok [] ->
  main limit env h
  = (Val tt,
     St Sidebar Header "🔐 Authentification"
     :: es_auth
     ++ [ St Sidebar Success "✅ Connecté à Google Drive";
          StSpinner "📂 Chargement des dossiers principaux...";
          DriveListFile folders_query;
          StSpinnerDone;
          St Page Warning "⚠️ Aucun dossier trouvé dans votre Google Drive." ]).
Proof.
  intros Hauth Hlist.
  unfold main, bind. unfold emit at 1. rewrite Hauth. unfold emit at 1.
  rewrite (get_root_folders_in_spinner env drive _ _ [] Hlist).
  reflexivity.
Qed.

Lemma main_without_folders_witness :
  drive_GetList empty_world folders_query = Ok [] /\
  main 2 empty_world []
  = (Val tt,
     [ St Sidebar Header "🔐 Authentification";
       OsPathExists "credentials.json"; GAuth LoadCredentialsFile;
       GAuth Authorize; NewGoogleDrive;
       St Sidebar Success "✅ Connecté à Google Drive";
       StSpinner "📂 Chargement des dossiers principaux...";
       DriveListFile folders_query;
       StSpinnerDone;
       St Page Warning "⚠️ Aucun dossier trouvé dans votre Google Drive." ]).
Proof.
  split; [reflexivity|].
  apply (main_without_folders 2 empty_world [] a_session
           [ OsPathExists "credentials.json"; GAuth LoadCredentialsFile;
             GAuth Authorize; NewGoogleDrive ]); reflexivity.
Defined.

(** X21. An error of the Drive while the folders are listed is not
    caught: it leaves [get_root_folders] and [main], after the spinner is
    closed, and nothing is shown about it. *)
Theorem main_folder_listing_fails limit env h drive es_auth e :
  authenticate_drive env (h ++ [St Sidebar Header "🔐 Authentification"])
  = (Val (Some drive), es_auth) ->
  drive_GetList env folders_query = Fails e ->
  main limit env h
  = (Halt (Raised e),
     St Sidebar Header "🔐 Authentification"
     :: es_auth
     ++ [ St Sidebar Success "✅ Connecté à Google Drive";
          StSpinner "📂 Chargement des dossiers principaux...";
          DriveListFile folders_query;
          StSpinnerDone ]).
Proof.
  intros Hauth Hlist.
  unfold main, bind. unfold emit at 1. rewrite Hauth. unfold emit at 1.
  unfold with_spinner, get_root_folders, bind, ListFile_GetList, call.
  rewrite Hlist. reflexivity.
Qed.

Lemma main_folder_listing_fails_witness :
  drive_GetList failing_world folders_query
  = Fails (mkExn "ApiRequestError" "backend error") /\
  result (main 2 failing_world) []
  = Halt (Raised (mkExn "ApiRequestError" "backend error")).
Proof.
  split; [reflexivity|].
  unfold result.
  rewrite (main_folder_listing_fails 2 failing_world [] a_session
             [ OsPathExists "credentials.json"; GAuth LoadCredentialsFile;
               GAuth Authorize; NewGoogleDrive ]
             (mkExn "ApiRequestError" "backend error") eq_refl eq_refl).
  reflexivity.
Defined.

Lemma main_quiet_without_session limit env h :
  (forall drive,
     result (authenticate_drive env)
       (h ++ [St Sidebar Header "🔐 Authentification"]) <> Val (Some drive)) ->
  Forall is_quiet (events (main limit env) h).
Proof.
  intros Hnone. unfold events, main.
  apply bind_events_forall; [repeat constructor|].
  intros [] es Hemit. injection Hemit as <-.
  apply bind_events_forall; [apply authenticate_drive_quiet|].
  intros [drive|] es Hauth.
  - exfalso. apply (Hnone drive). unfold result. now rewrite Hauth.
  - apply bind_events_forall; [repeat constructor|].
    intros pressed es' _. destruct pressed; [|constructor].
    apply bind_events_forall; [apply authenticate_drive_quiet|].
    intros [d|] es'' _; constructor.
Qed.

Lemma starts_with_the_quiet {A} (P : A -> Prop) (a b : list A) :
  forall before x after,
    Forall P a -> ~ P x -> a ++ b = before ++ x :: after ->
    exists c, before = a ++ c.
Proof.
  induction a as [|y a IH]; intros before x after Ha Hx Heq.
  - now exists before.
  - inversion Ha as [|? ? Hy Ha']; subst.
    destruct before as [|z before]; simpl in Heq.
    + injection Heq as -> _. contradiction.
    + injection Heq as <- Heq.
      destruct (IH before x after Ha' Hx Heq) as [c ->]. now exists c.
Qed.

Lemma listing_is_not_quiet q : ~ is_quiet (DriveListFile q).
Proof. intros [H _]. discriminate H. Qed.

(** X22. [main] never lists anything on the Drive before a session has
    been constructed: wherever a listing stands in its trace, the
    construction of the session stands before it. *)
Theorem main_lists_only_with_a_session limit env h before q after :
  events (main limit env) h = before ++ DriveListFile q :: after ->
  In NewGoogleDrive before.
Proof.
  intros Hsplit.
  destruct (authenticate_drive env (h ++ [St Sidebar Header "🔐 Authentification"]))
    as [[[drive|]|s] es] eqn:Hauth.
  - pose proof (authenticate_drive_session_event env
                  (h ++ [St Sidebar Header "🔐 Authentification"]) drive)
      as Hsession.
    pose proof (authenticate_drive_quiet env
                  (h ++ [St Sidebar Header "🔐 Authentification"])) as Hquiet.
    unfold result, events in Hsession, Hquiet. rewrite Hauth in Hsession, Hquiet.
    specialize (Hsession eq_refl). simpl in Hquiet.
    unfold events, main in Hsplit. rewrite bind_run in Hsplit.
    unfold emit at 1 in Hsplit. cbn [fst snd] in Hsplit.
    rewrite bind_run, Hauth in Hsplit. cbn [fst snd] in Hsplit.
    rewrite app_assoc in Hsplit.
    assert (Hstart : Forall is_quiet
                       ([St Sidebar Header "🔐 Authentification"] ++ es)).
    { apply Forall_app. split; [|exact Hquiet].
      repeat (apply Forall_cons || apply Forall_nil). now split. }
    destruct (starts_with_the_quiet is_quiet _ _ before (DriveListFile q) after
                Hstart (listing_is_not_quiet q) Hsplit) as [c ->].
    apply in_or_app. left. apply in_or_app. now right.
  - exfalso.
    assert (Hquiet : Forall is_quiet (events (main limit env) h)).
    { apply main_quiet_without_session. intros d. unfold result.
      rewrite Hauth. discriminate. }
    rewrite Forall_forall in Hquiet.
    apply (listing_is_not_quiet q). apply Hquiet. rewrite Hsplit.
    apply in_elt.
  - exfalso.
    assert (Hquiet : Forall is_quiet (events (main limit env) h)).
    { apply main_quiet_without_session. intros d. unfold result.
      rewrite Hauth. discriminate. }
    rewrite Forall_forall in Hquiet.
    apply (listing_is_not_quiet q). apply Hquiet. rewrite Hsplit.
    apply in_elt.
Qed.

Lemma main_lists_only_with_a_session_witness :
  events (main 2 pressed_world) []
  = [ St Sidebar Header "🔐 Authentification";
      OsPathExists "credentials.json"; GAuth LoadCredentialsFile;
      GAuth Authorize; NewGoogleDrive;
      St Sidebar Success "✅ Connecté à Google Drive";
      StSpinner "📂 Chargement des dossiers principaux..." ]
    ++ DriveListFile folders_query
    :: [ StSpinnerDone;
         StSelectbox Sidebar folder_box ["Rapports"; "Sub"];
         StTextInput Sidebar keyword_box "tx_curr";
         StSelectbox Sidebar "📄 Extension des fichiers" [".xlsx"];
         StButton Sidebar search_button ] /\
  In NewGoogleDrive
    [ St Sidebar Header "🔐 Authentification";
      OsPathExists "credentials.json"; GAuth LoadCredentialsFile;
      GAuth Authorize; NewGoogleDrive;
      St Sidebar Success "✅ Connecté à Google Drive";
      StSpinner "📂 Chargement des dossiers principaux..." ].
Proof.
  assert (H : events (main 2 pressed_world) []
              = [ St Sidebar Header "🔐 Authentification";
                  OsPathExists "credentials.json"; GAuth LoadCredentialsFile;
                  GAuth Authorize; NewGoogleDrive;
                  St Sidebar Success "✅ Connecté à Google Drive";
                  StSpinner "📂 Chargement des dossiers principaux..." ]
                ++ DriveListFile folders_query
                :: [ StSpinnerDone;
                     StSelectbox Sidebar folder_box ["Rapports"; "Sub"];
                     StTextInput Sidebar keyword_box "tx_curr";
                     StSelectbox Sidebar "📄 Extension des fichiers" [".xlsx"];
                     StButton Sidebar search_button ]) by reflexivity.
  split; [exact H|].
  exact (main_lists_only_with_a_session 2 pressed_world [] _ _ _ H).
Defined.


(* ------------------------------------------------------------------ *)
(** * The results shown by [main] *)
(* ------------------------------------------------------------------ *)
















(** X23. When the search finds nothing, the part of [main] that shows the
    results ends after the two messages that no file was found, one in the
    sidebar and one on the page under the title of the folder: it draws
    no tab and downloads nothing. *)
Theorem run_search_nothing_found limit env drive selected_folder folder_id
    keyword extension h :
  result (find_files limit env drive folder_id keyword extension) h = Val [] ->
  run_search limit env drive selected_folder folder_id keyword extension h
  = (Val tt,
     StSpinner search_spinner
     :: events (find_files limit env drive folder_id keyword extension) h
     ++ [ StSpinnerDone;
          St Sidebar Error "❌ Aucun fichier trouvé.";
          St Page Subheader
            ("🔍 Résultats pour le dossier : `" +++ selected_folder +++ "`");
          St Page Error "❌ Aucun fichier trouvé avec ce mot-clé." ]).
Proof.
  unfold result, events. intros Hfind.
  destruct (find_files limit env drive folder_id keyword extension h)
    as [r es] eqn:E. simpl in Hfind. subst r. simpl snd.
  unfold run_search.
  rewrite (bind_val _ _ h (load_data_nothing _ _ _ _ _ _ _ _ E) eq_refl).
  simpl. now rewrite <- app_assoc.
Qed.

Lemma run_search_nothing_found_witness :
  result (find_files 1 bare_world a_session "E" "tx_curr" ".xlsx") [] = Val [] /\
  run_search 1 bare_world a_session "Vide" "E" "tx_curr" ".xlsx" []
  = (Val tt,
     [ StSpinner search_spinner;
       DriveListFile (children_query "E");
       StSpinnerDone;
       St Sidebar Error "❌ Aucun fichier trouvé.";
       St Page Subheader "🔍 Résultats pour le dossier : `Vide`";
       St Page Error "❌ Aucun fichier trouvé avec ce mot-clé." ]).
Proof.
  split; [reflexivity|].
  exact (run_search_nothing_found 1 bare_world a_session "Vide" "E"
           "tx_curr" ".xlsx" [] eq_refl).
Defined.


